(** * Playback-info resolution of the media server (server/src/services/mediaService.ts)

    A shallow embedding of [MediaService]: the identifier resolver
    ([getMoviePlayback], [getEpisodePlayback], [getEpisodeFilePath]), the
    file prober ([probeFile]) and the playback-info builder
    ([buildPlaybackInfo]), together with the part of the browser client's
    media service that turns a playback info into client-visible URLs.

    Conventions of the embedding.
    - A JavaScript string is a [string] holding its UTF-8 bytes.  File paths
      and codec names are taken to be well-formed text, so
      [encodeURIComponent] is total; [toLowerCase] is the ASCII one, which is
      what [String.prototype.toLowerCase] does on ASCII text.
    - A JavaScript number used as an identifier, index or count is a [Z];
      such numbers are safe integers (below 2^53 in absolute value), the
      range in which the arithmetic and the printing of JavaScript numbers
      are those of the integers.
    - [await] is sequencing in the monad [M], which records the calls made to
      the collaborators and propagates a thrown exception; an exception
      thrown inside the executor of a promise rejects the promise, and is
      thrown again by the [await] of it.
    - Console output is not part of the model. *)

From Stdlib Require Import ZArith List String Ascii Bool Lia.
From Stdlib Require Import Numbers.DecimalString.
From Stdlib Require Numbers.DecimalZ.
Import ListNotations.

Local Open Scope string_scope.
Local Open Scope Z_scope.

(** ** JavaScript and Node primitives used by the service *)

Module JS.

(** [x || d] on a possibly-undefined string: the empty string is falsy. *)
Definition str_or (x : option string) (d : string) : string :=
  match x with
  | Some s => if String.eqb s "" then d else s
  | None => d
  end.

(** [x || d] on a possibly-undefined number: zero is falsy. *)
Definition num_or (x : option Z) (d : Z) : Z :=
  match x with
  | Some n => if n =? 0 then d else n
  | None => d
  end.

(** Truthiness of a string and of a number. *)
Definition truthy_str (s : string) : bool := negb (String.eqb s "").
Definition truthy_num (n : Z) : bool := negb (n =? 0).

Definition is_upper (c : ascii) : bool :=
  (65 <=? nat_of_ascii c)%nat && (nat_of_ascii c <=? 90)%nat.

Definition lower_char (c : ascii) : ascii :=
  if is_upper c then ascii_of_nat (nat_of_ascii c + 32) else c.

(** [String.prototype.toLowerCase]. *)
Fixpoint toLowerCase (s : string) : string :=
  match s with
  | EmptyString => EmptyString
  | String c r => String (lower_char c) (toLowerCase r)
  end.

(** [Array.prototype.includes] on an array of strings. *)
Fixpoint includes (l : list string) (x : string) : bool :=
  match l with
  | [] => false
  | y :: r => String.eqb y x || includes r x
  end.

(** [Array.prototype.find]. *)
Fixpoint find {A : Type} (p : A -> bool) (l : list A) : option A :=
  match l with
  | [] => None
  | x :: r => if p x then Some x else find p r
  end.

(** [Array.prototype.filter]. *)
Fixpoint filter {A : Type} (p : A -> bool) (l : list A) : list A :=
  match l with
  | [] => []
  | x :: r => if p x then x :: filter p r else filter p r
  end.

(** [Array.prototype.map] with a callback [(s, i) => ...] that also reads
    and updates a variable captured from the enclosing scope (the
    [subtitleIndex++] and [audioIndex++] counters): the callback gets the
    element, its position [i] and the current value of the variable, and
    returns the mapped value with the new value of the variable. *)
Fixpoint map_from {A B S : Type} (f : A -> Z -> S -> B * S)
         (i : Z) (st : S) (l : list A) : list B * S :=
  match l with
  | [] => ([], st)
  | x :: r =>
      let '(y, st1) := f x i st in
      let '(ys, st2) := map_from f (i + 1) st1 r in
      (y :: ys, st2)
  end.

Definition map_st {A B S : Type} (f : A -> Z -> S -> B * S)
           (st : S) (l : list A) : list B * S :=
  map_from f 0 st l.

(** [String(n)] for a safe integer [n] (below 2^53 in absolute value): the
    decimal text of [n].  The service prints positions of tracks and the
    season and episode numbers of a request; a JavaScript number beyond the
    safe integers is a double that the model does not describe. *)
Definition String_of (n : Z) : string :=
  NilEmpty.string_of_int (Z.to_int n).

Fixpoint repeat_char (c : ascii) (n : nat) : string :=
  match n with
  | O => EmptyString
  | S k => String c (repeat_char c k)
  end.

(** [s.padStart(n, c)] with a one-character fill string. *)
Definition padStart (s : string) (n : nat) (c : ascii) : string :=
  repeat_char c (n - String.length s) ++ s.

(** [s.slice(1)]. *)
Definition slice1 (s : string) : string :=
  match s with
  | EmptyString => EmptyString
  | String _ r => r
  end.

(** [s.startsWith('/')]. *)
Definition startsWithSlash (s : string) : bool :=
  match s with
  | String c _ => Ascii.eqb c "/"
  | EmptyString => false
  end.

(** *** encodeURIComponent *)

Definition is_digit (c : ascii) : bool :=
  (48 <=? nat_of_ascii c)%nat && (nat_of_ascii c <=? 57)%nat.

Definition is_lower (c : ascii) : bool :=
  (97 <=? nat_of_ascii c)%nat && (nat_of_ascii c <=? 122)%nat.

Definition is_mark (c : ascii) : bool :=
  Ascii.eqb c "-" || Ascii.eqb c "_" || Ascii.eqb c "." || Ascii.eqb c "!"
  || Ascii.eqb c "~" || Ascii.eqb c "*" || Ascii.eqb c "'"
  || Ascii.eqb c "(" || Ascii.eqb c ")".

(** The characters [encodeURIComponent] leaves as they are. *)
Definition unreserved (c : ascii) : bool :=
  is_upper c || is_lower c || is_digit c || is_mark c.

Definition hex_digit (n : nat) : ascii :=
  if (n <? 10)%nat then ascii_of_nat (48 + n) else ascii_of_nat (55 + n).

Definition is_hex (c : ascii) : bool :=
  is_digit c || ((65 <=? nat_of_ascii c)%nat && (nat_of_ascii c <=? 70)%nat).

Definition encode_byte (c : ascii) : string :=
  if unreserved c then String c EmptyString
  else String "%" (String (hex_digit (nat_of_ascii c / 16))
                     (String (hex_digit (nat_of_ascii c mod 16)) EmptyString)).

Fixpoint encodeURIComponent (s : string) : string :=
  match s with
  | EmptyString => EmptyString
  | String c r => encode_byte c ++ encodeURIComponent r
  end.

(** *** path.extname (POSIX) *)

Record ExtScan := mkExtScan {
  startDot : Z;
  startPart : Z;
  end_ : Z;
  matchedSlash : bool;
  preDotState : Z
}.

Definition ext_init : ExtScan := mkExtScan (-1) 0 (-1) true 0.

(** The loop [for (let i = path.length - 1; i >= 0; --i)]: [n] is [i + 1]. *)
Fixpoint ext_scan (path : string) (n : nat) (st : ExtScan) : ExtScan :=
  match n with
  | O => st
  | S i =>
      match String.get i path with
      | None => st
      | Some code =>
          if Ascii.eqb code "/" then
            if negb (matchedSlash st) then
              mkExtScan (startDot st) (Z.of_nat i + 1) (end_ st)
                        (matchedSlash st) (preDotState st)
            else ext_scan path i st
          else
            let st1 :=
              if end_ st =? -1 then
                mkExtScan (startDot st) (startPart st) (Z.of_nat i + 1)
                          false (preDotState st)
              else st in
            let st2 :=
              if Ascii.eqb code "." then
                if startDot st1 =? -1 then
                  mkExtScan (Z.of_nat i) (startPart st1) (end_ st1)
                            (matchedSlash st1) (preDotState st1)
                else if negb (preDotState st1 =? 1) then
                  mkExtScan (startDot st1) (startPart st1) (end_ st1)
                            (matchedSlash st1) 1
                else st1
              else if negb (startDot st1 =? -1) then
                mkExtScan (startDot st1) (startPart st1) (end_ st1)
                          (matchedSlash st1) (-1)
              else st1 in
            ext_scan path i st2
      end
  end.

Definition extname (path : string) : string :=
  let st := ext_scan path (String.length path) ext_init in
  if (startDot st =? -1) || (end_ st =? -1) || (preDotState st =? 0)
     || ((preDotState st =? 1) && (startDot st =? end_ st - 1)
         && (startDot st =? startPart st + 1))
  then ""
  else String.substring (Z.to_nat (startDot st))
                        (Z.to_nat (end_ st - startDot st)) path.

End JS.

(** ** Data model (the interfaces of mediaService.ts) *)

Module CodecType.
Inductive t := video | audio | subtitle.

(** [a === b] on codec types. *)
Definition eqb (a b : t) : bool :=
  match a, b with
  | video, video | audio, audio | subtitle, subtitle => true
  | _, _ => false
  end.
End CodecType.

Module Tags.
Record t := mk {
  language : option string;
  title : option string;
  handler_name : option string
}.
End Tags.

Module MediaStream.
Record t := mk {
  index : Z;
  codec_name : string;
  codec_type : CodecType.t;
  codec_long_name : option string;
  width : option Z;
  height : option Z;
  channels : option Z;
  channel_layout : option string;
  sample_rate : option string;
  bit_rate : option string;
  tags : option Tags.t
}.

(** [s.tags?.language] and [s.tags?.title]. *)
Definition tags_language (s : t) : option string :=
  match tags s with Some g => Tags.language g | None => None end.
Definition tags_title (s : t) : option string :=
  match tags s with Some g => Tags.title g | None => None end.
End MediaStream.

Module MediaFormat.
Record t := mk {
  filename : string;
  format_name : string;
  format_long_name : string;
  duration : string;
  size : string;
  bit_rate : string
}.
End MediaFormat.

Module MediaInfo.
Record t := mk {
  format : MediaFormat.t;
  streams : list MediaStream.t
}.
End MediaInfo.

Module SubtitleTrack.
Record t := mk {
  id : Z;
  streamIndex : Z;
  language : string;
  languageCode : string;
  displayTitle : string;
  format : string
}.
End SubtitleTrack.

Module AudioTrack.
Record t := mk {
  id : Z;
  streamIndex : Z;
  language : string;
  languageCode : string;
  displayTitle : string;
  codec : string;
  channels : Z;
  selected : bool
}.
End AudioTrack.

(** The [mediaInfo] member of [PlaybackInfo]. *)
Module MediaSummary.
Record t := mk {
  width : Z;
  height : Z;
  videoCodec : string;
  audioCodec : string;
  container : string
}.
End MediaSummary.

Module ContentKind.
Inductive t := movie | episode.
End ContentKind.

Module PlaybackInfo.
Record t := mk {
  found : bool;
  title : string;
  type : ContentKind.t;
  filePath : string;
  fileSize : Z;
  duration : Z;
  mediaInfo : MediaSummary.t;
  needsTranscode : bool;
  streamUrl : string;
  subtitles : list SubtitleTrack.t;
  audioTracks : list AudioTrack.t
}.
End PlaybackInfo.

(** ** What the library manager returns

    radarrService.ts and sonarrService.ts are imported by the service; of the
    objects they return, the service reads the members below. *)

Module MovieFile.
Record t := mk { path : string }.
End MovieFile.

Module RadarrMovie.
Record t := mk {
  title : string;
  hasFile : bool;
  movieFile : option MovieFile.t
}.

(** [movie.movieFile?.path]. *)
Definition movieFile_path (m : t) : option string :=
  match movieFile m with Some f => Some (MovieFile.path f) | None => None end.
End RadarrMovie.

Module SonarrSeries.
Record t := mk { id : Z; title : string }.
End SonarrSeries.

Module SeriesLookup.
Record t := mk { tvdbId : Z }.
End SeriesLookup.

Module SonarrEpisode.
Record t := mk {
  seasonNumber : Z;
  episodeNumber : Z;
  title : string;
  hasFile : bool;
  episodeFileId : Z
}.
End SonarrEpisode.

(** ** Effects: calls to the collaborators, and exceptions *)

(** The calls the service makes outside itself. *)
Inductive Call :=
| Radarr_getMovieByTmdbId (tmdbId : Z)
| Sonarr_getSeries
| Sonarr_lookupSeriesByTmdbId (tmdbId : Z)
| Sonarr_getSeriesByTvdbId (tvdbId : Z)
| Sonarr_getEpisodes (seriesId : Z)
| Fetch_episodefile (episodeFileId : Z)
| Spawn_ffprobe (filePath : string).

(** How an awaited call ends: with a value, or with an exception. *)
Inductive outcome (A : Type) :=
| Returned (a : A)
| Thrown.
Arguments Returned {A} a.
Arguments Thrown {A}.

(** A computation of the service: how it ends, and the calls it made, in
    order. *)
Definition M (A : Type) : Type := outcome A * list Call.

Definition ret {A : Type} (a : A) : M A := (Returned a, []).

(** An exception thrown by the code of the service itself. *)
Definition throw {A : Type} : M A := (Thrown, []).

Definition bind {A B : Type} (m : M A) (f : A -> M B) : M B :=
  match m with
  | (Returned a, t) => let '(r, t') := f a in (r, (t ++ t')%list)
  | (Thrown, t) => (Thrown, t)
  end.

(** [await] of a call [c] to a collaborator that ends as [r]. *)
Definition call {A : Type} (c : Call) (r : outcome A) : M A := (r, [c]).

Definition result {A : Type} (m : M A) : outcome A := fst m.
Definition calls {A : Type} (m : M A) : list Call := snd m.

Notation "x <- m ;; k" := (bind m (fun x => k))
  (at level 61, m at next level, right associativity).

(** How spawning the [ffprobe] child process goes.  [spawn] throws
    synchronously (out of memory, for one), or it returns a child without a
    [stdout] stream (no file descriptor was left), on which
    [ffprobe.stdout.on] throws: both happen in the executor of the promise,
    before the handler of ['error'] is attached.  Otherwise the child emits
    the ['error'] event (the tool is not there to be started), or the
    ['close'] event with its exit code ([null] when it was killed by a
    signal) and what it wrote to its standard output. *)
Inductive ProbeRun :=
| SpawnThrows
| SpawnNoStdout
| SpawnError
| Closed (code : option Z) (stdout : string).

(** A truthy value that [JSON.parse] gives, as far as the builder reads it:
    [streams] is [None] where the value has no array as member [streams],
    and [format] is [None] where its member [format] is [undefined] or
    [null].  The streams of the array and the members of the format are
    taken to be of the interfaces [MediaStream] and [MediaFormat]. *)
Module ProbeOutput.
Record t := mk {
  streams : option (list MediaStream.t);
  format : option MediaFormat.t
}.
End ProbeOutput.

(** What [JSON.parse] makes of a text: it throws a [SyntaxError], or gives
    a falsy value ([null], [false], [0] or the empty string), or a truthy
    value. *)
Inductive Parsed :=
| SyntaxError
| Falsy
| Value (info : ProbeOutput.t).

(** How [fetch] of the episode file ends: the promise is rejected, or there
    is a response with its [ok] flag and its body, [None] when
    [response.json()] is rejected, else the [path] member of the body. *)
Inductive FetchOutcome :=
| FetchRejected
| Response (ok : bool) (json : option string).

(** The world around the service during one request.  The library
    manager's clients (radarrService, sonarrService) answer a call with a
    value or an exception.  A request makes each call but one at most once,
    and the answer is given by the arguments; the cross-reference lookup is
    made again in every round of the loop over the series, and
    [sonarr_lookupSeriesByTmdbId round tmdbId] is the answer to the lookup
    of round [round], counted from zero: the answers of two rounds need not
    be the same.  [JSON_parse] is what [JSON.parse] makes of the output of
    the probe tool.  [duration_ms d] is
    [Math.floor((parseFloat(d) || 0) * 1000)], a floating-point computation
    that is left abstract.  [parseInt] is [None] where it gives [NaN]. *)
Record Env := mkEnv {
  radarr_getMovieByTmdbId : Z -> outcome (option RadarrMovie.t);
  sonarr_getSeries : outcome (list SonarrSeries.t);
  sonarr_lookupSeriesByTmdbId : nat -> Z -> outcome (option SeriesLookup.t);
  sonarr_getSeriesByTvdbId : Z -> outcome (option SonarrSeries.t);
  sonarr_getEpisodes : Z -> outcome (list SonarrEpisode.t);
  fetch_episodefile : Z -> FetchOutcome;
  fs_existsSync : string -> bool;
  ffprobe : string -> ProbeRun;
  JSON_parse : string -> Parsed;
  duration_ms : string -> Z;
  parseInt : string -> option Z
}.

(** ** The service *)

(** Browser-compatible audio codecs. *)
Definition BROWSER_COMPATIBLE_AUDIO : list string :=
  ["aac"; "mp3"; "opus"; "vorbis"; "flac"; "pcm_s16le"; "pcm_s24le"].

(** The predicate [s => s.codec_type === k]. *)
Definition is_type (k : CodecType.t) (s : MediaStream.t) : bool :=
  CodecType.eqb (MediaStream.codec_type s) k.

Section MediaService.

Variable env : Env.

(** Probe a media file using ffprobe to get all stream information.  The
    promise is rejected where its executor throws, and is resolved with
    [null] or with the parsed value by the handlers of ['error'] and
    ['close']; a falsy parsed value is read by the caller as [null] is. *)
Definition probeFile (filePath : string) : M (option ProbeOutput.t) :=
  if negb (fs_existsSync env filePath) then ret None
  else
    run <- call (Spawn_ffprobe filePath) (Returned (ffprobe env filePath)) ;;
    match run with
    | SpawnThrows => throw
    | SpawnNoStdout => throw
    | SpawnError => ret None
    | Closed code stdout =>
        match code with
        | Some 0 =>
            match JSON_parse env stdout with
            | SyntaxError => ret None
            | Falsy => ret None
            | Value info => ret (Some info)
            end
        | _ => ret None
        end
    end.

(** The subtitle callback: [idx = subtitleIndex++]. *)
Definition subtitleOf (s : MediaStream.t) (i : Z) (subtitleIndex : Z)
  : SubtitleTrack.t * Z :=
  let idx := subtitleIndex in
  (SubtitleTrack.mk
     (MediaStream.index s)
     idx
     (JS.str_or (MediaStream.tags_language s) "Unknown")
     (JS.str_or (MediaStream.tags_language s) "und")
     (JS.str_or (MediaStream.tags_title s)
        (JS.str_or (MediaStream.tags_language s)
           ("Subtitle " ++ JS.String_of (idx + 1))))
     (MediaStream.codec_name s),
   subtitleIndex + 1).

(** The audio callback [(s, i) => ...], with [streamIndex: audioIndex++]. *)
Definition audioTrackOf (s : MediaStream.t) (i : Z) (audioIndex : Z)
  : AudioTrack.t * Z :=
  (AudioTrack.mk
     (MediaStream.index s)
     audioIndex
     (JS.str_or (MediaStream.tags_language s) "Unknown")
     (JS.str_or (MediaStream.tags_language s) "und")
     (JS.str_or (MediaStream.tags_title s)
        (JS.str_or (MediaStream.tags_language s)
           ("Audio " ++ JS.String_of (i + 1))))
     (MediaStream.codec_name s)
     (JS.num_or (MediaStream.channels s) 2)
     (i =? 0),
   audioIndex + 1).

(** The part of [buildPlaybackInfo] after a successful probe, on a probe
    output of the interface [MediaInfo]. *)
Definition playbackOf (filePath title : string) (type : ContentKind.t)
           (mediaInfo : MediaInfo.t) : option PlaybackInfo.t :=
  match JS.find (is_type CodecType.video) (MediaInfo.streams mediaInfo) with
  | None => None
  | Some videoStream =>
      let audioStream := JS.find (is_type CodecType.audio) (MediaInfo.streams mediaInfo) in
      let subtitleStreams :=
        JS.filter (is_type CodecType.subtitle) (MediaInfo.streams mediaInfo) in
      let subtitles := fst (JS.map_st subtitleOf 0 subtitleStreams) in
      let audioStreams :=
        JS.filter (is_type CodecType.audio) (MediaInfo.streams mediaInfo) in
      let audioTracks := fst (JS.map_st audioTrackOf 0 audioStreams) in
      let audioCodec :=
        JS.str_or (option_map MediaStream.codec_name audioStream) "unknown" in
      let needsTranscode :=
        negb (JS.includes BROWSER_COMPATIBLE_AUDIO (JS.toLowerCase audioCodec)) in
      let durationMs :=
        duration_ms env (MediaFormat.duration (MediaInfo.format mediaInfo)) in
      let fileSize :=
        JS.num_or (parseInt env (MediaFormat.size (MediaInfo.format mediaInfo))) 0 in
      let encodedPath := JS.encodeURIComponent filePath in
      let streamUrl :=
        if needsTranscode
        then "/api/media/transcode/" ++ encodedPath
        else "/api/media/stream/" ++ encodedPath in
      Some (PlaybackInfo.mk
              true
              title
              type
              filePath
              fileSize
              durationMs
              (MediaSummary.mk
                 (JS.num_or (MediaStream.width videoStream) 0)
                 (JS.num_or (MediaStream.height videoStream) 0)
                 (MediaStream.codec_name videoStream)
                 audioCodec
                 (let ext := JS.slice1 (JS.extname filePath) in
                  if JS.truthy_str ext then ext else "mkv"))
              needsTranscode
              streamUrl
              subtitles
              audioTracks)
  end.

(** Build playback info from a file path.  Reading [mediaInfo.streams.find]
    throws a [TypeError] on a probe output without streams, and reading
    [mediaInfo.format.duration] on one without format, which is reached
    when there is a video stream. *)
Definition buildPlaybackInfo (filePath title : string) (type : ContentKind.t)
  : M (option PlaybackInfo.t) :=
  mediaInfo <- probeFile filePath ;;
  match mediaInfo with
  | None => ret None
  | Some mediaInfo =>
      match ProbeOutput.streams mediaInfo with
      | None => throw
      | Some streams =>
          match JS.find (is_type CodecType.video) streams with
          | None => ret None
          | Some _ =>
              match ProbeOutput.format mediaInfo with
              | None => throw
              | Some format =>
                  ret (playbackOf filePath title type
                                  (MediaInfo.mk format streams))
              end
          end
      end
  end.

(** Get movie playback info by TMDB ID. *)
Definition getMoviePlayback (tmdbId : Z) : M (option PlaybackInfo.t) :=
  movie <- call (Radarr_getMovieByTmdbId tmdbId)
                (radarr_getMovieByTmdbId env tmdbId) ;;
  match movie with
  | None => ret None
  | Some movie =>
      match RadarrMovie.hasFile movie, RadarrMovie.movieFile_path movie with
      | true, Some filePath =>
          if JS.truthy_str filePath
          then buildPlaybackInfo filePath (RadarrMovie.title movie)
                                 ContentKind.movie
          else ret None
      | _, _ => ret None
      end
  end.

(** Get episode file path from Sonarr.  [seriesId] is not used. *)
Definition getEpisodeFilePath (seriesId episodeFileId : Z)
  : M (option string) :=
  response <- call (Fetch_episodefile episodeFileId)
                   (Returned (fetch_episodefile env episodeFileId)) ;;
  match response with
  | FetchRejected => ret None
  | Response ok json =>
      if negb ok then ret None
      else match json with
           | None => ret None
           | Some path => ret (Some path)
           end
  end.

(** The loop [for (const s of allSeries)] of [getEpisodePlayback] from its
    round [round] on, with the series [allSeries] still to visit; it leaves
    the series it found, if any, in [series].  Every round awaits the
    lookup anew. *)
Fixpoint findSeries_from (round : nat) (tmdbId : Z)
         (allSeries : list SonarrSeries.t) : M (option SonarrSeries.t) :=
  match allSeries with
  | [] => ret None
  | s :: rest =>
      lookup <- call (Sonarr_lookupSeriesByTmdbId tmdbId)
                     (sonarr_lookupSeriesByTmdbId env round tmdbId) ;;
      match lookup with
      | Some lookup =>
          if JS.truthy_num (SeriesLookup.tvdbId lookup)
          then call (Sonarr_getSeriesByTvdbId (SeriesLookup.tvdbId lookup))
                    (sonarr_getSeriesByTvdbId env (SeriesLookup.tvdbId lookup))
          else findSeries_from (S round) tmdbId rest
      | None => findSeries_from (S round) tmdbId rest
      end
  end.

Definition findSeries (tmdbId : Z) (allSeries : list SonarrSeries.t)
  : M (option SonarrSeries.t) :=
  findSeries_from 0 tmdbId allSeries.

(** The title of an episode:
    [`${series.title} - S${..}E${..} - ${targetEpisode.title}`]. *)
Definition episodeTitle (series : SonarrSeries.t) (season episode : Z)
           (targetEpisode : SonarrEpisode.t) : string :=
  SonarrSeries.title series ++ " - S"
    ++ JS.padStart (JS.String_of season) 2 "0" ++ "E"
    ++ JS.padStart (JS.String_of episode) 2 "0" ++ " - "
    ++ SonarrEpisode.title targetEpisode.

(** Get episode playback info by TMDB ID, season, and episode. *)
Definition getEpisodePlayback (tmdbId season episode : Z)
  : M (option PlaybackInfo.t) :=
  allSeries <- call Sonarr_getSeries (sonarr_getSeries env) ;;
  series <- findSeries tmdbId allSeries ;;
  match series with
  | None => ret None
  | Some series =>
      episodes <- call (Sonarr_getEpisodes (SonarrSeries.id series))
                       (sonarr_getEpisodes env (SonarrSeries.id series)) ;;
      let targetEpisode :=
        JS.find (fun ep => (SonarrEpisode.seasonNumber ep =? season)
                           && (SonarrEpisode.episodeNumber ep =? episode))
                episodes in
      match targetEpisode with
      | None => ret None
      | Some targetEpisode =>
          if negb (SonarrEpisode.hasFile targetEpisode)
             || negb (JS.truthy_num (SonarrEpisode.episodeFileId targetEpisode))
          then ret None
          else
            episodeFile <- getEpisodeFilePath
                             (SonarrSeries.id series)
                             (SonarrEpisode.episodeFileId targetEpisode) ;;
            match episodeFile with
            | None => ret None
            | Some episodeFile =>
                if negb (JS.truthy_str episodeFile) then ret None
                else buildPlaybackInfo
                       episodeFile
                       (episodeTitle series season episode targetEpisode)
                       ContentKind.episode
            end
      end
  end.

End MediaService.

(** ** The browser client's media service *)

(** A subtitle track as the client holds it: the server's members and the
    optional [url]. *)
Module ClientSubtitleTrack.
Record t := mk {
  id : Z;
  streamIndex : Z;
  language : string;
  languageCode : string;
  displayTitle : string;
  format : string;
  url : option string
}.
End ClientSubtitleTrack.

(** The playback info the client returns to the player. *)
Module ClientPlaybackInfo.
Record t := mk {
  found : bool;
  title : string;
  type : ContentKind.t;
  filePath : string;
  fileSize : Z;
  duration : Z;
  mediaInfo : MediaSummary.t;
  needsTranscode : bool;
  streamUrl : string;
  subtitles : list ClientSubtitleTrack.t;
  audioTracks : list AudioTrack.t
}.
End ClientPlaybackInfo.

Section Client.

(** [API_BASE], and the value of [getAuthToken()]. *)
Variable API_BASE : string.
Variable token : option string.

(** [token ? `?token=${encodeURIComponent(token)}` : ''] *)
Definition authParam : string :=
  match token with
  | Some tk =>
      if JS.truthy_str tk then "?token=" ++ JS.encodeURIComponent tk else ""
  | None => ""
  end.

(** [url.startsWith('/') ? `${API_BASE}${url}${authParam}` : url] *)
Definition absolutize (url : string) : string :=
  if JS.startsWithSlash url then API_BASE ++ url ++ authParam else url.

(** The two [map]s over [response.data.subtitles]. *)
Definition clientSubtitle (filePath : string) (sub : SubtitleTrack.t)
  : ClientSubtitleTrack.t :=
  let url :=
    "/api/media/subtitle/"
      ++ JS.encodeURIComponent
           (JS.String_of (SubtitleTrack.streamIndex sub) ++ ":" ++ filePath) in
  ClientSubtitleTrack.mk
    (SubtitleTrack.id sub)
    (SubtitleTrack.streamIndex sub)
    (SubtitleTrack.language sub)
    (SubtitleTrack.languageCode sub)
    (SubtitleTrack.displayTitle sub)
    (SubtitleTrack.format sub)
    (Some (absolutize url)).

(** What the client's [getMoviePlayback] and [getEpisodePlayback] make of
    the server's answer [data]: [None] when [data.found] is false. *)
Definition clientPlayback (data : PlaybackInfo.t)
  : option ClientPlaybackInfo.t :=
  if negb (PlaybackInfo.found data) then None
  else
    let streamUrl :=
      if JS.truthy_str (PlaybackInfo.streamUrl data)
         && JS.startsWithSlash (PlaybackInfo.streamUrl data)
      then API_BASE ++ PlaybackInfo.streamUrl data ++ authParam
      else PlaybackInfo.streamUrl data in
    Some (ClientPlaybackInfo.mk
            (PlaybackInfo.found data)
            (PlaybackInfo.title data)
            (PlaybackInfo.type data)
            (PlaybackInfo.filePath data)
            (PlaybackInfo.fileSize data)
            (PlaybackInfo.duration data)
            (PlaybackInfo.mediaInfo data)
            (PlaybackInfo.needsTranscode data)
            streamUrl
            (List.map (clientSubtitle (PlaybackInfo.filePath data))
                      (PlaybackInfo.subtitles data))
            (PlaybackInfo.audioTracks data)).

End Client.

(** ** The two entry points as one function of the request *)

Inductive Request :=
| MovieRequest (tmdbId : Z)
| EpisodeRequest (tmdbId season episode : Z).

Definition playback (env : Env) (req : Request) : M (option PlaybackInfo.t) :=
  match req with
  | MovieRequest tmdbId => getMoviePlayback env tmdbId
  | EpisodeRequest tmdbId season episode =>
      getEpisodePlayback env tmdbId season episode
  end.

(** ** Vocabulary of the specification *)

(** Two codec names are the same up to the case of their letters. *)
Definition eq_nocase (a b : string) : Prop :=
  JS.toLowerCase a = JS.toLowerCase b.

(** The first audio stream of the file has a codec of the allow-list. *)
Definition primary_audio_compatible (mediaInfo : MediaInfo.t) : Prop :=
  exists s c,
    JS.find (is_type CodecType.audio) (MediaInfo.streams mediaInfo) = Some s
    /\ In c BROWSER_COMPATIBLE_AUDIO
    /\ eq_nocase (MediaStream.codec_name s) c.

(** The ways of failing to probe a path that the prober handles: there is
    no such file, the child emits the ['error'] event, it exits with a code
    other than zero, or its output cannot be parsed or is [null]. *)
Inductive probe_failure (env : Env) (filePath : string) : Prop :=
| PF_not_found :
    fs_existsSync env filePath = false -> probe_failure env filePath
| PF_spawn_error :
    ffprobe env filePath = SpawnError -> probe_failure env filePath
| PF_exit_code code stdout :
    ffprobe env filePath = Closed code stdout -> code <> Some 0 ->
    probe_failure env filePath
| PF_unparseable stdout :
    ffprobe env filePath = Closed (Some 0) stdout ->
    JSON_parse env stdout = SyntaxError ->
    probe_failure env filePath
| PF_null stdout :
    ffprobe env filePath = Closed (Some 0) stdout ->
    JSON_parse env stdout = Falsy ->
    probe_failure env filePath.

(** The ways of failing to spawn the probe tool that the prober does not
    handle: the file is there, and [spawn] throws, or gives a child without
    [stdout]. *)
Inductive spawn_throws (env : Env) (filePath : string) : Prop :=
| ST_throws :
    fs_existsSync env filePath = true ->
    ffprobe env filePath = SpawnThrows -> spawn_throws env filePath
| ST_no_stdout :
    fs_existsSync env filePath = true ->
    ffprobe env filePath = SpawnNoStdout -> spawn_throws env filePath.

(** The probe tool ends well with a text that parses to a value that is not
    of the interface [MediaInfo], where the builder reads it: it has no
    streams, or it has a video stream and no format. *)
Inductive ill_shaped (env : Env) (filePath : string) : Prop :=
| IS_no_streams stdout format :
    fs_existsSync env filePath = true ->
    ffprobe env filePath = Closed (Some 0) stdout ->
    JSON_parse env stdout = Value (ProbeOutput.mk None format) ->
    ill_shaped env filePath
| IS_no_format stdout streams videoStream :
    fs_existsSync env filePath = true ->
    ffprobe env filePath = Closed (Some 0) stdout ->
    JSON_parse env stdout = Value (ProbeOutput.mk (Some streams) None) ->
    JS.find (is_type CodecType.video) streams = Some videoStream ->
    ill_shaped env filePath.

(** The parsed value that is [mediaInfo]. *)
Definition well_shaped (mediaInfo : MediaInfo.t) : Parsed :=
  Value (ProbeOutput.mk (Some (MediaInfo.streams mediaInfo))
                        (Some (MediaInfo.format mediaInfo))).

(** Probing the path succeeds with [mediaInfo]. *)
Definition probed (env : Env) (filePath : string) (mediaInfo : MediaInfo.t)
  : Prop :=
  fs_existsSync env filePath = true
  /\ exists stdout,
       ffprobe env filePath = Closed (Some 0) stdout
       /\ JSON_parse env stdout = well_shaped mediaInfo.

Definition has_stream (k : CodecType.t) (mediaInfo : MediaInfo.t) : Prop :=
  exists s, In s (MediaInfo.streams mediaInfo) /\ MediaStream.codec_type s = k.

Definition no_stream (k : CodecType.t) (mediaInfo : MediaInfo.t) : Prop :=
  forall s, In s (MediaInfo.streams mediaInfo) -> MediaStream.codec_type s <> k.

(** The cross-reference lookup names no series: it answers [null], or an
    entry whose [tvdbId] is falsy. *)
Definition lookup_misses (r : outcome (option SeriesLookup.t)) : Prop :=
  r = Returned None
  \/ exists lookup, r = Returned (Some lookup) /\ SeriesLookup.tvdbId lookup = 0.

(** The lookups of the rounds before [round] name no series. *)
Definition misses_before (env : Env) (tmdbId : Z) (round : nat) : Prop :=
  forall k, (k < round)%nat ->
            lookup_misses (sonarr_lookupSeriesByTmdbId env k tmdbId).

(** The library manager has the series of the show: the lookup names it in
    a round that the series list is long enough to reach, after rounds in
    which it names none. *)
Inductive series_found (env : Env) (tmdbId : Z) (series : SonarrSeries.t)
  : Prop :=
| SeriesFound allSeries round lookup :
    sonarr_getSeries env = Returned allSeries ->
    (round < List.length allSeries)%nat ->
    misses_before env tmdbId round ->
    sonarr_lookupSeriesByTmdbId env round tmdbId = Returned (Some lookup) ->
    SeriesLookup.tvdbId lookup <> 0 ->
    sonarr_getSeriesByTvdbId env (SeriesLookup.tvdbId lookup)
      = Returned (Some series) ->
    series_found env tmdbId series.

Inductive episode_found (env : Env) (tmdbId season episode : Z)
          (series : SonarrSeries.t) (ep : SonarrEpisode.t) : Prop :=
| EpisodeFound episodes :
    series_found env tmdbId series ->
    sonarr_getEpisodes env (SonarrSeries.id series) = Returned episodes ->
    JS.find (fun e => (SonarrEpisode.seasonNumber e =? season)
                      && (SonarrEpisode.episodeNumber e =? episode))
            episodes = Some ep ->
    episode_found env tmdbId season episode series ep.

(** The request resolves to a file path and a title. *)
Inductive resolves (env : Env) : Request -> string -> string -> Prop :=
| ResolvesMovie tmdbId m f :
    radarr_getMovieByTmdbId env tmdbId = Returned (Some m) ->
    RadarrMovie.hasFile m = true ->
    RadarrMovie.movieFile m = Some f ->
    MovieFile.path f <> "" ->
    resolves env (MovieRequest tmdbId) (MovieFile.path f) (RadarrMovie.title m)
| ResolvesEpisode tmdbId season episode series ep path :
    episode_found env tmdbId season episode series ep ->
    SonarrEpisode.hasFile ep = true ->
    SonarrEpisode.episodeFileId ep <> 0 ->
    fetch_episodefile env (SonarrEpisode.episodeFileId ep)
      = Response true (Some path) ->
    path <> "" ->
    resolves env (EpisodeRequest tmdbId season episode) path
             (episodeTitle series season episode ep).

(** The answer to the episode-file request carries no path. *)
Definition no_path (r : FetchOutcome) : Prop :=
  match r with
  | Response true (Some path) => path = ""
  | _ => True
  end.

(** The title of the request is in the library manager and has no file. *)
Inductive no_file (env : Env) : Request -> Prop :=
| NoFileMovie tmdbId m :
    radarr_getMovieByTmdbId env tmdbId = Returned (Some m) ->
    RadarrMovie.hasFile m = false
    \/ RadarrMovie.movieFile m = None
    \/ RadarrMovie.movieFile_path m = Some "" ->
    no_file env (MovieRequest tmdbId)
| NoFileEpisode tmdbId season episode series ep :
    episode_found env tmdbId season episode series ep ->
    SonarrEpisode.hasFile ep = false
    \/ SonarrEpisode.episodeFileId ep = 0
    \/ no_path (fetch_episodefile env (SonarrEpisode.episodeFileId ep)) ->
    no_file env (EpisodeRequest tmdbId season episode).

(** The numbers [a], [a + 1], ..., [a + n - 1]. *)
Fixpoint zseq (a : Z) (n : nat) : list Z :=
  match n with
  | O => []
  | S k => a :: zseq (a + 1) k
  end.

(** A character of a percent-encoded text: one that is left as it is, or
    the percent sign, or a digit of the two that follow it. *)
Definition url_safe (c : ascii) : bool :=
  JS.unreserved c || Ascii.eqb c "%" || JS.is_hex c.

Fixpoint all_chars (p : ascii -> bool) (s : string) : bool :=
  match s with
  | EmptyString => true
  | String c r => p c && all_chars p r
  end.

(** The endpoint a stream URL points at. *)
Definition stream_endpoint (needsTranscode : bool) : string :=
  if needsTranscode then "/api/media/transcode/" else "/api/media/stream/".

(** A list of numbers is the dense sequence 0, 1, 2, ... *)
Definition dense (l : list Z) : Prop := l = zseq 0 (List.length l).

(** The audio stream the specification wants selected, for a marking
    [marked] of the streams the source declares as default: the first marked
    audio stream if there is one, otherwise the first audio stream. *)
Definition spec_default_audio (marked : MediaStream.t -> bool)
           (mediaInfo : MediaInfo.t) : option MediaStream.t :=
  match JS.find (fun s => is_type CodecType.audio s && marked s)
                (MediaInfo.streams mediaInfo) with
  | Some s => Some s
  | None => JS.find (is_type CodecType.audio) (MediaInfo.streams mediaInfo)
  end.

(** The world [env] with the series list of the library manager replaced
    by [allSeries]. *)
Definition with_series (env : Env) (allSeries : list SonarrSeries.t) : Env :=
  mkEnv (radarr_getMovieByTmdbId env)
        (Returned allSeries)
        (sonarr_lookupSeriesByTmdbId env)
        (sonarr_getSeriesByTvdbId env)
        (sonarr_getEpisodes env)
        (fetch_episodefile env)
        (fs_existsSync env)
        (ffprobe env)
        (JSON_parse env)
        (duration_ms env)
        (parseInt env).

(** The container the extension of a path names: the extension without its
    dot, and [mkv] for a path without extension. *)
Definition extension_container (filePath : string) : string :=
  let ext := JS.slice1 (JS.extname filePath) in
  if String.eqb ext "" then "mkv" else ext.

(** A character of a file name that is neither a dot nor a slash. *)
Definition plain (c : ascii) : bool :=
  negb (Ascii.eqb c ".") && negb (Ascii.eqb c "/").

(** ** Concrete worlds

    The scenario of the specification: the movie with catalog id 550 is the
    file [/data/movies/Fight Club (1999)/Fight Club.mkv] with an h264
    1920x1080 video, an eac3 audio with six channels and two subtitles; the
    show with catalog id 1399 has one episode with a file and one without. *)

Module Scenario.

Definition stream (index : Z) (codec_name : string) (codec_type : CodecType.t)
           (width height channels : option Z) (language : option string)
  : MediaStream.t :=
  MediaStream.mk index codec_name codec_type None width height channels
                 None None None
                 (Some (Tags.mk language None None)).

Definition fight_club_path : string :=
  "/data/movies/Fight Club (1999)/Fight Club.mkv".

Definition fight_club_streams : list MediaStream.t :=
  [ stream 0 "h264" CodecType.video (Some 1920) (Some 1080) None None;
    stream 1 "eac3" CodecType.audio None None (Some 6) (Some "eng");
    stream 2 "subrip" CodecType.subtitle None None None (Some "eng");
    stream 3 "subrip" CodecType.subtitle None None None (Some "fre") ].

Definition format_of (path : string) : MediaFormat.t :=
  MediaFormat.mk path "matroska,webm" "Matroska / WebM" "8340.000000"
                 "4294967296" "4119000".

Definition fight_club_info : MediaInfo.t :=
  MediaInfo.mk (format_of fight_club_path) fight_club_streams.

Definition pilot_path : string := "/data/tv/Game of Thrones/S01E01.mp4".

(** An episode with two audio streams, the second one in English, and a
    gap in the stream indices. *)
Definition pilot_info : MediaInfo.t :=
  MediaInfo.mk (format_of pilot_path)
    [ stream 0 "hevc" CodecType.video (Some 1280) (Some 720) None None;
      stream 2 "AAC" CodecType.audio None None (Some 2) (Some "fre");
      stream 3 "ac3" CodecType.audio None None (Some 6) (Some "eng");
      stream 5 "ass" CodecType.subtitle None None None None ].

(** A file with a video stream and nothing else. *)
Definition silent_info : MediaInfo.t :=
  MediaInfo.mk (format_of "/data/movies/silent")
    [ stream 0 "h264" CodecType.video (Some 640) (Some 480) None None ].

(** A file with an audio stream and no video stream. *)
Definition audio_only_info : MediaInfo.t :=
  MediaInfo.mk (format_of fight_club_path)
    [ stream 0 "flac" CodecType.audio None None (Some 2) None ].

Definition fight_club : RadarrMovie.t :=
  RadarrMovie.mk "Fight Club" true (Some (MovieFile.mk fight_club_path)).

(** A movie that is in the library and not downloaded yet. *)
Definition wanted_movie : RadarrMovie.t :=
  RadarrMovie.mk "Dune" false None.

Definition thrones : SonarrSeries.t := SonarrSeries.mk 7 "Game of Thrones".

Definition thrones_episodes : list SonarrEpisode.t :=
  [ SonarrEpisode.mk 1 1 "Winter Is Coming" true 91;
    SonarrEpisode.mk 1 2 "The Kingsroad" false 0 ].

Definition movies (tmdbId : Z) : outcome (option RadarrMovie.t) :=
  if tmdbId =? 550 then Returned (Some fight_club)
  else if tmdbId =? 438631 then Returned (Some wanted_movie)
  else Returned None.

Definition lookup (round : nat) (tmdbId : Z)
  : outcome (option SeriesLookup.t) :=
  if tmdbId =? 1399 then Returned (Some (SeriesLookup.mk 121361))
  else Returned None.

(** A lookup that names no series when it is first asked, and answers as
    [lookup] from then on. *)
Definition lookup_late (round : nat) (tmdbId : Z)
  : outcome (option SeriesLookup.t) :=
  match round with
  | O => Returned None
  | S _ => lookup round tmdbId
  end.

(** A second series of the library. *)
Definition chernobyl : SonarrSeries.t := SonarrSeries.mk 8 "Chernobyl".

Definition by_tvdb (tvdbId : Z) : outcome (option SonarrSeries.t) :=
  if tvdbId =? 121361 then Returned (Some thrones) else Returned None.

Definition episodes_of (seriesId : Z) : outcome (list SonarrEpisode.t) :=
  if seriesId =? 7 then Returned thrones_episodes else Returned [].

Definition episodefile (episodeFileId : Z) : FetchOutcome :=
  if episodeFileId =? 91 then Response true (Some pilot_path)
  else Response false None.

(** The probe tool prints the path it was given; [parse] reads the media
    info of the two files back from it. *)
Definition parse (stdout : string) : Parsed :=
  if String.eqb stdout fight_club_path then well_shaped fight_club_info
  else if String.eqb stdout pilot_path then well_shaped pilot_info
  else if String.eqb stdout "/data/movies/silent" then well_shaped silent_info
  else SyntaxError.

Definition world_with (series : outcome (list SonarrSeries.t))
           (lookup : nat -> Z -> outcome (option SeriesLookup.t))
           (probe : string -> ProbeRun)
           (parse : string -> Parsed) : Env :=
  mkEnv movies series lookup by_tvdb episodes_of episodefile
        (fun _ => true) probe parse
        (fun _ => 8340000) (fun _ => Some 4294967296).

(** The world of the scenario. *)
Definition world : Env :=
  world_with (Returned [thrones]) lookup (fun p => Closed (Some 0) p) parse.

(** The probe tool exits with code 1. *)
Definition world_probe_exit : Env :=
  world_with (Returned [thrones]) lookup (fun p => Closed (Some 1) "") parse.

(** The movie file has no video stream. *)
Definition world_audio_only : Env :=
  world_with (Returned [thrones]) lookup (fun p => Closed (Some 0) p)
             (fun _ => well_shaped audio_only_info).

(** The cross-reference lookup finds nothing. *)
Definition world_no_lookup : Env :=
  world_with (Returned [thrones]) (fun _ _ => Returned None)
             (fun p => Closed (Some 0) p) parse.

(** The lookup names the series from its second answer on. *)
Definition world_late_lookup : Env :=
  world_with (Returned [thrones]) lookup_late (fun p => Closed (Some 0) p)
             parse.

(** [spawn] throws. *)
Definition world_spawn_throws : Env :=
  world_with (Returned [thrones]) lookup (fun _ => SpawnThrows) parse.

(** [spawn] gives a child without [stdout]. *)
Definition world_no_stdout : Env :=
  world_with (Returned [thrones]) lookup (fun _ => SpawnNoStdout) parse.

(** The probe tool ends well and prints the empty object. *)
Definition world_empty_object : Env :=
  world_with (Returned [thrones]) lookup (fun _ => Closed (Some 0) "{}")
             (fun _ => Value (ProbeOutput.mk None None)).

(** The library manager has no series. *)
Definition world_no_series : Env :=
  world_with (Returned []) lookup (fun p => Closed (Some 0) p) parse.

(** A marking of the streams by the source: the stream with index 3 is
    the default one. *)
Definition marked_default (s : MediaStream.t) : bool :=
  MediaStream.index s =? 3.

End Scenario.

(** ** The newer browser client, which knows the Jellyfin backend

    The playback info as the newer client's media service declares it: every
    member but [found] is optional. *)

Module PlaybackStrategy.
Inductive t := direct | remux | transcode.
End PlaybackStrategy.

Module StreamingBackend.
Inductive t := native | jellyfin.
End StreamingBackend.

Module PlaybackData.
Record t := mk {
  found : bool;
  title : option string;
  type : option ContentKind.t;
  filePath : option string;
  fileSize : option Z;
  duration : option Z;
  mediaInfo : option MediaSummary.t;
  needsTranscode : option bool;
  playbackStrategy : option PlaybackStrategy.t;
  streamUrl : option string;
  directStreamUrl : option string;
  hlsSupported : option bool;
  subtitles : option (list ClientSubtitleTrack.t);
  audioTracks : option (list AudioTrack.t);
  jellyfinItemId : option string;
  jellyfinMediaSourceId : option string;
  jellyfinPlaySessionId : option string;
  streamingBackend : option StreamingBackend.t
}.
End PlaybackData.

Section JellyfinAwareClient.

Variable API_BASE : string.
Variable token : option string.

(** [`${x}`] for a possibly-undefined string. *)
Definition template (x : option string) : string :=
  match x with
  | Some s => s
  | None => "undefined"
  end.

(** [if (url && url.startsWith('/')) url = `${API_BASE}${url}${authParam}`] *)
Definition prefixed (url : option string) : option string :=
  match url with
  | Some u =>
      if JS.truthy_str u && JS.startsWithSlash u
      then Some (API_BASE ++ u ++ authParam token)
      else Some u
  | None => None
  end.

(** The two [map]s over [response.data.subtitles] of the native branch. *)
Definition nativeSubtitle (filePath : option string)
           (sub : ClientSubtitleTrack.t) : ClientSubtitleTrack.t :=
  let url :=
    "/api/media/subtitle/"
      ++ JS.encodeURIComponent
           (JS.String_of (ClientSubtitleTrack.streamIndex sub)
              ++ ":" ++ template filePath) in
  ClientSubtitleTrack.mk
    (ClientSubtitleTrack.id sub)
    (ClientSubtitleTrack.streamIndex sub)
    (ClientSubtitleTrack.language sub)
    (ClientSubtitleTrack.languageCode sub)
    (ClientSubtitleTrack.displayTitle sub)
    (ClientSubtitleTrack.format sub)
    (Some (absolutize API_BASE token url)).

(** What the newer client's [getMoviePlayback] and [getEpisodePlayback] make
    of the server's answer [data]. *)
Definition clientPlaybackData (data : PlaybackData.t) : option PlaybackData.t :=
  if negb (PlaybackData.found data) then None
  else
    let isJellyfin :=
      match PlaybackData.streamingBackend data with
      | Some StreamingBackend.jellyfin => true
      | _ => false
      end in
    if negb isJellyfin then
      Some (PlaybackData.mk
              (PlaybackData.found data)
              (PlaybackData.title data)
              (PlaybackData.type data)
              (PlaybackData.filePath data)
              (PlaybackData.fileSize data)
              (PlaybackData.duration data)
              (PlaybackData.mediaInfo data)
              (PlaybackData.needsTranscode data)
              (PlaybackData.playbackStrategy data)
              (prefixed (PlaybackData.streamUrl data))
              (prefixed (PlaybackData.directStreamUrl data))
              (PlaybackData.hlsSupported data)
              (option_map (List.map (nativeSubtitle (PlaybackData.filePath data)))
                          (PlaybackData.subtitles data))
              (PlaybackData.audioTracks data)
              (PlaybackData.jellyfinItemId data)
              (PlaybackData.jellyfinMediaSourceId data)
              (PlaybackData.jellyfinPlaySessionId data)
              (PlaybackData.streamingBackend data))
    else Some data.

End JellyfinAwareClient.

(** The answer of the server of this development as the newer client reads
    it: the JSON of a [PlaybackInfo], which has no member for the backend. *)
Definition data_of_server (info : PlaybackInfo.t) : PlaybackData.t :=
  PlaybackData.mk
    (PlaybackInfo.found info)
    (Some (PlaybackInfo.title info))
    (Some (PlaybackInfo.type info))
    (Some (PlaybackInfo.filePath info))
    (Some (PlaybackInfo.fileSize info))
    (Some (PlaybackInfo.duration info))
    (Some (PlaybackInfo.mediaInfo info))
    (Some (PlaybackInfo.needsTranscode info))
    None
    (Some (PlaybackInfo.streamUrl info))
    None
    None
    (Some (List.map
             (fun sub =>
                ClientSubtitleTrack.mk
                  (SubtitleTrack.id sub) (SubtitleTrack.streamIndex sub)
                  (SubtitleTrack.language sub) (SubtitleTrack.languageCode sub)
                  (SubtitleTrack.displayTitle sub) (SubtitleTrack.format sub)
                  None)
             (PlaybackInfo.subtitles info)))
    (Some (PlaybackInfo.audioTracks info))
    None None None None.

(** What the older client returns, read as a value of the newer client. *)
Definition data_of_client (cinfo : ClientPlaybackInfo.t) : PlaybackData.t :=
  PlaybackData.mk
    (ClientPlaybackInfo.found cinfo)
    (Some (ClientPlaybackInfo.title cinfo))
    (Some (ClientPlaybackInfo.type cinfo))
    (Some (ClientPlaybackInfo.filePath cinfo))
    (Some (ClientPlaybackInfo.fileSize cinfo))
    (Some (ClientPlaybackInfo.duration cinfo))
    (Some (ClientPlaybackInfo.mediaInfo cinfo))
    (Some (ClientPlaybackInfo.needsTranscode cinfo))
    None
    (Some (ClientPlaybackInfo.streamUrl cinfo))
    None
    None
    (Some (ClientPlaybackInfo.subtitles cinfo))
    (Some (ClientPlaybackInfo.audioTracks cinfo))
    None None None None.

(** ** Reading a percent-encoded text back *)

Definition hex_value (c : ascii) : option nat :=
  if JS.is_digit c then Some (nat_of_ascii c - 48)%nat
  else if (65 <=? nat_of_ascii c)%nat && (nat_of_ascii c <=? 70)%nat
       then Some (nat_of_ascii c - 55)%nat
       else None.

(** The text of which [s] is the percent-encoding, if [s] is well formed. *)
Fixpoint percent_decode (s : string) : option string :=
  match s with
  | EmptyString => Some EmptyString
  | String c r =>
      if Ascii.eqb c "%" then
        match r with
        | String x (String y r') =>
            match hex_value x, hex_value y, percent_decode r' with
            | Some a, Some b, Some d =>
                Some (String (ascii_of_nat (16 * a + b)) d)
            | _, _, _ => None
            end
        | _ => None
        end
      else
        match percent_decode r with
        | Some d => Some (String c d)
        | None => None
        end
  end.

(** What every audio track carries. *)
Definition audio_labelled (t : AudioTrack.t) : Prop :=
  AudioTrack.language t <> ""
  /\ AudioTrack.languageCode t <> ""
  /\ AudioTrack.displayTitle t <> ""
  /\ AudioTrack.channels t <> 0
  /\ (AudioTrack.language t = AudioTrack.languageCode t
      \/ (AudioTrack.language t = "Unknown"
          /\ AudioTrack.languageCode t = "und")).

(** What every subtitle track carries. *)
Definition subtitle_labelled (t : SubtitleTrack.t) : Prop :=
  SubtitleTrack.language t <> ""
  /\ SubtitleTrack.languageCode t <> ""
  /\ SubtitleTrack.displayTitle t <> ""
  /\ (SubtitleTrack.language t = SubtitleTrack.languageCode t
      \/ (SubtitleTrack.language t = "Unknown"
          /\ SubtitleTrack.languageCode t = "und")).

(** The calls that spawn the probe tool. *)
Definition is_spawn (c : Call) : bool :=
  match c with
  | Spawn_ffprobe _ => true
  | _ => false
  end.

(** The content kind an entry point gives its playback infos. *)
Definition kind_of (req : Request) : ContentKind.t :=
  match req with
  | MovieRequest _ => ContentKind.movie
  | EpisodeRequest _ _ _ => ContentKind.episode
  end.

(** A call to the library manager that an episode request for the show
    reaches throws: the series list; or, in a round that the list is long
    enough to reach after rounds that name no series, the cross-reference
    lookup, or the series call for the [tvdbId] the lookup names; or the
    episode list of the series found. *)
Inductive sonarr_throws (env : Env) (tmdbId : Z) : Prop :=
| ThrowsGetSeries :
    sonarr_getSeries env = Thrown -> sonarr_throws env tmdbId
| ThrowsLookup allSeries round :
    sonarr_getSeries env = Returned allSeries ->
    (round < List.length allSeries)%nat ->
    misses_before env tmdbId round ->
    sonarr_lookupSeriesByTmdbId env round tmdbId = Thrown ->
    sonarr_throws env tmdbId
| ThrowsGetSeriesByTvdbId allSeries round lookup :
    sonarr_getSeries env = Returned allSeries ->
    (round < List.length allSeries)%nat ->
    misses_before env tmdbId round ->
    sonarr_lookupSeriesByTmdbId env round tmdbId = Returned (Some lookup) ->
    SeriesLookup.tvdbId lookup <> 0 ->
    sonarr_getSeriesByTvdbId env (SeriesLookup.tvdbId lookup) = Thrown ->
    sonarr_throws env tmdbId
| ThrowsGetEpisodes series :
    series_found env tmdbId series ->
    sonarr_getEpisodes env (SonarrSeries.id series) = Thrown ->
    sonarr_throws env tmdbId.

(** The characters of [path] at the positions from [a] up to [b] exist and
    are plain. *)
Definition plain_range (path : string) (a b : nat) : Prop :=
  forall j, (a <= j < b)%nat ->
            exists x, String.get j path = Some x /\ plain x = true.

(** What the scan of [path.extname] knows when the positions from [n] on
    have been read: nothing yet; or the end of the name, with plain
    characters only so far; or the end of the name and its last dot, with
    plain characters only after the dot. *)
Definition ext_inv (path : string) (n : nat) (st : JS.ExtScan) : Prop :=
  (JS.end_ st = -1 /\ JS.startDot st = -1)
  \/ (exists e,
         JS.end_ st = Z.of_nat e /\ JS.startDot st = -1
         /\ JS.matchedSlash st = false
         /\ (n <= e <= String.length path)%nat
         /\ plain_range path n e)
  \/ (exists d e,
         JS.end_ st = Z.of_nat e /\ JS.startDot st = Z.of_nat d
         /\ JS.matchedSlash st = false
         /\ (n <= d)%nat /\ (d < e <= String.length path)%nat
         /\ String.get d path = Some "."%char
         /\ plain_range path (S d) e).

(** * Properties *)

(** ** The primitives *)

Lemma includes_In (l : list string) (x : string) :
  JS.includes l x = true <-> In x l.
Proof.
  induction l as [|y r IH]; simpl.
  - split; [discriminate | tauto].
  - rewrite orb_true_iff, IH, String.eqb_eq. tauto.
Qed.

Lemma find_Some {A : Type} (p : A -> bool) (l : list A) (x : A) :
  JS.find p l = Some x -> In x l /\ p x = true.
Proof.
  induction l as [|y r IH]; simpl; [discriminate|].
  destruct (p y) eqn:Hy.
  - intros [= ->]. auto.
  - intros H. destruct (IH H). auto.
Qed.

Lemma find_None {A : Type} (p : A -> bool) (l : list A) :
  JS.find p l = None <-> (forall x, In x l -> p x = false).
Proof.
  induction l as [|y r IH]; simpl.
  - split; [intros _ x [] | reflexivity].
  - destruct (p y) eqn:Hy.
    + split; [discriminate|]. intros H. rewrite (H y) in Hy by auto. discriminate.
    + rewrite IH. split.
      * intros H x [<-|Hx]; auto.
      * intros H x Hx. auto.
Qed.

Lemma find_In {A : Type} (p : A -> bool) (l : list A) (x : A) :
  In x l -> p x = true -> exists y, JS.find p l = Some y.
Proof.
  intros Hin Hp. destruct (JS.find p l) as [y|] eqn:E; [eauto|].
  rewrite find_None in E. rewrite (E x Hin) in Hp. discriminate.
Qed.

Lemma find_filter {A : Type} (p : A -> bool) (l : list A) :
  JS.find p l = hd_error (JS.filter p l).
Proof.
  induction l as [|y r IH]; simpl; [reflexivity|].
  destruct (p y); [reflexivity | exact IH].
Qed.

Lemma filter_nil {A : Type} (p : A -> bool) (l : list A) :
  (forall x, In x l -> p x = false) -> JS.filter p l = [].
Proof.
  induction l as [|y r IH]; simpl; intros H; [reflexivity|].
  rewrite (H y) by auto. apply IH. auto.
Qed.

Lemma is_type_true (k : CodecType.t) (s : MediaStream.t) :
  is_type k s = true <-> MediaStream.codec_type s = k.
Proof.
  unfold is_type. destruct (MediaStream.codec_type s), k; simpl;
    split; congruence.
Qed.

Lemma is_type_false (k : CodecType.t) (s : MediaStream.t) :
  is_type k s = false <-> MediaStream.codec_type s <> k.
Proof.
  rewrite <- is_type_true. destruct (is_type k s); split; congruence.
Qed.

(** ** The monad *)

Lemma result_bind {A B : Type} (m : M A) (f : A -> M B) :
  result (bind m f)
  = match result m with
    | Returned a => result (f a)
    | Thrown => Thrown
    end.
Proof.
  destruct m as [[a|] t]; simpl; [|reflexivity].
  destruct (f a); reflexivity.
Qed.

Lemma calls_bind {A B : Type} (m : M A) (f : A -> M B) :
  calls (bind m f)
  = match result m with
    | Returned a => (calls m ++ calls (f a))%list
    | Thrown => calls m
    end.
Proof.
  destruct m as [[a|] t]; simpl; [|reflexivity].
  destruct (f a); reflexivity.
Qed.

Lemma Some_inj {A : Type} (a b : A) : Some a = Some b -> a = b.
Proof. congruence. Qed.

Lemma Returned_inj {A : Type} (a b : A) : Returned a = Returned b -> a = b.
Proof. congruence. Qed.

(** ** The prober *)

Lemma probeFile_failure (env : Env) (filePath : string) :
  probe_failure env filePath -> result (probeFile env filePath) = Returned None.
Proof.
  intros H. unfold probeFile.
  destruct (fs_existsSync env filePath) eqn:E; simpl; [|reflexivity].
  destruct H as [H | H | code stdout H Hc | stdout H Hp | stdout H Hp].
  - congruence.
  - rewrite H. reflexivity.
  - rewrite H. destruct code as [[| |]|]; try reflexivity. congruence.
  - rewrite H. simpl. rewrite Hp. reflexivity.
  - rewrite H. simpl. rewrite Hp. reflexivity.
Qed.

Lemma probeFile_value (env : Env) (filePath stdout : string)
      (info : ProbeOutput.t) :
  fs_existsSync env filePath = true ->
  ffprobe env filePath = Closed (Some 0) stdout ->
  JSON_parse env stdout = Value info ->
  result (probeFile env filePath) = Returned (Some info).
Proof.
  intros E H Hp. unfold probeFile.
  rewrite E, H. simpl. rewrite Hp. reflexivity.
Qed.

Lemma probeFile_probed (env : Env) (filePath : string) (mediaInfo : MediaInfo.t) :
  probed env filePath mediaInfo ->
  result (probeFile env filePath)
  = Returned (Some (ProbeOutput.mk (Some (MediaInfo.streams mediaInfo))
                                   (Some (MediaInfo.format mediaInfo)))).
Proof.
  intros [E [stdout [H Hp]]]. exact (probeFile_value _ _ _ _ E H Hp).
Qed.

(** The two failures to spawn that the prober does not handle reject its
    promise. *)
Lemma probeFile_throws (env : Env) (filePath : string) :
  spawn_throws env filePath -> result (probeFile env filePath) = Thrown.
Proof.
  intros [E H | E H]; unfold probeFile; rewrite E, H; reflexivity.
Qed.

(** How the prober ends: with [null] in one of the ways it handles, with an
    exception where the spawning throws, or with the parsed value. *)
Lemma probeFile_cases (env : Env) (filePath : string) :
  (probe_failure env filePath
   /\ result (probeFile env filePath) = Returned None)
  \/ (spawn_throws env filePath
      /\ result (probeFile env filePath) = Thrown)
  \/ (exists stdout info,
        fs_existsSync env filePath = true
        /\ ffprobe env filePath = Closed (Some 0) stdout
        /\ JSON_parse env stdout = Value info
        /\ result (probeFile env filePath) = Returned (Some info)).
Proof.
  destruct (fs_existsSync env filePath) eqn:E.
  - destruct (ffprobe env filePath) as [| | |code stdout] eqn:H.
    + right. left. split; [|apply probeFile_throws]; apply ST_throws;
        assumption.
    + right. left. split; [|apply probeFile_throws]; apply ST_no_stdout;
        assumption.
    + left. split; [|apply probeFile_failure]; apply PF_spawn_error; exact H.
    + assert (D : code = Some 0 \/ code <> Some 0).
      { destruct code as [[| |]|]; auto; right; congruence. }
      destruct D as [-> | D].
      * destruct (JSON_parse env stdout) as [| |info] eqn:Hp.
        -- left. split; [|apply probeFile_failure];
             apply (PF_unparseable _ _ stdout); assumption.
        -- left. split; [|apply probeFile_failure];
             apply (PF_null _ _ stdout); assumption.
        -- right. right. exists stdout, info.
           repeat split; try assumption.
           exact (probeFile_value _ _ _ _ E H Hp).
      * left. split; [|apply probeFile_failure];
          apply (PF_exit_code _ _ code stdout); assumption.
  - left. split; [|apply probeFile_failure]; apply PF_not_found; exact E.
Qed.

Lemma buildPlaybackInfo_result (env : Env) (filePath title : string)
      (type : ContentKind.t) :
  result (buildPlaybackInfo env filePath title type)
  = match result (probeFile env filePath) with
    | Returned (Some mediaInfo) =>
        match ProbeOutput.streams mediaInfo with
        | None => Thrown
        | Some streams =>
            match JS.find (is_type CodecType.video) streams with
            | None => Returned None
            | Some _ =>
                match ProbeOutput.format mediaInfo with
                | None => Thrown
                | Some format =>
                    Returned (playbackOf env filePath title type
                                         (MediaInfo.mk format streams))
                end
            end
        end
    | Returned None => Returned None
    | Thrown => Thrown
    end.
Proof.
  unfold buildPlaybackInfo. rewrite result_bind.
  destruct (result (probeFile env filePath)) as [[[[streams|] [format|]]|]|];
    cbn [ProbeOutput.streams ProbeOutput.format]; try reflexivity;
    destruct (JS.find (is_type CodecType.video) streams); reflexivity.
Qed.

Lemma buildPlaybackInfo_probed (env : Env) (filePath title : string)
      (type : ContentKind.t) (mediaInfo : MediaInfo.t) :
  probed env filePath mediaInfo ->
  result (buildPlaybackInfo env filePath title type)
  = Returned (playbackOf env filePath title type mediaInfo).
Proof.
  intros P. rewrite buildPlaybackInfo_result, (probeFile_probed _ _ _ P).
  cbn [ProbeOutput.streams ProbeOutput.format].
  destruct (JS.find (is_type CodecType.video) (MediaInfo.streams mediaInfo))
    eqn:E.
  - destruct mediaInfo; reflexivity.
  - unfold playbackOf. rewrite E. reflexivity.
Qed.

(** A playback info comes from a probe output of the interface
    [MediaInfo]. *)
Lemma buildPlaybackInfo_Some_inv (env : Env) (filePath title : string)
      (type : ContentKind.t) (info : PlaybackInfo.t) :
  result (buildPlaybackInfo env filePath title type) = Returned (Some info) ->
  exists mediaInfo,
    probed env filePath mediaInfo
    /\ playbackOf env filePath title type mediaInfo = Some info.
Proof.
  rewrite buildPlaybackInfo_result.
  destruct (probeFile_cases env filePath)
    as [[_ R] | [[_ R] | [stdout [[streams format] [E [H [Hp R]]]]]]];
    rewrite R; try discriminate.
  cbn [ProbeOutput.streams ProbeOutput.format].
  destruct streams as [streams|]; [|discriminate].
  destruct (JS.find (is_type CodecType.video) streams); [|discriminate].
  destruct format as [format|]; [|discriminate].
  intros B. apply Returned_inj in B.
  exists (MediaInfo.mk format streams). split; [|exact B].
  split; [exact E|]. exists stdout. split; [exact H | exact Hp].
Qed.

(** The builder throws exactly where the spawning throws or the probe
    output is ill-shaped. *)
Lemma buildPlaybackInfo_Thrown (env : Env) (filePath title : string)
      (type : ContentKind.t) :
  result (buildPlaybackInfo env filePath title type) = Thrown
  <-> spawn_throws env filePath \/ ill_shaped env filePath.
Proof.
  rewrite buildPlaybackInfo_result. split.
  - destruct (probeFile_cases env filePath)
      as [[_ R] | [[T R] | [stdout [[streams format] [E [H [Hp R]]]]]]];
      rewrite R; try discriminate; [auto|].
    cbn [ProbeOutput.streams ProbeOutput.format].
    destruct streams as [streams|].
    + destruct (JS.find (is_type CodecType.video) streams) as [v|] eqn:V;
        [|discriminate].
      destruct format as [format|]; [discriminate|].
      intros _. right. exact (IS_no_format _ _ stdout streams v E H Hp V).
    + intros _. right. exact (IS_no_streams _ _ stdout format E H Hp).
  - intros [T | [stdout format E H Hp | stdout streams v E H Hp V]].
    + rewrite (probeFile_throws _ _ T). reflexivity.
    + rewrite (probeFile_value _ _ _ _ E H Hp). reflexivity.
    + rewrite (probeFile_value _ _ _ _ E H Hp).
      cbn [ProbeOutput.streams ProbeOutput.format]. rewrite V. reflexivity.
Qed.


(** ** The builder *)

(** A probed file with a video stream always gets a playback info. *)
Lemma buildPlaybackInfo_total (env : Env) (filePath title : string)
      (type : ContentKind.t) (mediaInfo : MediaInfo.t) :
  probed env filePath mediaInfo ->
  has_stream CodecType.video mediaInfo ->
  exists info,
    result (buildPlaybackInfo env filePath title type) = Returned (Some info).
Proof.
  intros P [v [Hin Hk]]. rewrite (buildPlaybackInfo_probed _ _ _ _ _ P).
  destruct (find_In (is_type CodecType.video) _ v Hin) as [videoStream Hv].
  { apply is_type_true. exact Hk. }
  unfold playbackOf. rewrite Hv. eexists. reflexivity.
Qed.

(** Opens a hypothesis [playbackOf ... = Some info]: the file has a video
    stream, and [info] is the record the builder returns. *)
Ltac open_playback H :=
  unfold playbackOf in H;
  match type of H with
  | context [JS.find (is_type CodecType.video) ?l] =>
      let v := fresh "videoStream" in
      let E := fresh "Hvideo" in
      destruct (JS.find (is_type CodecType.video) l) as [v|] eqn:E;
      [ cbv zeta in H; apply Some_inj in H; subst | discriminate H ]
  end.

Lemma allow_list_lowercase (c : string) :
  In c BROWSER_COMPATIBLE_AUDIO -> JS.toLowerCase c = c.
Proof.
  unfold BROWSER_COMPATIBLE_AUDIO. simpl.
  intros H. repeat (destruct H as [<- | H]; [reflexivity|]). destruct H.
Qed.

(** The test [BROWSER_COMPATIBLE_AUDIO.includes(audioCodec.toLowerCase())]
    on [audioStream?.codec_name || 'unknown']. *)
Lemma compatible_test (audioStream : option MediaStream.t) :
  JS.includes BROWSER_COMPATIBLE_AUDIO
    (JS.toLowerCase
       (JS.str_or (option_map MediaStream.codec_name audioStream) "unknown"))
  = true
  <-> exists s c,
        audioStream = Some s
        /\ In c BROWSER_COMPATIBLE_AUDIO
        /\ eq_nocase (MediaStream.codec_name s) c.
Proof.
  rewrite includes_In. split.
  - destruct audioStream as [s|]; simpl.
    + destruct (String.eqb (MediaStream.codec_name s) "") eqn:E.
      * simpl. intros H. exfalso.
        repeat (destruct H as [H | H]; [discriminate H|]). destruct H.
      * intros H. exists s, (JS.toLowerCase (MediaStream.codec_name s)).
        repeat split; [exact H|].
        unfold eq_nocase. symmetry. apply allow_list_lowercase. exact H.
    + intros H. exfalso.
      repeat (destruct H as [H | H]; [discriminate H|]). destruct H.
  - intros [s [c [-> [Hc He]]]]. simpl. unfold eq_nocase in He.
    rewrite (allow_list_lowercase c Hc) in He.
    destruct (String.eqb (MediaStream.codec_name s) "") eqn:E.
    + apply String.eqb_eq in E. rewrite E in He. simpl in He. subst c.
      exfalso. simpl in Hc.
      repeat (destruct Hc as [Hc | Hc]; [discriminate Hc|]). destruct Hc.
    + rewrite He. exact Hc.
Qed.


(** C1. For every file whose probe succeeds and for which a playback info is
    built, the strategy is direct ([needsTranscode = false], and the stream
    URL points at the stream endpoint) exactly when the codec of the first
    audio stream is, up to the case of its letters, in the allow-list
    [BROWSER_COMPATIBLE_AUDIO]; in every other case it is transcode
    ([needsTranscode = true], the transcode endpoint). *)
Theorem C1_direct_iff_compatible_audio
        (env : Env) (filePath title : string) (type : ContentKind.t)
        (mediaInfo : MediaInfo.t) (info : PlaybackInfo.t) :
  probed env filePath mediaInfo ->
  result (buildPlaybackInfo env filePath title type) = Returned (Some info) ->
  (PlaybackInfo.needsTranscode info = false
   <-> primary_audio_compatible mediaInfo)
  /\ (PlaybackInfo.needsTranscode info = true
      <-> ~ primary_audio_compatible mediaInfo)
  /\ PlaybackInfo.streamUrl info
     = stream_endpoint (PlaybackInfo.needsTranscode info)
         ++ JS.encodeURIComponent filePath.
Proof.
  intros P H. rewrite (buildPlaybackInfo_probed _ _ _ _ _ P) in H.
  apply Returned_inj in H. open_playback H.
  cbn [PlaybackInfo.needsTranscode PlaybackInfo.streamUrl].
  assert (T := compatible_test
                 (JS.find (is_type CodecType.audio) (MediaInfo.streams mediaInfo))).
  fold (primary_audio_compatible mediaInfo) in T.
  destruct (JS.includes _ _) eqn:I; cbn [negb stream_endpoint].
  - split; [|split]; [ | |reflexivity].
    + split; [intros _; apply T|]; reflexivity.
    + split; [discriminate|]. intros N. exfalso. apply N, T. reflexivity.
  - split; [|split]; [ | |reflexivity].
    + split; [discriminate|]. intros C. apply T in C. discriminate.
    + split; [|reflexivity]. intros _ C. apply T in C. discriminate.
Qed.

(** The episode of the scenario: the codec ["AAC"] of its first audio stream
    is in the allow-list up to case, and the strategy is direct. *)
Lemma C1_witness :
  probed Scenario.world Scenario.pilot_path Scenario.pilot_info
  /\ exists info,
       result (buildPlaybackInfo Scenario.world Scenario.pilot_path
                                 "Pilot" ContentKind.episode)
       = Returned (Some info)
       /\ PlaybackInfo.needsTranscode info = false
       /\ primary_audio_compatible Scenario.pilot_info.
Proof.
  assert (P : probed Scenario.world Scenario.pilot_path Scenario.pilot_info).
  { split; [reflexivity|]. exists Scenario.pilot_path. split; reflexivity. }
  split; [exact P|].
  eexists. split; [reflexivity|]. split; [reflexivity|].
  eapply (C1_direct_iff_compatible_audio
            Scenario.world Scenario.pilot_path "Pilot" ContentKind.episode
            Scenario.pilot_info _ P).
  - reflexivity.
  - reflexivity.
Defined.

(** ** Track lists *)

Lemma length_zseq (a : Z) (n : nat) : List.length (zseq a n) = n.
Proof.
  revert a. induction n as [|n IH]; intros a; simpl; [|rewrite IH]; reflexivity.
Qed.

Lemma audio_tracks_from (l : list MediaStream.t) (i a : Z) :
  let tracks := fst (JS.map_from audioTrackOf i a l) in
  map AudioTrack.streamIndex tracks = zseq a (List.length l)
  /\ map AudioTrack.id tracks = map MediaStream.index l
  /\ (0 < i -> forall t, In t tracks -> AudioTrack.selected t = false).
Proof.
  revert i a. induction l as [|s r IH]; intros i a; simpl.
  - repeat split. intros _ t [].
  - specialize (IH (i + 1) (a + 1)).
    destruct (JS.map_from audioTrackOf (i + 1) (a + 1) r) as [ys st] eqn:E.
    simpl in *. destruct IH as [IH1 [IH2 IH3]].
    repeat split.
    + f_equal. exact IH1.
    + f_equal. exact IH2.
    + intros Hi t [<- | Ht].
      * simpl. apply Z.eqb_neq. lia.
      * apply IH3; [lia | exact Ht].
Qed.

Lemma subtitles_from (l : list MediaStream.t) (i a : Z) :
  let tracks := fst (JS.map_from subtitleOf i a l) in
  map SubtitleTrack.streamIndex tracks = zseq a (List.length l)
  /\ map SubtitleTrack.id tracks = map MediaStream.index l.
Proof.
  revert i a. induction l as [|s r IH]; intros i a; simpl.
  - split; reflexivity.
  - specialize (IH (i + 1) (a + 1)).
    destruct (JS.map_from subtitleOf (i + 1) (a + 1) r) as [ys st] eqn:E.
    simpl in *. destruct IH as [IH1 IH2].
    split; f_equal; assumption.
Qed.

Lemma audio_tracks_head (s : MediaStream.t) (r : list MediaStream.t) :
  exists t rest,
    fst (JS.map_st audioTrackOf 0 (s :: r)) = t :: rest
    /\ AudioTrack.selected t = true
    /\ AudioTrack.id t = MediaStream.index s
    /\ (forall u, In u rest -> AudioTrack.selected u = false).
Proof.
  unfold JS.map_st. simpl.
  pose proof (audio_tracks_from r 1 1) as F.
  destruct (JS.map_from audioTrackOf 1 1 r) as [ys st] eqn:E.
  simpl in *. eexists _, ys. repeat split.
  destruct F as [_ [_ F]]. apply F. lia.
Qed.

Lemma filter_all_false {A : Type} (p : A -> bool) (l : list A) :
  (forall x, In x l -> p x = false) -> List.filter p l = [].
Proof.
  induction l as [|y r IH]; simpl; intros H; [reflexivity|].
  rewrite (H y) by auto. apply IH. auto.
Qed.

(** C2, as the code has it.  For every probed file for which a playback info
    is built, it is the [streamIndex] values of the audio tracks, and of the
    subtitle tracks, that form the dense sequence 0, 1, 2, ... in the order
    of the streams, whatever the stream indices of the container are; the
    [id] of each track carries the container's index of its stream. *)
Theorem C2_streamIndex_dense_id_container
        (env : Env) (filePath title : string) (type : ContentKind.t)
        (mediaInfo : MediaInfo.t) (info : PlaybackInfo.t) :
  probed env filePath mediaInfo ->
  result (buildPlaybackInfo env filePath title type) = Returned (Some info) ->
  let audioStreams :=
    JS.filter (is_type CodecType.audio) (MediaInfo.streams mediaInfo) in
  let subtitleStreams :=
    JS.filter (is_type CodecType.subtitle) (MediaInfo.streams mediaInfo) in
  dense (map AudioTrack.streamIndex (PlaybackInfo.audioTracks info))
  /\ map AudioTrack.id (PlaybackInfo.audioTracks info)
     = map MediaStream.index audioStreams
  /\ dense (map SubtitleTrack.streamIndex (PlaybackInfo.subtitles info))
  /\ map SubtitleTrack.id (PlaybackInfo.subtitles info)
     = map MediaStream.index subtitleStreams.
Proof.
  intros P H. rewrite (buildPlaybackInfo_probed _ _ _ _ _ P) in H.
  apply Returned_inj in H. open_playback H.
  cbn [PlaybackInfo.audioTracks PlaybackInfo.subtitles]. unfold JS.map_st, dense.
  pose proof (audio_tracks_from
                (JS.filter (is_type CodecType.audio) (MediaInfo.streams mediaInfo))
                0 0) as [A1 [A2 _]].
  pose proof (subtitles_from
                (JS.filter (is_type CodecType.subtitle) (MediaInfo.streams mediaInfo))
                0 0) as [S1 S2].
  cbv zeta. rewrite A1, A2, S1, S2, !length_zseq.
  repeat split; reflexivity.
Qed.

(** The episode of the scenario, whose audio streams have the container
    indices 2 and 3 and whose subtitle stream has the index 5. *)
Lemma C2_witness :
  probed Scenario.world Scenario.pilot_path Scenario.pilot_info
  /\ exists info,
       result (buildPlaybackInfo Scenario.world Scenario.pilot_path
                                 "Pilot" ContentKind.episode)
       = Returned (Some info)
       /\ dense (map AudioTrack.streamIndex (PlaybackInfo.audioTracks info))
       /\ map AudioTrack.id (PlaybackInfo.audioTracks info) = [2; 3].
Proof.
  assert (P : probed Scenario.world Scenario.pilot_path Scenario.pilot_info).
  { split; [reflexivity|]. exists Scenario.pilot_path. split; reflexivity. }
  split; [exact P|].
  eexists. split; [reflexivity|].
  pose proof (C2_streamIndex_dense_id_container
                Scenario.world Scenario.pilot_path "Pilot" ContentKind.episode
                Scenario.pilot_info _ P eq_refl) as [D [I _]].
  split; [exact D | exact I].
Defined.

(** C2 as the specification states it fails: in the movie of the scenario
    the [id] values of the subtitle tracks are 2 and 3 and the [id] of the
    audio track is 1, not dense sequences from 0, and the [streamIndex]
    values 0 and 1 of the subtitle tracks are not the container's indices. *)
Lemma C2_counterexample :
  exists info,
    result (getMoviePlayback Scenario.world 550) = Returned (Some info)
    /\ map SubtitleTrack.id (PlaybackInfo.subtitles info) = [2; 3]
    /\ ~ dense (map SubtitleTrack.id (PlaybackInfo.subtitles info))
    /\ ~ dense (map AudioTrack.id (PlaybackInfo.audioTracks info))
    /\ map SubtitleTrack.streamIndex (PlaybackInfo.subtitles info)
       <> map MediaStream.index
              (JS.filter (is_type CodecType.subtitle) Scenario.fight_club_streams).
Proof.
  eexists. split; [reflexivity|].
  repeat split; unfold dense; simpl; discriminate.
Qed.

(** ** The selected audio track *)

Lemma has_audio_first (mediaInfo : MediaInfo.t) :
  has_stream CodecType.audio mediaInfo ->
  exists s r,
    JS.filter (is_type CodecType.audio) (MediaInfo.streams mediaInfo) = s :: r
    /\ JS.find (is_type CodecType.audio) (MediaInfo.streams mediaInfo) = Some s.
Proof.
  intros [x [Hin Hk]].
  destruct (find_In (is_type CodecType.audio) _ x Hin) as [s Hs].
  { apply is_type_true. exact Hk. }
  pose proof Hs as Hf. rewrite find_filter in Hf.
  destruct (JS.filter _ _) as [|s' r]; [discriminate|].
  injection Hf as ->. eauto.
Qed.

(** C3, as the code has it.  Whenever a probed file has at least one audio
    stream, exactly one audio track of the playback info has
    [selected = true], and it is the first one, the track of the first audio
    stream of the file.  No marking of a default stream by the source is
    read. *)
Theorem C3_first_audio_track_selected
        (env : Env) (filePath title : string) (type : ContentKind.t)
        (mediaInfo : MediaInfo.t) (info : PlaybackInfo.t) :
  probed env filePath mediaInfo ->
  result (buildPlaybackInfo env filePath title type) = Returned (Some info) ->
  has_stream CodecType.audio mediaInfo ->
  exists first t rest,
    JS.find (is_type CodecType.audio) (MediaInfo.streams mediaInfo) = Some first
    /\ PlaybackInfo.audioTracks info = t :: rest
    /\ AudioTrack.selected t = true
    /\ AudioTrack.id t = MediaStream.index first
    /\ (forall u, In u rest -> AudioTrack.selected u = false)
    /\ List.filter AudioTrack.selected (PlaybackInfo.audioTracks info) = [t].
Proof.
  intros P H A. rewrite (buildPlaybackInfo_probed _ _ _ _ _ P) in H.
  apply Returned_inj in H. open_playback H.
  cbn [PlaybackInfo.audioTracks].
  destruct (has_audio_first _ A) as [s [r [Hf Hs]]].
  cbv zeta. rewrite Hf.
  destruct (audio_tracks_head s r) as [t [rest [Ht [Hsel [Hid Hrest]]]]].
  exists s, t, rest. rewrite Ht.
  repeat split; try assumption.
  simpl. rewrite Hsel. f_equal. apply filter_all_false. exact Hrest.
Qed.

(** The episode of the scenario has two audio streams; the track of the
    first one, with the container index 2, is the selected one. *)
Lemma C3_witness :
  probed Scenario.world Scenario.pilot_path Scenario.pilot_info
  /\ has_stream CodecType.audio Scenario.pilot_info
  /\ exists info t,
       result (buildPlaybackInfo Scenario.world Scenario.pilot_path
                                 "Pilot" ContentKind.episode)
       = Returned (Some info)
       /\ List.filter AudioTrack.selected (PlaybackInfo.audioTracks info) = [t]
       /\ AudioTrack.id t = 2.
Proof.
  assert (P : probed Scenario.world Scenario.pilot_path Scenario.pilot_info).
  { split; [reflexivity|]. exists Scenario.pilot_path. split; reflexivity. }
  assert (A : has_stream CodecType.audio Scenario.pilot_info).
  { eexists. split; [right; left; reflexivity | reflexivity]. }
  split; [exact P|]. split; [exact A|].
  destruct (C3_first_audio_track_selected
              Scenario.world Scenario.pilot_path "Pilot" ContentKind.episode
              Scenario.pilot_info _ P eq_refl A)
    as [first [t [rest [Hf [_ [_ [Hid [_ Hsel]]]]]]]].
  eexists _, t. split; [reflexivity|]. split; [exact Hsel|].
  rewrite Hid. injection Hf as <-. reflexivity.
Defined.

(** C3 as the specification states it fails: it is not so that, for every
    marking of default streams by the source, the track of the audio stream
    that [spec_default_audio] names (the track at the position of that
    stream among the audio streams) is a selected one.  In the episode of
    the scenario, with the second audio stream (container index 3) marked as
    the default, the track of that stream has [selected = false]. *)
Lemma C3_counterexample :
  ~ (forall (marked : MediaStream.t -> bool) (env : Env)
            (filePath title : string) (type : ContentKind.t)
            (mediaInfo : MediaInfo.t) (info : PlaybackInfo.t)
            (s : MediaStream.t) (k : nat),
        probed env filePath mediaInfo ->
        result (buildPlaybackInfo env filePath title type)
        = Returned (Some info) ->
        spec_default_audio marked mediaInfo = Some s ->
        nth_error (JS.filter (is_type CodecType.audio)
                             (MediaInfo.streams mediaInfo)) k = Some s ->
        exists t,
          nth_error (PlaybackInfo.audioTracks info) k = Some t
          /\ AudioTrack.selected t = true).
Proof.
  intros C.
  assert (P : probed Scenario.world Scenario.pilot_path Scenario.pilot_info).
  { split; [reflexivity|]. exists Scenario.pilot_path. split; reflexivity. }
  destruct (C Scenario.marked_default Scenario.world Scenario.pilot_path
              "Pilot" ContentKind.episode Scenario.pilot_info
              _ _ 1%nat P eq_refl eq_refl eq_refl) as [t [Ht Hsel]].
  simpl in Ht. injection Ht as <-. discriminate Hsel.
Qed.

(** ** The resolver *)

Lemma truthy_str_true (s : string) : s <> "" -> JS.truthy_str s = true.
Proof.
  intros H. unfold JS.truthy_str. destruct (String.eqb s "") eqn:E;
    [apply String.eqb_eq in E; contradiction | reflexivity].
Qed.


Lemma truthy_num_true (n : Z) : n <> 0 -> JS.truthy_num n = true.
Proof.
  intros H. unfold JS.truthy_num. apply Z.eqb_neq in H. rewrite H. reflexivity.
Qed.

Lemma result_call {A : Type} (c : Call) (r : outcome A) : result (call c r) = r.
Proof. reflexivity. Qed.

(** *** The loop over the series *)

(** A lookup names no series, or names one, or throws. *)
Lemma lookup_outcome (r : outcome (option SeriesLookup.t)) :
  lookup_misses r
  \/ (exists lookup, r = Returned (Some lookup) /\ SeriesLookup.tvdbId lookup <> 0)
  \/ r = Thrown.
Proof.
  destruct r as [[lookup|]|].
  - destruct (Z.eq_dec (SeriesLookup.tvdbId lookup) 0) as [T | T].
    + left. right. exists lookup. split; [reflexivity | exact T].
    + right. left. exists lookup. split; [reflexivity | exact T].
  - left. left. reflexivity.
  - right. right. reflexivity.
Qed.

(** One round of the loop: a lookup that names no series goes on with the
    next round. *)
Lemma findSeries_from_next (env : Env) (round : nat) (tmdbId : Z)
      (s : SonarrSeries.t) (rest : list SonarrSeries.t) :
  lookup_misses (sonarr_lookupSeriesByTmdbId env round tmdbId) ->
  findSeries_from env round tmdbId (s :: rest)
  = (result (findSeries_from env (S round) tmdbId rest),
     Sonarr_lookupSeriesByTmdbId tmdbId
       :: calls (findSeries_from env (S round) tmdbId rest)).
Proof.
  intros [L | [lookup [L T]]]; cbn [findSeries_from]; rewrite L;
    unfold bind, call.
  - destruct (findSeries_from env (S round) tmdbId rest); reflexivity.
  - unfold JS.truthy_num. rewrite T. cbn [Z.eqb negb].
    destruct (findSeries_from env (S round) tmdbId rest); reflexivity.
Qed.

(** One round of the loop: a lookup that names a series ends the loop with
    the series call. *)
Lemma findSeries_from_break (env : Env) (round : nat) (tmdbId : Z)
      (s : SonarrSeries.t) (rest : list SonarrSeries.t)
      (lookup : SeriesLookup.t) :
  sonarr_lookupSeriesByTmdbId env round tmdbId = Returned (Some lookup) ->
  SeriesLookup.tvdbId lookup <> 0 ->
  findSeries_from env round tmdbId (s :: rest)
  = (sonarr_getSeriesByTvdbId env (SeriesLookup.tvdbId lookup),
     [Sonarr_lookupSeriesByTmdbId tmdbId;
      Sonarr_getSeriesByTvdbId (SeriesLookup.tvdbId lookup)]).
Proof.
  intros L T. cbn [findSeries_from]. rewrite L. unfold bind, call.
  rewrite (truthy_num_true _ T). reflexivity.
Qed.

Lemma findSeries_from_raise (env : Env) (round : nat) (tmdbId : Z)
      (s : SonarrSeries.t) (rest : list SonarrSeries.t) :
  sonarr_lookupSeriesByTmdbId env round tmdbId = Thrown ->
  findSeries_from env round tmdbId (s :: rest)
  = (Thrown, [Sonarr_lookupSeriesByTmdbId tmdbId]).
Proof.
  intros L. cbn [findSeries_from]. rewrite L. reflexivity.
Qed.

(** Lookups that name no series in any round leave [series] at [null],
    after one lookup for every series of the list. *)
Lemma findSeries_from_miss (env : Env) (tmdbId : Z)
      (allSeries : list SonarrSeries.t) :
  forall round,
    (forall k, (k < List.length allSeries)%nat ->
               lookup_misses (sonarr_lookupSeriesByTmdbId env (round + k) tmdbId)) ->
    findSeries_from env round tmdbId allSeries
    = (Returned None,
       repeat (Sonarr_lookupSeriesByTmdbId tmdbId) (List.length allSeries)).
Proof.
  induction allSeries as [|s rest IH]; intros round H; [reflexivity|].
  rewrite findSeries_from_next.
  - rewrite IH; [reflexivity|]. intros k Hk.
    replace (S round + k)%nat with (round + S k)%nat by lia.
    apply H. simpl. lia.
  - replace round with (round + 0)%nat by lia. apply H. simpl. lia.
Qed.

(** The loop ends in the first round whose lookup names a series or
    throws, after one lookup for every round up to it. *)
Lemma findSeries_from_hit (env : Env) (tmdbId : Z) (lookup : SeriesLookup.t) :
  forall (k : nat) (allSeries : list SonarrSeries.t) (round : nat),
    (k < List.length allSeries)%nat ->
    (forall j, (j < k)%nat ->
               lookup_misses (sonarr_lookupSeriesByTmdbId env (round + j) tmdbId)) ->
    sonarr_lookupSeriesByTmdbId env (round + k) tmdbId
    = Returned (Some lookup) ->
    SeriesLookup.tvdbId lookup <> 0 ->
    findSeries_from env round tmdbId allSeries
    = (sonarr_getSeriesByTvdbId env (SeriesLookup.tvdbId lookup),
       (repeat (Sonarr_lookupSeriesByTmdbId tmdbId) (S k)
          ++ [Sonarr_getSeriesByTvdbId (SeriesLookup.tvdbId lookup)])%list).
Proof.
  induction k as [|k IH]; intros [|s rest] round Hk Hm L T;
    try (simpl in Hk; lia).
  - rewrite Nat.add_0_r in L.
    rewrite (findSeries_from_break _ _ _ _ _ _ L T). reflexivity.
  - rewrite findSeries_from_next.
    + rewrite (IH rest (S round)); [reflexivity | simpl in Hk; lia | |
                                    | exact T].
      * intros j Hj. replace (S round + j)%nat with (round + S j)%nat by lia.
        apply Hm. lia.
      * replace (S round + k)%nat with (round + S k)%nat by lia. exact L.
    + replace round with (round + 0)%nat by lia. apply Hm. lia.
Qed.

Lemma findSeries_from_throw (env : Env) (tmdbId : Z) :
  forall (k : nat) (allSeries : list SonarrSeries.t) (round : nat),
    (k < List.length allSeries)%nat ->
    (forall j, (j < k)%nat ->
               lookup_misses (sonarr_lookupSeriesByTmdbId env (round + j) tmdbId)) ->
    sonarr_lookupSeriesByTmdbId env (round + k) tmdbId = Thrown ->
    findSeries_from env round tmdbId allSeries
    = (Thrown, repeat (Sonarr_lookupSeriesByTmdbId tmdbId) (S k)).
Proof.
  induction k as [|k IH]; intros [|s rest] round Hk Hm L;
    try (simpl in Hk; lia).
  - rewrite Nat.add_0_r in L.
    rewrite (findSeries_from_raise _ _ _ _ _ L). reflexivity.
  - rewrite findSeries_from_next.
    + rewrite (IH rest (S round)); [reflexivity | simpl in Hk; lia | | ].
      * intros j Hj. replace (S round + j)%nat with (round + S j)%nat by lia.
        apply Hm. lia.
      * replace (S round + k)%nat with (round + S k)%nat by lia. exact L.
    + replace round with (round + 0)%nat by lia. apply Hm. lia.
Qed.

(** The rounds of a request: either every round the list is long enough
    for names no series, or there is a first round that names one or
    throws. *)
Lemma rounds_cases (env : Env) (tmdbId : Z) (n : nat) :
  (forall k, (k < n)%nat ->
             lookup_misses (sonarr_lookupSeriesByTmdbId env k tmdbId))
  \/ exists round,
       (round < n)%nat
       /\ misses_before env tmdbId round
       /\ ((exists lookup,
              sonarr_lookupSeriesByTmdbId env round tmdbId
              = Returned (Some lookup)
              /\ SeriesLookup.tvdbId lookup <> 0)
           \/ sonarr_lookupSeriesByTmdbId env round tmdbId = Thrown).
Proof.
  induction n as [|n IH].
  - left. intros k Hk. lia.
  - destruct IH as [IH | [round [Hr [Hm Hl]]]].
    + destruct (lookup_outcome (sonarr_lookupSeriesByTmdbId env n tmdbId))
        as [M | Hl].
      * left. intros k Hk. destruct (Nat.eq_dec k n) as [-> | Hn];
          [exact M | apply IH; lia].
      * right. exists n. split; [lia|]. split; [exact IH | exact Hl].
    + right. exists round. split; [lia|]. split; [exact Hm | exact Hl].
Qed.

Lemma findSeries_miss (env : Env) (tmdbId : Z) (allSeries : list SonarrSeries.t) :
  (forall k, (k < List.length allSeries)%nat ->
             lookup_misses (sonarr_lookupSeriesByTmdbId env k tmdbId)) ->
  findSeries env tmdbId allSeries
  = (Returned None,
     repeat (Sonarr_lookupSeriesByTmdbId tmdbId) (List.length allSeries)).
Proof.
  intros H. unfold findSeries. apply findSeries_from_miss. exact H.
Qed.

Lemma findSeries_hit (env : Env) (tmdbId : Z) (allSeries : list SonarrSeries.t)
      (round : nat) (lookup : SeriesLookup.t) :
  (round < List.length allSeries)%nat ->
  misses_before env tmdbId round ->
  sonarr_lookupSeriesByTmdbId env round tmdbId = Returned (Some lookup) ->
  SeriesLookup.tvdbId lookup <> 0 ->
  findSeries env tmdbId allSeries
  = (sonarr_getSeriesByTvdbId env (SeriesLookup.tvdbId lookup),
     (repeat (Sonarr_lookupSeriesByTmdbId tmdbId) (S round)
        ++ [Sonarr_getSeriesByTvdbId (SeriesLookup.tvdbId lookup)])%list).
Proof.
  intros Hr Hm L T. unfold findSeries.
  exact (findSeries_from_hit env tmdbId lookup round allSeries 0 Hr Hm L T).
Qed.

Lemma findSeries_throw (env : Env) (tmdbId : Z) (allSeries : list SonarrSeries.t)
      (round : nat) :
  (round < List.length allSeries)%nat ->
  misses_before env tmdbId round ->
  sonarr_lookupSeriesByTmdbId env round tmdbId = Thrown ->
  findSeries env tmdbId allSeries
  = (Thrown, repeat (Sonarr_lookupSeriesByTmdbId tmdbId) (S round)).
Proof.
  intros Hr Hm L. unfold findSeries.
  exact (findSeries_from_throw env tmdbId round allSeries 0 Hr Hm L).
Qed.

(** With a series found, the loop leaves it in [series]. *)
Lemma findSeries_found (env : Env) (tmdbId : Z) (series : SonarrSeries.t)
      (allSeries : list SonarrSeries.t) :
  series_found env tmdbId series ->
  sonarr_getSeries env = Returned allSeries ->
  result (findSeries env tmdbId allSeries) = Returned (Some series).
Proof.
  intros [l round lookup Hs Hr Hm L T G] Hs'.
  rewrite Hs in Hs'. apply Returned_inj in Hs'. subst l.
  rewrite (findSeries_hit _ _ _ _ _ Hr Hm L T). exact G.
Qed.

Lemma getEpisodeFilePath_result (env : Env) (seriesId episodeFileId : Z) :
  result (getEpisodeFilePath env seriesId episodeFileId)
  = match fetch_episodefile env episodeFileId with
    | Response true (Some path) => Returned (Some path)
    | _ => Returned None
    end.
Proof.
  unfold getEpisodeFilePath. rewrite result_bind, result_call.
  destruct (fetch_episodefile env episodeFileId) as [|[|] [path|]]; reflexivity.
Qed.

(** What [getEpisodePlayback] does once the series and the episode are
    found. *)
Lemma getEpisodePlayback_found (env : Env) (tmdbId season episode : Z)
      (series : SonarrSeries.t) (ep : SonarrEpisode.t) :
  episode_found env tmdbId season episode series ep ->
  result (getEpisodePlayback env tmdbId season episode)
  = if negb (SonarrEpisode.hasFile ep)
       || negb (JS.truthy_num (SonarrEpisode.episodeFileId ep))
    then Returned None
    else match fetch_episodefile env (SonarrEpisode.episodeFileId ep) with
         | Response true (Some path) =>
             if JS.truthy_str path
             then result (buildPlaybackInfo
                            env path (episodeTitle series season episode ep)
                            ContentKind.episode)
             else Returned None
         | _ => Returned None
         end.
Proof.
  intros [episodes F He Hf].
  assert (Hs : exists allSeries, sonarr_getSeries env = Returned allSeries)
    by (destruct F as [l ? ? Hs]; exists l; exact Hs).
  destruct Hs as [allSeries Hs].
  unfold getEpisodePlayback.
  rewrite result_bind, result_call, Hs. cbv beta iota.
  rewrite result_bind, (findSeries_found _ _ _ _ F Hs). cbv beta iota.
  rewrite result_bind, result_call, He. cbv beta iota zeta. rewrite Hf.
  destruct (negb (SonarrEpisode.hasFile ep)
            || negb (JS.truthy_num (SonarrEpisode.episodeFileId ep)));
    [reflexivity|].
  rewrite result_bind, getEpisodeFilePath_result.
  destruct (fetch_episodefile env (SonarrEpisode.episodeFileId ep))
    as [|[|] [path|]]; try reflexivity.
  destruct (JS.truthy_str path); reflexivity.
Qed.

Lemma getMoviePlayback_result (env : Env) (tmdbId : Z) (m : RadarrMovie.t) :
  radarr_getMovieByTmdbId env tmdbId = Returned (Some m) ->
  result (getMoviePlayback env tmdbId)
  = match RadarrMovie.hasFile m, RadarrMovie.movieFile_path m with
    | true, Some filePath =>
        if JS.truthy_str filePath
        then result (buildPlaybackInfo env filePath (RadarrMovie.title m)
                                       ContentKind.movie)
        else Returned None
    | _, _ => Returned None
    end.
Proof.
  intros H. unfold getMoviePlayback. rewrite result_bind, result_call, H.
  destruct (RadarrMovie.hasFile m), (RadarrMovie.movieFile_path m) as [p|];
    try reflexivity.
  destruct (JS.truthy_str p); reflexivity.
Qed.

(** A request that resolves to a path gives what the builder gives for the
    path. *)
Lemma playback_resolved (env : Env) (req : Request) (filePath title : string) :
  resolves env req filePath title ->
  exists type,
    result (playback env req)
    = result (buildPlaybackInfo env filePath title type).
Proof.
  intros [tmdbId m f Hm Hh Hf Hp | tmdbId season episode series ep path F Hh Hi Hf Hp].
  - exists ContentKind.movie. simpl. rewrite (getMoviePlayback_result _ _ _ Hm).
    unfold RadarrMovie.movieFile_path. rewrite Hh, Hf.
    rewrite (truthy_str_true _ Hp). reflexivity.
  - exists ContentKind.episode. simpl.
    rewrite (getEpisodePlayback_found _ _ _ _ _ _ F), Hh, Hf.
    rewrite (truthy_num_true _ Hi), (truthy_str_true _ Hp). reflexivity.
Qed.

Lemma buildPlaybackInfo_filePath (env : Env) (filePath title : string)
      (type : ContentKind.t) (info : PlaybackInfo.t) :
  result (buildPlaybackInfo env filePath title type) = Returned (Some info) ->
  PlaybackInfo.filePath info = filePath.
Proof.
  intros H.
  destruct (buildPlaybackInfo_Some_inv _ _ _ _ _ H) as [mi [_ H']].
  clear H. rename H' into H. open_playback H. reflexivity.
Qed.

(** Every playback info an entry point returns was built for a path that is
    not empty. *)
Lemma playback_Some (env : Env) (req : Request) (info : PlaybackInfo.t) :
  result (playback env req) = Returned (Some info) ->
  exists filePath title type,
    filePath <> ""
    /\ result (buildPlaybackInfo env filePath title type) = Returned (Some info).
Proof.
  destruct req as [tmdbId | tmdbId season episode]; simpl playback.
  - unfold getMoviePlayback. rewrite result_bind, result_call.
    destruct (radarr_getMovieByTmdbId env tmdbId) as [[m|]|]; try discriminate.
    cbv beta iota.
    destruct (RadarrMovie.hasFile m), (RadarrMovie.movieFile_path m) as [p|];
      try discriminate.
    destruct (JS.truthy_str p) eqn:T; try discriminate.
    intros H. exists p, (RadarrMovie.title m), ContentKind.movie.
    split; [|exact H]. intros ->. discriminate T.
  - unfold getEpisodePlayback. rewrite result_bind, result_call.
    destruct (sonarr_getSeries env) as [l|]; try discriminate.
    cbv beta iota. rewrite result_bind.
    destruct (result (findSeries env tmdbId l)) as [[series|]|];
      try discriminate.
    rewrite result_bind, result_call.
    destruct (sonarr_getEpisodes env (SonarrSeries.id series)) as [eps|];
      try discriminate.
    cbv beta iota zeta.
    destruct (JS.find _ eps) as [ep|]; try discriminate.
    destruct (negb (SonarrEpisode.hasFile ep)
              || negb (JS.truthy_num (SonarrEpisode.episodeFileId ep)));
      try discriminate.
    rewrite result_bind, getEpisodeFilePath_result.
    destruct (fetch_episodefile env (SonarrEpisode.episodeFileId ep))
      as [|[|] [path|]]; try discriminate.
    cbv beta iota.
    destruct (JS.truthy_str path) eqn:T; try discriminate.
    intros H. exists path, (episodeTitle series season episode ep),
                     ContentKind.episode.
    split; [|exact H]. intros ->. discriminate T.
Qed.

(** C4. For a request that resolves to a file, the entry points
    [getMoviePlayback] and [getEpisodePlayback] return [null] where probing
    the file fails in a way the prober handles (the file is missing, the
    child emits the ['error'] event, the probe tool exits with a code other
    than zero, or prints what cannot be parsed) and where the probed file
    has no video stream.  They throw, against the claim, where [spawn]
    throws or gives a child without [stdout], and where the probe tool
    ends well with an output that has no streams, or a video stream and no
    format. *)
Theorem C4_probe_failure_is_null_unless_spawn_throws
        (env : Env) (req : Request) (filePath title : string) :
  resolves env req filePath title ->
  (probe_failure env filePath
   \/ (exists mediaInfo,
         probed env filePath mediaInfo /\ no_stream CodecType.video mediaInfo) ->
   result (playback env req) = Returned None)
  /\ (spawn_throws env filePath \/ ill_shaped env filePath ->
      result (playback env req) = Thrown).
Proof.
  intros R. destruct (playback_resolved _ _ _ _ R) as [type ->]. split.
  - intros [F | [mi [P N]]].
    + rewrite buildPlaybackInfo_result, (probeFile_failure _ _ F).
      reflexivity.
    + rewrite (buildPlaybackInfo_probed _ _ _ _ _ P). f_equal.
      unfold playbackOf.
      assert (E : JS.find (is_type CodecType.video) (MediaInfo.streams mi)
                  = None).
      { apply find_None. intros s Hs. apply is_type_false. apply N.
        exact Hs. }
      rewrite E. reflexivity.
  - apply buildPlaybackInfo_Thrown.
Qed.

(** The movie of the scenario in the world where [spawn] throws: the movie
    entry point throws. *)
Lemma C4_witness :
  resolves Scenario.world_spawn_throws (MovieRequest 550)
           Scenario.fight_club_path "Fight Club"
  /\ spawn_throws Scenario.world_spawn_throws Scenario.fight_club_path
  /\ result (getMoviePlayback Scenario.world_spawn_throws 550) = Thrown.
Proof.
  assert (R : resolves Scenario.world_spawn_throws (MovieRequest 550)
                       Scenario.fight_club_path "Fight Club").
  { apply (ResolvesMovie Scenario.world_spawn_throws 550 Scenario.fight_club
                         (MovieFile.mk Scenario.fight_club_path));
      [reflexivity | reflexivity | reflexivity | discriminate]. }
  assert (T : spawn_throws Scenario.world_spawn_throws
                           Scenario.fight_club_path).
  { apply ST_throws; reflexivity. }
  split; [exact R|]. split; [exact T|].
  exact (proj2 (C4_probe_failure_is_null_unless_spawn_throws
                  Scenario.world_spawn_throws (MovieRequest 550)
                  Scenario.fight_club_path "Fight Club" R) (or_introl T)).
Defined.

(** C5. A request for a title that is in the library manager and has no
    file gets [null], for the movie and for the episode entry point, without
    an exception; and no playback info that an entry point returns has an
    empty file path. *)
Theorem C5_no_file_is_null_and_no_empty_path (env : Env) (req : Request) :
  (no_file env req -> result (playback env req) = Returned None)
  /\ (forall info,
         result (playback env req) = Returned (Some info) ->
         PlaybackInfo.filePath info <> "").
Proof.
  split.
  - intros [tmdbId m Hm H | tmdbId season episode series ep F H]; simpl playback.
    + rewrite (getMoviePlayback_result _ _ _ Hm).
      unfold RadarrMovie.movieFile_path in *.
      destruct H as [H | [H | H]].
      * rewrite H. reflexivity.
      * rewrite H. destruct (RadarrMovie.hasFile m); reflexivity.
      * destruct (RadarrMovie.movieFile m) as [f|]; [|discriminate].
        injection H as ->. destruct (RadarrMovie.hasFile m); reflexivity.
    + rewrite (getEpisodePlayback_found _ _ _ _ _ _ F).
      destruct H as [H | [H | H]].
      * rewrite H. reflexivity.
      * rewrite H. destruct (SonarrEpisode.hasFile ep); reflexivity.
      * destruct (negb (SonarrEpisode.hasFile ep)
                  || negb (JS.truthy_num (SonarrEpisode.episodeFileId ep)));
          [reflexivity|].
        destruct (fetch_episodefile env (SonarrEpisode.episodeFileId ep))
          as [|[|] [path|]]; try reflexivity.
        simpl in H. rewrite H. reflexivity.
  - intros info H.
    destruct (playback_Some _ _ _ H) as [p [t [k [Hp Hb]]]].
    rewrite (buildPlaybackInfo_filePath _ _ _ _ _ Hb). exact Hp.
Qed.

(** The movie of the scenario that is not downloaded yet, and the second
    episode of the show, which has no file. *)
Lemma C5_witness :
  no_file Scenario.world (MovieRequest 438631)
  /\ result (getMoviePlayback Scenario.world 438631) = Returned None
  /\ no_file Scenario.world (EpisodeRequest 1399 1 2)
  /\ result (getEpisodePlayback Scenario.world 1399 1 2) = Returned None.
Proof.
  assert (N1 : no_file Scenario.world (MovieRequest 438631)).
  { apply (NoFileMovie Scenario.world 438631 Scenario.wanted_movie);
      [reflexivity | left; reflexivity]. }
  assert (N2 : no_file Scenario.world (EpisodeRequest 1399 1 2)).
  { apply (NoFileEpisode Scenario.world 1399 1 2 Scenario.thrones
                         (SonarrEpisode.mk 1 2 "The Kingsroad" false 0)).
    - apply (EpisodeFound _ _ _ _ _ _ Scenario.thrones_episodes);
        [|reflexivity|reflexivity].
      apply (SeriesFound _ _ _ [Scenario.thrones] 0%nat
                         (SeriesLookup.mk 121361));
        [reflexivity | apply Nat.lt_0_1 | intros k Hk; inversion Hk
         | reflexivity | discriminate | reflexivity].
    - left; reflexivity. }
  split; [exact N1|]. split.
  - exact (proj1 (C5_no_file_is_null_and_no_empty_path
                    Scenario.world (MovieRequest 438631)) N1).
  - split; [exact N2|].
    exact (proj1 (C5_no_file_is_null_and_no_empty_path
                    Scenario.world (EpisodeRequest 1399 1 2)) N2).
Defined.

(** C6. For every episode request in which the library manager lists its
    series and its cross-reference lookup finds no series for the show id,
    in any round that the loop over the series makes,
    [getEpisodePlayback] returns [null]; it does not throw. *)
Theorem C6_lookup_miss_is_null
        (env : Env) (tmdbId season episode : Z)
        (allSeries : list SonarrSeries.t) :
  sonarr_getSeries env = Returned allSeries ->
  (forall round, (round < List.length allSeries)%nat ->
                 sonarr_lookupSeriesByTmdbId env round tmdbId = Returned None) ->
  result (getEpisodePlayback env tmdbId season episode) = Returned None.
Proof.
  intros Hs Hl. unfold getEpisodePlayback.
  rewrite result_bind, result_call, Hs. cbv beta iota.
  rewrite result_bind, findSeries_miss; [reflexivity|].
  intros k Hk. left. apply Hl. exact Hk.
Qed.

(** The scenario of the specification: show 1399, season 1, episode 1, in
    the world where the lookup finds nothing. *)
Lemma C6_witness :
  sonarr_getSeries Scenario.world_no_lookup = Returned [Scenario.thrones]
  /\ (forall round,
         sonarr_lookupSeriesByTmdbId Scenario.world_no_lookup round 1399
         = Returned None)
  /\ result (getEpisodePlayback Scenario.world_no_lookup 1399 1 1)
     = Returned None.
Proof.
  split; [reflexivity|]. split; [reflexivity|].
  exact (C6_lookup_miss_is_null Scenario.world_no_lookup 1399 1 1
                                [Scenario.thrones] eq_refl
                                (fun round _ => eq_refl)).
Defined.

(** The loop reads the list for its length only. *)
Lemma findSeries_from_length (env : Env) (tmdbId : Z) :
  forall (l1 l2 : list SonarrSeries.t) (round : nat),
    List.length l1 = List.length l2 ->
    findSeries_from env round tmdbId l1 = findSeries_from env round tmdbId l2.
Proof.
  induction l1 as [|s1 r1 IH]; intros [|s2 r2] round H;
    try discriminate H; [reflexivity|].
  cbn [findSeries_from]. injection H as H.
  rewrite (IH r2 (S round) H). reflexivity.
Qed.

(** With a lookup that answers every round as it answers the first, the
    first round decides for any list that is not empty. *)
Lemma findSeries_nonempty (env : Env) (tmdbId : Z) (s : SonarrSeries.t)
      (rest : list SonarrSeries.t) :
  (forall round, sonarr_lookupSeriesByTmdbId env round tmdbId
                 = sonarr_lookupSeriesByTmdbId env 0%nat tmdbId) ->
  result (findSeries env tmdbId (s :: rest))
  = match sonarr_lookupSeriesByTmdbId env 0%nat tmdbId with
    | Returned (Some lookup) =>
        if JS.truthy_num (SeriesLookup.tvdbId lookup)
        then sonarr_getSeriesByTvdbId env (SeriesLookup.tvdbId lookup)
        else Returned None
    | Returned None => Returned None
    | Thrown => Thrown
    end.
Proof.
  intros Same.
  assert (Hr : (0 < List.length (s :: rest))%nat) by (simpl; lia).
  assert (Hm : misses_before env tmdbId 0) by (intros k Hk; lia).
  destruct (lookup_outcome (sonarr_lookupSeriesByTmdbId env 0%nat tmdbId))
    as [M | [[lookup [L T]] | L]].
  - rewrite findSeries_miss by (intros k _; rewrite Same; exact M).
    destruct M as [M | [lookup [M T]]]; rewrite M; [reflexivity|].
    unfold JS.truthy_num. rewrite T. reflexivity.
  - rewrite (findSeries_hit _ _ _ _ _ Hr Hm L T), L.
    rewrite (truthy_num_true _ T). reflexivity.
  - rewrite (findSeries_throw _ _ _ _ Hr Hm L), L. reflexivity.
Qed.

Lemma findSeries_with_series (env : Env) (tmdbId : Z)
      (l allSeries : list SonarrSeries.t) :
  findSeries (with_series env l) tmdbId allSeries = findSeries env tmdbId allSeries.
Proof.
  unfold findSeries. generalize 0%nat.
  induction allSeries as [|s rest IH]; intros round; [reflexivity|].
  cbn [findSeries_from]. rewrite IH. reflexivity.
Qed.

(** The results of [getEpisodePlayback] on two series lists on which the
    loop ends alike. *)
Lemma getEpisodePlayback_with_series (env : Env) (tmdbId season episode : Z)
      (l1 l2 : list SonarrSeries.t) :
  result (findSeries env tmdbId l1) = result (findSeries env tmdbId l2) ->
  result (getEpisodePlayback (with_series env l1) tmdbId season episode)
  = result (getEpisodePlayback (with_series env l2) tmdbId season episode).
Proof.
  intros F. unfold getEpisodePlayback.
  rewrite !result_bind, !result_call. cbn [with_series sonarr_getSeries].
  rewrite !result_bind, !findSeries_with_series, F. reflexivity.
Qed.

(** C10, amended.  When the library manager reports an empty series list,
    [getEpisodePlayback] returns [null] for every show id, season and
    episode, and the only call it makes is the one for the series list: the
    cross-reference lookup is never invoked.  When the list is not empty,
    the series the loop selects depends on the show id and on the number of
    series of the list, which is the number of times the lookup may be
    asked, and not on the series themselves: two lists of the same length
    give the same series, with the same calls, and the same result of
    [getEpisodePlayback]; and where the lookup answers every round alike,
    any two lists that are not empty do. *)
Theorem C10_series_list_gates_and_bounds_the_lookups
        (env : Env) (tmdbId season episode : Z) :
  (sonarr_getSeries env = Returned [] ->
   result (getEpisodePlayback env tmdbId season episode) = Returned None
   /\ calls (getEpisodePlayback env tmdbId season episode) = [Sonarr_getSeries]
   /\ forall id, ~ In (Sonarr_lookupSeriesByTmdbId id)
                      (calls (getEpisodePlayback env tmdbId season episode)))
  /\ (forall l1 l2 : list SonarrSeries.t,
         List.length l1 = List.length l2 ->
         findSeries env tmdbId l1 = findSeries env tmdbId l2
         /\ result (getEpisodePlayback (with_series env l1) tmdbId season episode)
            = result (getEpisodePlayback (with_series env l2) tmdbId season episode))
  /\ ((forall round, sonarr_lookupSeriesByTmdbId env round tmdbId
                     = sonarr_lookupSeriesByTmdbId env 0%nat tmdbId) ->
      forall l1 l2 : list SonarrSeries.t,
        l1 <> [] -> l2 <> [] ->
        result (findSeries env tmdbId l1) = result (findSeries env tmdbId l2)
        /\ result (getEpisodePlayback (with_series env l1) tmdbId season episode)
           = result (getEpisodePlayback (with_series env l2) tmdbId season episode)).
Proof.
  split; [|split].
  - intros Hs.
    assert (E : getEpisodePlayback env tmdbId season episode
                = (Returned None, [Sonarr_getSeries])).
    { unfold getEpisodePlayback. rewrite Hs. reflexivity. }
    rewrite E. repeat split.
    intros id [H | []]. discriminate H.
  - intros l1 l2 H.
    assert (F : findSeries env tmdbId l1 = findSeries env tmdbId l2)
      by exact (findSeries_from_length env tmdbId l1 l2 0 H).
    split; [exact F|].
    apply getEpisodePlayback_with_series. rewrite F. reflexivity.
  - intros Same [|s1 r1] [|s2 r2] N1 N2; try contradiction.
    assert (F : result (findSeries env tmdbId (s1 :: r1))
                = result (findSeries env tmdbId (s2 :: r2))).
    { rewrite !findSeries_nonempty by exact Same. reflexivity. }
    split; [exact F|].
    apply getEpisodePlayback_with_series. exact F.
Qed.

(** The world of the scenario without series; the loop of the world whose
    lookup names the series from its second answer on, on two lists of two
    series; and the loop of the world of the scenario, whose lookup answers
    every round alike, on a list of one series and a list of two. *)
Lemma C10_witness :
  sonarr_getSeries Scenario.world_no_series = Returned []
  /\ calls (getEpisodePlayback Scenario.world_no_series 1399 1 1)
     = [Sonarr_getSeries]
  /\ findSeries Scenario.world_late_lookup 1399
                [Scenario.chernobyl; Scenario.thrones]
     = findSeries Scenario.world_late_lookup 1399
                  [Scenario.thrones; Scenario.chernobyl]
  /\ result (findSeries Scenario.world 1399 [Scenario.thrones])
     = result (findSeries Scenario.world 1399
                          [Scenario.chernobyl; Scenario.thrones]).
Proof.
  pose proof (C10_series_list_gates_and_bounds_the_lookups
                Scenario.world_no_series 1399 1 1) as [E _].
  pose proof (C10_series_list_gates_and_bounds_the_lookups
                Scenario.world_late_lookup 1399 1 1) as [_ [L _]].
  pose proof (C10_series_list_gates_and_bounds_the_lookups
                Scenario.world 1399 1 1) as [_ [_ S]].
  split; [reflexivity|]. split; [|split].
  - exact (proj1 (proj2 (E eq_refl))).
  - exact (proj1 (L [Scenario.chernobyl; Scenario.thrones]
                    [Scenario.thrones; Scenario.chernobyl] eq_refl)).
  - refine (proj1 (S (fun round => eq_refl) [Scenario.thrones]
                     [Scenario.chernobyl; Scenario.thrones] _ _));
      discriminate.
Defined.

(** The claim as the specification has it fails: with a lookup that names
    no series when it is first asked and names the series of the show when
    it is asked again, a library of one series gives [null], and a library
    of two series gives the series. *)
Lemma C10_counterexample :
  ~ (forall (env : Env) (tmdbId season episode : Z)
            (l1 l2 : list SonarrSeries.t),
        l1 <> [] -> l2 <> [] ->
        result (findSeries env tmdbId l1) = result (findSeries env tmdbId l2)
        /\ result (getEpisodePlayback (with_series env l1) tmdbId season episode)
           = result (getEpisodePlayback (with_series env l2) tmdbId season episode)).
Proof.
  intros C.
  destruct (C Scenario.world_late_lookup 1399 1 1
              [Scenario.thrones] [Scenario.chernobyl; Scenario.thrones])
    as [F _]; [discriminate | discriminate |].
  discriminate F.
Qed.

(** ** A file without audio *)

(** C9. When a probed file has at least one video stream and no audio
    stream, the builder returns a found playback info whose list of audio
    tracks is empty (so no track is selected), whose audio codec is the
    literal [unknown] and whose [needsTranscode] flag is true. *)
Theorem C9_video_without_audio
        (env : Env) (filePath title : string) (type : ContentKind.t)
        (mediaInfo : MediaInfo.t) :
  probed env filePath mediaInfo ->
  has_stream CodecType.video mediaInfo ->
  no_stream CodecType.audio mediaInfo ->
  exists info,
    result (buildPlaybackInfo env filePath title type) = Returned (Some info)
    /\ PlaybackInfo.found info = true
    /\ PlaybackInfo.audioTracks info = []
    /\ (forall t, In t (PlaybackInfo.audioTracks info) ->
                  AudioTrack.selected t = false)
    /\ MediaSummary.audioCodec (PlaybackInfo.mediaInfo info) = "unknown"
    /\ PlaybackInfo.needsTranscode info = true.
Proof.
  intros P [v [Hin Hk]] N.
  rewrite (buildPlaybackInfo_probed _ _ _ _ _ P).
  destruct (find_In (is_type CodecType.video) _ v Hin) as [videoStream Hv].
  { apply is_type_true. exact Hk. }
  assert (Hnone : forall s, In s (MediaInfo.streams mediaInfo) ->
                            is_type CodecType.audio s = false).
  { intros s Hs. apply is_type_false. apply N. exact Hs. }
  assert (Hf : JS.find (is_type CodecType.audio) (MediaInfo.streams mediaInfo)
               = None) by (apply find_None; exact Hnone).
  assert (Hl : JS.filter (is_type CodecType.audio) (MediaInfo.streams mediaInfo)
               = []) by (apply filter_nil; exact Hnone).
  unfold playbackOf. rewrite Hv. cbv zeta. rewrite Hf, Hl.
  eexists. split; [reflexivity|].
  cbn [PlaybackInfo.found PlaybackInfo.audioTracks PlaybackInfo.mediaInfo
       PlaybackInfo.needsTranscode MediaSummary.audioCodec].
  repeat split. intros t [].
Qed.

(** The file of the scenario that has a video stream and nothing else. *)
Lemma C9_witness :
  probed Scenario.world "/data/movies/silent" Scenario.silent_info
  /\ has_stream CodecType.video Scenario.silent_info
  /\ no_stream CodecType.audio Scenario.silent_info
  /\ exists info,
       result (buildPlaybackInfo Scenario.world "/data/movies/silent"
                                 "Silent" ContentKind.movie)
       = Returned (Some info)
       /\ PlaybackInfo.audioTracks info = []
       /\ PlaybackInfo.needsTranscode info = true.
Proof.
  assert (P : probed Scenario.world "/data/movies/silent" Scenario.silent_info).
  { split; [reflexivity|]. exists "/data/movies/silent". split; reflexivity. }
  assert (V : has_stream CodecType.video Scenario.silent_info).
  { eexists. split; [left; reflexivity | reflexivity]. }
  assert (N : no_stream CodecType.audio Scenario.silent_info).
  { intros s [<- | []]. discriminate. }
  split; [exact P|]. split; [exact V|]. split; [exact N|].
  destruct (C9_video_without_audio Scenario.world "/data/movies/silent"
              "Silent" ContentKind.movie Scenario.silent_info P V N)
    as [info [H [_ [A [_ [_ T]]]]]].
  exists info. split; [exact H|]. split; [exact A | exact T].
Defined.

(** ** URLs *)

Lemma append_assoc (a b c : string) : (a ++ b) ++ c = a ++ (b ++ c).
Proof. induction a as [|x a IH]; simpl; [|rewrite IH]; reflexivity. Qed.

Lemma encodeURIComponent_app (a b : string) :
  JS.encodeURIComponent (a ++ b)
  = JS.encodeURIComponent a ++ JS.encodeURIComponent b.
Proof.
  induction a as [|x a IH]; simpl; [reflexivity|].
  rewrite IH, append_assoc. reflexivity.
Qed.

Lemma all_chars_app (p : ascii -> bool) (a b : string) :
  all_chars p (a ++ b) = all_chars p a && all_chars p b.
Proof.
  induction a as [|x a IH]; simpl; [reflexivity|].
  rewrite IH, andb_assoc. reflexivity.
Qed.

Lemma encode_byte_safe (c : ascii) :
  all_chars url_safe (JS.encode_byte c) = true.
Proof.
  destruct c as [[|] [|] [|] [|] [|] [|] [|] [|]]; reflexivity.
Qed.

(** What [encodeURIComponent] returns is made of the characters it leaves as
    they are and of percent signs with their two digits. *)
Lemma encodeURIComponent_safe (s : string) :
  all_chars url_safe (JS.encodeURIComponent s) = true.
Proof.
  induction s as [|c s IH]; simpl; [reflexivity|].
  rewrite all_chars_app, encode_byte_safe, IH. reflexivity.
Qed.

Lemma stream_endpoint_slash (b : bool) (s : string) :
  JS.truthy_str (stream_endpoint b ++ s) && JS.startsWithSlash (stream_endpoint b ++ s)
  = true.
Proof. destruct b; reflexivity. Qed.

Lemma buildPlaybackInfo_streamUrl (env : Env) (filePath title : string)
      (type : ContentKind.t) (info : PlaybackInfo.t) :
  result (buildPlaybackInfo env filePath title type) = Returned (Some info) ->
  PlaybackInfo.found info = true
  /\ PlaybackInfo.streamUrl info
     = stream_endpoint (PlaybackInfo.needsTranscode info)
         ++ JS.encodeURIComponent filePath.
Proof.
  intros H.
  destruct (buildPlaybackInfo_Some_inv _ _ _ _ _ H) as [mi [_ H']].
  clear H. rename H' into H. open_playback H.
  cbn [PlaybackInfo.found PlaybackInfo.streamUrl PlaybackInfo.needsTranscode].
  split; [reflexivity|].
  destruct (negb _); reflexivity.
Qed.

(** C7, as the code has it.  Every stream URL and every subtitle URL the
    client sees embeds the resolved path only in its percent-encoded form:
    the URL is the base of the API, the endpoint, the encoded reference and
    the token parameter, and the encoded path is made of unreserved
    characters and percent escapes only.  The playback info carries the raw
    path as well, in its [filePath] member, which the client reads to build
    the subtitle URLs. *)
Theorem C7_urls_embed_encoded_path
        (env : Env) (filePath title : string) (type : ContentKind.t)
        (info : PlaybackInfo.t)
        (API_BASE : string) (token : option string)
        (cinfo : ClientPlaybackInfo.t) :
  result (buildPlaybackInfo env filePath title type) = Returned (Some info) ->
  clientPlayback API_BASE token info = Some cinfo ->
  PlaybackInfo.streamUrl info
  = stream_endpoint (PlaybackInfo.needsTranscode info)
      ++ JS.encodeURIComponent filePath
  /\ ClientPlaybackInfo.streamUrl cinfo
     = API_BASE
         ++ (stream_endpoint (PlaybackInfo.needsTranscode info)
               ++ JS.encodeURIComponent filePath)
         ++ authParam token
  /\ (forall sub,
         In sub (ClientPlaybackInfo.subtitles cinfo) ->
         ClientSubtitleTrack.url sub
         = Some (API_BASE
                   ++ ("/api/media/subtitle/"
                         ++ JS.encodeURIComponent
                              (JS.String_of (ClientSubtitleTrack.streamIndex sub))
                         ++ "%3A" ++ JS.encodeURIComponent filePath)
                   ++ authParam token))
  /\ all_chars url_safe (JS.encodeURIComponent filePath) = true
  /\ PlaybackInfo.filePath info = filePath
  /\ ClientPlaybackInfo.filePath cinfo = filePath.
Proof.
  intros H C.
  destruct (buildPlaybackInfo_streamUrl _ _ _ _ _ H) as [Hfound Hurl].
  pose proof (buildPlaybackInfo_filePath _ _ _ _ _ H) as Hpath.
  unfold clientPlayback in C. rewrite Hfound in C. cbn [negb] in C.
  apply Some_inj in C. subst cinfo.
  cbn [ClientPlaybackInfo.streamUrl ClientPlaybackInfo.subtitles
       ClientPlaybackInfo.filePath].
  rewrite Hurl, Hpath, stream_endpoint_slash.
  split; [reflexivity|]. split; [reflexivity|]. split.
  - intros sub Hsub. apply in_map_iff in Hsub. destruct Hsub as [x [<- _]].
    unfold clientSubtitle.
    cbn [ClientSubtitleTrack.url ClientSubtitleTrack.streamIndex].
    rewrite !encodeURIComponent_app. reflexivity.
  - split; [apply encodeURIComponent_safe|]. split; reflexivity.
Qed.

(** The movie of the scenario, as a client with the token [t/k] sees it. *)
Lemma C7_witness :
  exists info cinfo,
    result (buildPlaybackInfo Scenario.world Scenario.fight_club_path
                              "Fight Club" ContentKind.movie)
    = Returned (Some info)
    /\ clientPlayback "http://localhost:3001" (Some "t/k") info = Some cinfo
    /\ ClientPlaybackInfo.streamUrl cinfo
       = "http://localhost:3001/api/media/transcode/%2Fdata%2Fmovies%2FFight%20Club%20(1999)%2FFight%20Club.mkv?token=t%2Fk".
Proof.
  eexists. eexists. split; [reflexivity|]. split; [reflexivity|].
  rewrite (proj1 (proj2 (C7_urls_embed_encoded_path
                           Scenario.world Scenario.fight_club_path
                           "Fight Club" ContentKind.movie _
                           "http://localhost:3001" (Some "t/k") _
                           eq_refl eq_refl))).
  reflexivity.
Defined.

(** C7 as the specification states it fails: the playback info of the movie
    of the scenario, and what the client makes of it, hold the raw path
    [/data/movies/Fight Club (1999)/Fight Club.mkv], with its slashes and
    spaces, in the member [filePath]. *)
Lemma C7_counterexample :
  exists info cinfo,
    result (getMoviePlayback Scenario.world 550) = Returned (Some info)
    /\ clientPlayback "http://localhost:3001" None info = Some cinfo
    /\ PlaybackInfo.filePath info
       = "/data/movies/Fight Club (1999)/Fight Club.mkv"
    /\ ClientPlaybackInfo.filePath cinfo
       = "/data/movies/Fight Club (1999)/Fight Club.mkv"
    /\ all_chars url_safe (ClientPlaybackInfo.filePath cinfo) = false
    /\ ClientPlaybackInfo.filePath cinfo
       <> JS.encodeURIComponent Scenario.fight_club_path.
Proof.
  eexists. eexists. split; [reflexivity|]. split; [reflexivity|].
  repeat split. discriminate.
Qed.

(** ** The extension of a path *)

Lemma get_app_right (a b : string) (j : nat) :
  String.get (String.length a + j) (a ++ b) = String.get j b.
Proof. induction a as [|x a IH]; simpl; [reflexivity | exact IH]. Qed.

Lemma get_lt (s : string) (j : nat) :
  (j < String.length s)%nat -> exists x, String.get j s = Some x.
Proof.
  revert j. induction s as [|c s IH]; simpl; intros j H; [lia|].
  destruct j as [|j]; [eauto|]. apply IH. lia.
Qed.

Lemma all_chars_get (p : ascii -> bool) (s : string) (j : nat) (x : ascii) :
  all_chars p s = true -> String.get j s = Some x -> p x = true.
Proof.
  revert j. induction s as [|c s IH]; simpl; intros j A G; [discriminate|].
  apply andb_true_iff in A. destruct A as [Ac As].
  destruct j as [|j]; [injection G as <-; exact Ac | eapply IH; eassumption].
Qed.

Lemma length_append (a b : string) :
  String.length (a ++ b) = (String.length a + String.length b)%nat.
Proof. induction a as [|x a IH]; simpl; [|rewrite IH]; reflexivity. Qed.

Lemma length_nonempty (s : string) :
  s <> "" -> exists m, String.length s = S m.
Proof. destruct s as [|c s]; [contradiction | simpl; eauto]. Qed.

Lemma substring_all (s : string) : String.substring 0 (String.length s) s = s.
Proof. induction s as [|c s IH]; simpl; [|rewrite IH]; reflexivity. Qed.

Lemma substring_app_right (a b : string) (k m : nat) :
  String.substring (String.length a + k) m (a ++ b) = String.substring k m b.
Proof. induction a as [|x a IH]; simpl; [reflexivity | exact IH]. Qed.

Lemma plain_not_slash (x : ascii) : plain x = true -> Ascii.eqb x "/" = false.
Proof.
  unfold plain. intros H. apply andb_true_iff in H. destruct H as [_ H].
  apply negb_true_iff. exact H.
Qed.

Lemma plain_not_dot (x : ascii) : plain x = true -> Ascii.eqb x "." = false.
Proof.
  unfold plain. intros H. apply andb_true_iff in H. destruct H as [H _].
  apply negb_true_iff. exact H.
Qed.

(** Once the scan has seen the dot and a character before it, the rest of
    the path changes neither the dot nor the end of the extension. *)
Lemma ext_scan_settled (path : string) (n : nat) (st : JS.ExtScan) :
  JS.startDot st <> -1 ->
  JS.end_ st <> -1 ->
  JS.preDotState st = 1 \/ JS.preDotState st = -1 ->
  JS.startDot (JS.ext_scan path n st) = JS.startDot st
  /\ JS.end_ (JS.ext_scan path n st) = JS.end_ st
  /\ (JS.preDotState (JS.ext_scan path n st) = 1
      \/ JS.preDotState (JS.ext_scan path n st) = -1).
Proof.
  revert st. induction n as [|i IH]; intros st Hd He Hp; simpl; [auto|].
  destruct (String.get i path) as [code|]; [|auto].
  destruct (Ascii.eqb code "/").
  - destruct (negb (JS.matchedSlash st)); [simpl; auto | apply IH; auto].
  - apply Z.eqb_neq in He as He'. rewrite He'.
    apply Z.eqb_neq in Hd as Hd'. rewrite Hd'. cbn [negb].
    destruct (Ascii.eqb code ".").
    + destruct (negb (JS.preDotState st =? 1)).
      * destruct (IH (JS.mkExtScan (JS.startDot st) (JS.startPart st)
                                   (JS.end_ st) (JS.matchedSlash st) 1))
          as [A [B C]]; simpl; auto.
      * apply IH; auto.
    + destruct (IH (JS.mkExtScan (JS.startDot st) (JS.startPart st)
                                 (JS.end_ st) (JS.matchedSlash st) (-1)))
        as [A [B C]]; simpl; auto.
Qed.

Lemma ext_scan_dot_step (path : string) (i : nat) (st : JS.ExtScan) :
  String.get i path = Some "."%char ->
  JS.end_ st <> -1 ->
  JS.startDot st = -1 ->
  JS.ext_scan path (S i) st
  = JS.ext_scan path i
      (JS.mkExtScan (Z.of_nat i) (JS.startPart st) (JS.end_ st)
                    (JS.matchedSlash st) (JS.preDotState st)).
Proof.
  intros G He Hd. cbn [JS.ext_scan]. rewrite G.
  apply Z.eqb_neq in He. cbn [Ascii.eqb Bool.eqb].
  rewrite He, Hd. reflexivity.
Qed.

Lemma ext_scan_before_dot_step (path : string) (i : nat) (st : JS.ExtScan)
      (code : ascii) :
  String.get i path = Some code ->
  Ascii.eqb code "/" = false ->
  JS.end_ st <> -1 ->
  JS.startDot st <> -1 ->
  JS.preDotState st = 0 ->
  exists q,
    (q = 1 \/ q = -1)
    /\ JS.ext_scan path (S i) st
       = JS.ext_scan path i
           (JS.mkExtScan (JS.startDot st) (JS.startPart st) (JS.end_ st)
                         (JS.matchedSlash st) q).
Proof.
  intros G Hs He Hd Hp. cbn [JS.ext_scan]. rewrite G, Hs.
  apply Z.eqb_neq in He. apply Z.eqb_neq in Hd. rewrite He, Hd, Hp.
  cbn [negb Z.eqb].
  destruct (Ascii.eqb code "."); [exists 1 | exists (-1)]; auto.
Qed.

Section NamedFile.

Variables (pre : string) (c : ascii) (ext : string).
Hypothesis c_not_slash : Ascii.eqb c "/" = false.
Hypothesis ext_plain : all_chars plain ext = true.

Let path : string := pre ++ String c (String "." ext).
Let n0 : nat := String.length pre.
Let L : nat := (n0 + 2 + String.length ext)%nat.

Let scanned_ext : JS.ExtScan := JS.mkExtScan (-1) 0 (Z.of_nat L) false 0.

Lemma get_in_ext (j : nat) :
  String.get (n0 + 2 + j) path = String.get j ext.
Proof.
  unfold path, n0. rewrite <- Nat.add_assoc, get_app_right. reflexivity.
Qed.

Lemma ext_scan_plain_step (j : nat) (st : JS.ExtScan) :
  (j < String.length ext)%nat ->
  JS.startDot st = -1 ->
  JS.ext_scan path (S (n0 + 2 + j)) st
  = JS.ext_scan path (n0 + 2 + j)
      (if JS.end_ st =? -1
       then JS.mkExtScan (JS.startDot st) (JS.startPart st)
                         (Z.of_nat (n0 + 2 + j) + 1) false (JS.preDotState st)
       else st).
Proof.
  intros Hj Hd. cbn [JS.ext_scan]. rewrite get_in_ext.
  destruct (get_lt ext j Hj) as [x Hx]. rewrite Hx.
  pose proof (all_chars_get _ _ _ _ ext_plain Hx) as Px.
  rewrite (plain_not_slash _ Px), (plain_not_dot _ Px).
  destruct (JS.end_ st =? -1); cbn [JS.startDot]; rewrite Hd; reflexivity.
Qed.

Lemma ext_scan_over_ext (k : nat) :
  (k <= String.length ext)%nat ->
  JS.ext_scan path (n0 + 2 + k) scanned_ext
  = JS.ext_scan path (n0 + 2) scanned_ext.
Proof.
  induction k as [|k IH]; intros Hk.
  - rewrite Nat.add_0_r. reflexivity.
  - replace (n0 + 2 + S k)%nat with (S (n0 + 2 + k)) by lia.
    rewrite ext_scan_plain_step by (try reflexivity; lia).
    assert (E : (JS.end_ scanned_ext =? -1) = false).
    { apply Z.eqb_neq. unfold scanned_ext. cbn [JS.end_]. lia. }
    rewrite E. apply IH. lia.
Qed.

Lemma ext_scan_whole :
  ext <> "" ->
  JS.ext_scan path L JS.ext_init = JS.ext_scan path (n0 + 2) scanned_ext.
Proof.
  intros Hne. destruct (length_nonempty ext Hne) as [m Hl].
  replace L with (S (n0 + 2 + m)) by (unfold L; lia).
  rewrite ext_scan_plain_step by (try reflexivity; lia).
  cbn [JS.ext_init JS.end_ JS.startDot JS.startPart JS.preDotState Z.eqb].
  replace (Z.of_nat (n0 + 2 + m) + 1) with (Z.of_nat L) by (unfold L; lia).
  apply ext_scan_over_ext. lia.
Qed.

Lemma extname_named :
  ext <> "" -> JS.extname path = String "." ext.
Proof.
  intros Hne. unfold JS.extname.
  assert (Hlen : String.length path = L).
  { unfold path, L, n0. rewrite length_append. simpl. lia. }
  rewrite Hlen, (ext_scan_whole Hne).
  destruct (length_nonempty ext Hne) as [m Hlext].
  (* the dot, at index n0 + 1 *)
  replace (n0 + 2)%nat with (S (S n0)) by lia.
  assert (Gdot : String.get (S n0) path = Some "."%char).
  { unfold path, n0. replace (S (String.length pre))
      with (String.length pre + 1)%nat by lia.
    rewrite get_app_right. reflexivity. }
  assert (Gc : String.get n0 path = Some c).
  { unfold path, n0. replace (String.length pre)
      with (String.length pre + 0)%nat at 1 by lia.
    rewrite get_app_right. reflexivity. }
  rewrite (ext_scan_dot_step path (S n0) scanned_ext Gdot)
    by (unfold scanned_ext; cbn [JS.end_ JS.startDot]; lia || reflexivity).
  set (st2 := JS.mkExtScan (Z.of_nat (S n0)) _ _ _ _).
  destruct (ext_scan_before_dot_step path n0 st2 c Gc c_not_slash)
    as [q [Hq ->]];
    try (unfold st2, scanned_ext;
         cbn [JS.end_ JS.startDot JS.preDotState]; lia || reflexivity).
  set (st3 := JS.mkExtScan _ _ _ _ q).
  assert (Sd : JS.startDot st3 = Z.of_nat (S n0)) by reflexivity.
  assert (Se : JS.end_ st3 = Z.of_nat L) by reflexivity.
  assert (Sp : JS.preDotState st3 = 1 \/ JS.preDotState st3 = -1) by exact Hq.
  destruct (ext_scan_settled path n0 st3) as [Rd [Re Rp]];
    [lia | lia | exact Sp |].
  rewrite Rd, Re, Sd, Se.
  assert (F1 : (Z.of_nat (S n0) =? -1) = false) by (apply Z.eqb_neq; lia).
  assert (F2 : (Z.of_nat L =? -1) = false) by (apply Z.eqb_neq; lia).
  assert (F3 : (JS.preDotState (JS.ext_scan path n0 st3) =? 0) = false)
    by (apply Z.eqb_neq; lia).
  assert (F4 : (Z.of_nat (S n0) =? Z.of_nat L - 1) = false)
    by (apply Z.eqb_neq; unfold L; lia).
  rewrite F1, F2, F3, F4, andb_false_r. cbn [orb andb].
  replace (Z.to_nat (Z.of_nat (S n0))) with (String.length pre + 1)%nat
    by (unfold n0; lia).
  replace (Z.to_nat (Z.of_nat L - Z.of_nat (S n0)))
    with (String.length (String "." ext)) by (unfold L; simpl; lia).
  unfold path. rewrite substring_app_right.
  change (String.substring 1 (String.length (String "." ext))
                           (String c (String "." ext)))
    with (String.substring 0 (String.length (String "." ext)) (String "." ext)).
  apply substring_all.
Qed.

End NamedFile.

(** ** The container *)

Lemma extension_container_named (pre : string) (c : ascii) (ext : string) :
  Ascii.eqb c "/" = false ->
  all_chars plain ext = true ->
  ext <> "" ->
  extension_container (pre ++ String c (String "." ext)) = ext.
Proof.
  intros Hc Hp Hne. unfold extension_container.
  rewrite (extname_named pre c ext Hc Hp Hne). cbn [JS.slice1].
  destruct (String.eqb ext "") eqn:E; [|reflexivity].
  apply String.eqb_eq in E. contradiction.
Qed.

(** C8. The container of the playback info is computed from the extension
    of the file path, whatever the probe reports: it is
    [extension_container] of the path, so the same path gives the same
    container in every world and for every probe output; for a path that
    ends in a name [base.ext] (a character other than a slash, a dot, and a
    non-empty extension without dot or slash) it is [ext], and for a path
    without extension it is [mkv]. *)
Theorem C8_container_from_extension
        (env : Env) (filePath title : string) (type : ContentKind.t)
        (info : PlaybackInfo.t) :
  result (buildPlaybackInfo env filePath title type) = Returned (Some info) ->
  MediaSummary.container (PlaybackInfo.mediaInfo info)
  = extension_container filePath
  /\ (forall env' title' type' info',
         result (buildPlaybackInfo env' filePath title' type')
         = Returned (Some info') ->
         MediaSummary.container (PlaybackInfo.mediaInfo info')
         = MediaSummary.container (PlaybackInfo.mediaInfo info))
  /\ (forall pre c ext,
         filePath = pre ++ String c (String "." ext) ->
         Ascii.eqb c "/" = false ->
         all_chars plain ext = true ->
         ext <> "" ->
         MediaSummary.container (PlaybackInfo.mediaInfo info) = ext)
  /\ (JS.extname filePath = "" ->
      MediaSummary.container (PlaybackInfo.mediaInfo info) = "mkv").
Proof.
  assert (G : forall e t k i,
             result (buildPlaybackInfo e filePath t k) = Returned (Some i) ->
             MediaSummary.container (PlaybackInfo.mediaInfo i)
             = extension_container filePath).
  { intros e t k i. intros H.
    destruct (buildPlaybackInfo_Some_inv _ _ _ _ _ H) as [mi [_ H']].
    clear H. rename H' into H. open_playback H.
    cbn [PlaybackInfo.mediaInfo MediaSummary.container].
    unfold extension_container, JS.truthy_str. cbv zeta.
    destruct (String.eqb (JS.slice1 (JS.extname filePath)) ""); reflexivity. }
  intros H. split; [exact (G _ _ _ _ H)|]. split; [|split].
  - intros env' title' type' info' H'.
    rewrite (G _ _ _ _ H), (G _ _ _ _ H'). reflexivity.
  - intros pre c ext -> Hc Hp Hne. rewrite (G _ _ _ _ H).
    apply extension_container_named; assumption.
  - intros E. rewrite (G _ _ _ _ H). unfold extension_container.
    rewrite E. reflexivity.
Qed.

(** The movie of the scenario: the probe reports the format
    [matroska,webm], and the container is the extension [mkv] of the path. *)
Lemma C8_witness :
  exists info,
    result (buildPlaybackInfo Scenario.world Scenario.fight_club_path
                              "Fight Club" ContentKind.movie)
    = Returned (Some info)
    /\ MediaSummary.container (PlaybackInfo.mediaInfo info) = "mkv".
Proof.
  eexists. split; [reflexivity|].
  rewrite (proj1 (C8_container_from_extension
                    Scenario.world Scenario.fight_club_path
                    "Fight Club" ContentKind.movie _ eq_refl)).
  reflexivity.
Defined.

(** ** The primitives on the texts of the scenario *)

Example toLowerCase_EAC3 : JS.toLowerCase "E-AC3" = "e-ac3".
Proof. reflexivity. Qed.

Example encode_fight_club :
  JS.encodeURIComponent "/data/movies/Fight Club (1999)/Fight Club.mkv"
  = "%2Fdata%2Fmovies%2FFight%20Club%20(1999)%2FFight%20Club.mkv".
Proof. reflexivity. Qed.

Example extname_mkv :
  JS.extname "/data/movies/Fight Club (1999)/Fight Club.mkv" = ".mkv".
Proof. reflexivity. Qed.

Example extname_dotfile : JS.extname "/home/u/.profile" = "".
Proof. reflexivity. Qed.

Example extname_dir_dot : JS.extname "/srv/show.s01/episode" = "".
Proof. reflexivity. Qed.

Example extname_trailing_slash : JS.extname "/srv/a.mp4/" = ".mp4".
Proof. reflexivity. Qed.

Example extname_dotdot : JS.extname "/srv/.." = "".
Proof. reflexivity. Qed.

Example extname_trailing_dot : JS.extname "/srv/movie." = ".".
Proof. reflexivity. Qed.

Example padStart_7 : JS.padStart (JS.String_of 7) 2 "0" = "07".
Proof. reflexivity. Qed.

Example padStart_12 : JS.padStart (JS.String_of 12) 2 "0" = "12".
Proof. reflexivity. Qed.

(** The scenario of the specification, run: the strategy is transcode, there
    is one audio track and it is selected, there are two subtitle tracks,
    and the width is 1920. *)
Example fight_club_scenario :
  exists info,
    result (getMoviePlayback Scenario.world 550) = Returned (Some info)
    /\ PlaybackInfo.needsTranscode info = true
    /\ map AudioTrack.selected (PlaybackInfo.audioTracks info) = [true]
    /\ map SubtitleTrack.streamIndex (PlaybackInfo.subtitles info) = [0; 1]
    /\ MediaSummary.width (PlaybackInfo.mediaInfo info) = 1920
    /\ calls (getMoviePlayback Scenario.world 550)
       = [Radarr_getMovieByTmdbId 550; Spawn_ffprobe Scenario.fight_club_path].
Proof. eexists. repeat split. Qed.

Example pilot_scenario :
  exists info,
    result (getEpisodePlayback Scenario.world 1399 1 1) = Returned (Some info)
    /\ PlaybackInfo.title info = "Game of Thrones - S01E01 - Winter Is Coming"
    /\ PlaybackInfo.needsTranscode info = false
    /\ MediaSummary.container (PlaybackInfo.mediaInfo info) = "mp4".
Proof. eexists. repeat split. Qed.

(** The movie of the scenario when its file has an audio stream and no video
    stream: not playable. *)
Example audio_only_scenario :
  getMoviePlayback Scenario.world_audio_only 550
  = (Returned None,
     [Radarr_getMovieByTmdbId 550; Spawn_ffprobe Scenario.fight_club_path]).
Proof. reflexivity. Qed.

(** The first episode of the show when the probe tool exits with the code 1:
    not playable, and no exception. *)
Example probe_exit_episode_scenario :
  result (getEpisodePlayback Scenario.world_probe_exit 1399 1 1) = Returned None.
Proof. reflexivity. Qed.

(** The first episode of the show when [spawn] gives a child without
    [stdout]: the entry point throws, after the spawning. *)
Example no_stdout_episode_scenario :
  getEpisodePlayback Scenario.world_no_stdout 1399 1 1
  = (Thrown,
     [Sonarr_getSeries; Sonarr_lookupSeriesByTmdbId 1399;
      Sonarr_getSeriesByTvdbId 121361; Sonarr_getEpisodes 7;
      Fetch_episodefile 91; Spawn_ffprobe Scenario.pilot_path]).
Proof. reflexivity. Qed.

(** The movie of the scenario when the probe tool ends well and prints the
    empty object: the builder throws on reading the streams. *)
Example empty_object_scenario :
  ill_shaped Scenario.world_empty_object Scenario.fight_club_path
  /\ result (getMoviePlayback Scenario.world_empty_object 550) = Thrown.
Proof.
  split; [|reflexivity].
  apply (IS_no_streams _ _ "{}" None); reflexivity.
Qed.

(** The first episode of the show with a lookup that names the series
    from its second answer on: a library of one series gives [null] after
    one lookup, and a library of two series finds the episode after two. *)
Example late_lookup_scenario :
  getEpisodePlayback Scenario.world_late_lookup 1399 1 1
  = (Returned None, [Sonarr_getSeries; Sonarr_lookupSeriesByTmdbId 1399])
  /\ exists info,
       result (getEpisodePlayback
                 (with_series Scenario.world_late_lookup
                              [Scenario.chernobyl; Scenario.thrones])
                 1399 1 1)
       = Returned (Some info)
       /\ PlaybackInfo.title info
          = "Game of Thrones - S01E01 - Winter Is Coming".
Proof. split; [reflexivity|]. eexists. split; reflexivity. Qed.

(** A path that ends in the name [S01E01.mp4] has the extension [.mp4],
    whatever its directory is. *)
Example extname_of_episode (dir : string) :
  JS.extname (dir ++ "/S01E01.mp4") = ".mp4".
Proof.
  change (dir ++ "/S01E01.mp4") with (dir ++ "/S01E0" ++ String "1" (String "." "mp4")).
  rewrite <- append_assoc.
  apply extname_named; [reflexivity | reflexivity | discriminate].
Qed.

(** * Further properties of the service and of the client *)

(** ** The stream URL names the file *)

Lemma hex_value_digit (k : nat) :
  (k < 16)%nat -> hex_value (JS.hex_digit k) = Some k.
Proof.
  intros H. do 16 (destruct k as [|k]; [reflexivity|]). lia.
Qed.

Lemma percent_decode_byte (c : ascii) (t d : string) :
  percent_decode t = Some d ->
  percent_decode (JS.encode_byte c ++ t) = Some (String c d).
Proof.
  intros H. unfold JS.encode_byte.
  destruct (JS.unreserved c) eqn:U.
  - cbn [append percent_decode].
    destruct (Ascii.eqb_spec c "%") as [-> | _]; [discriminate U|].
    rewrite H. reflexivity.
  - cbn [append percent_decode]. rewrite Ascii.eqb_refl.
    pose proof (nat_ascii_bounded c) as B.
    rewrite !hex_value_digit, H.
    + rewrite <- Nat.div_mod_eq, ascii_nat_embedding. reflexivity.
    + apply Nat.mod_upper_bound. discriminate.
    + apply Nat.Div0.div_lt_upper_bound. exact B.
Qed.

(** Percent-encoding loses nothing: the text can be read back. *)
Lemma percent_decode_encode (s : string) :
  percent_decode (JS.encodeURIComponent s) = Some s.
Proof.
  induction s as [|c s IH]; [reflexivity|].
  cbn [JS.encodeURIComponent]. apply percent_decode_byte. exact IH.
Qed.

Lemma encodeURIComponent_inj (a b : string) :
  JS.encodeURIComponent a = JS.encodeURIComponent b -> a = b.
Proof.
  intros H. apply (f_equal percent_decode) in H.
  rewrite !percent_decode_encode in H. congruence.
Qed.

Lemma append_inv_head (a b c : string) : a ++ b = a ++ c -> b = c.
Proof.
  induction a as [|x a IH]; simpl; intros H; [exact H|].
  injection H as H. apply IH. exact H.
Qed.

(** X1. The stream URL of a playback info names its file and its strategy:
    two playback infos, built in any worlds, that have the same stream URL
    are for the same file path and have the same [needsTranscode] flag. *)
Theorem X1_stream_url_names_file_and_strategy
        (env1 env2 : Env) (path1 path2 title1 title2 : string)
        (type1 type2 : ContentKind.t) (info1 info2 : PlaybackInfo.t) :
  result (buildPlaybackInfo env1 path1 title1 type1) = Returned (Some info1) ->
  result (buildPlaybackInfo env2 path2 title2 type2) = Returned (Some info2) ->
  PlaybackInfo.streamUrl info1 = PlaybackInfo.streamUrl info2 ->
  path1 = path2
  /\ PlaybackInfo.needsTranscode info1 = PlaybackInfo.needsTranscode info2.
Proof.
  intros H1 H2 E.
  destruct (buildPlaybackInfo_streamUrl _ _ _ _ _ H1) as [_ U1].
  destruct (buildPlaybackInfo_streamUrl _ _ _ _ _ H2) as [_ U2].
  rewrite U1, U2 in E.
  destruct (PlaybackInfo.needsTranscode info1),
           (PlaybackInfo.needsTranscode info2);
    cbn [stream_endpoint] in E.
  - apply append_inv_head, encodeURIComponent_inj in E. auto.
  - cbn in E. congruence.
  - cbn in E. congruence.
  - apply append_inv_head, encodeURIComponent_inj in E. auto.
Qed.

(** The movie of the scenario, built twice under two titles. *)
Lemma X1_witness :
  exists info1 info2,
    result (buildPlaybackInfo Scenario.world Scenario.fight_club_path
                              "Fight Club" ContentKind.movie)
    = Returned (Some info1)
    /\ result (buildPlaybackInfo Scenario.world Scenario.fight_club_path
                                 "Fight Club (1999)" ContentKind.movie)
       = Returned (Some info2)
    /\ PlaybackInfo.streamUrl info1 = PlaybackInfo.streamUrl info2
    /\ PlaybackInfo.needsTranscode info1 = PlaybackInfo.needsTranscode info2.
Proof.
  eexists. eexists. split; [reflexivity|]. split; [reflexivity|].
  split; [reflexivity|].
  exact (proj2 (X1_stream_url_names_file_and_strategy
                  Scenario.world Scenario.world
                  Scenario.fight_club_path Scenario.fight_club_path
                  "Fight Club" "Fight Club (1999)"
                  ContentKind.movie ContentKind.movie _ _
                  eq_refl eq_refl eq_refl)).
Defined.

(** ** Labels of the tracks *)

Lemma str_or_nonempty (x : option string) (d : string) :
  d <> "" -> JS.str_or x d <> "".
Proof.
  intros Hd. unfold JS.str_or. destruct x as [s|]; [|exact Hd].
  destruct (String.eqb_spec s ""); assumption.
Qed.

Lemma str_or_language (x : option string) :
  JS.str_or x "Unknown" = JS.str_or x "und"
  \/ (JS.str_or x "Unknown" = "Unknown" /\ JS.str_or x "und" = "und").
Proof.
  unfold JS.str_or. destruct x as [s|]; [|auto].
  destruct (String.eqb s ""); auto.
Qed.

Lemma num_or_nonzero (x : option Z) (d : Z) : d <> 0 -> JS.num_or x d <> 0.
Proof.
  intros Hd. unfold JS.num_or. destruct x as [n|]; [|exact Hd].
  destruct (Z.eqb_spec n 0); assumption.
Qed.

Lemma audio_tracks_labelled (l : list MediaStream.t) (i a : Z) (t : AudioTrack.t) :
  In t (fst (JS.map_from audioTrackOf i a l)) -> audio_labelled t.
Proof.
  revert i a. induction l as [|s r IH]; intros i a; simpl; [intros []|].
  specialize (IH (i + 1) (a + 1)).
  destruct (JS.map_from audioTrackOf (i + 1) (a + 1) r) as [ys st].
  simpl in *. intros [<- | H]; [|exact (IH H)].
  unfold audio_labelled. cbn [AudioTrack.language AudioTrack.languageCode
    AudioTrack.displayTitle AudioTrack.channels].
  repeat split.
  - apply str_or_nonempty. discriminate.
  - apply str_or_nonempty. discriminate.
  - apply str_or_nonempty, str_or_nonempty. discriminate.
  - apply num_or_nonzero. discriminate.
  - apply str_or_language.
Qed.

Lemma subtitles_labelled (l : list MediaStream.t) (i a : Z) (t : SubtitleTrack.t) :
  In t (fst (JS.map_from subtitleOf i a l)) -> subtitle_labelled t.
Proof.
  revert i a. induction l as [|s r IH]; intros i a; simpl; [intros []|].
  specialize (IH (i + 1) (a + 1)).
  destruct (JS.map_from subtitleOf (i + 1) (a + 1) r) as [ys st].
  simpl in *. intros [<- | H]; [|exact (IH H)].
  unfold subtitle_labelled. cbn [SubtitleTrack.language
    SubtitleTrack.languageCode SubtitleTrack.displayTitle].
  repeat split.
  - apply str_or_nonempty. discriminate.
  - apply str_or_nonempty. discriminate.
  - apply str_or_nonempty, str_or_nonempty. discriminate.
  - apply str_or_language.
Qed.

(** X2. Every audio track and every subtitle track of a playback info has a
    non-empty language, language code and display title, whatever tags the
    stream has or lacks; its language and its code are the same tag, or they
    are the pair [Unknown] / [und]; and an audio track never has zero
    channels. *)
Theorem X2_tracks_are_labelled
        (env : Env) (filePath title : string) (type : ContentKind.t)
        (info : PlaybackInfo.t) :
  result (buildPlaybackInfo env filePath title type) = Returned (Some info) ->
  (forall t, In t (PlaybackInfo.audioTracks info) -> audio_labelled t)
  /\ (forall t, In t (PlaybackInfo.subtitles info) -> subtitle_labelled t).
Proof.
  intros H.
  destruct (buildPlaybackInfo_Some_inv _ _ _ _ _ H) as [mi [_ H']].
  clear H. rename H' into H. open_playback H.
  cbn [PlaybackInfo.audioTracks PlaybackInfo.subtitles]. unfold JS.map_st.
  split; intros t Ht.
  - exact (audio_tracks_labelled _ _ _ _ Ht).
  - exact (subtitles_labelled _ _ _ _ Ht).
Qed.

(** The subtitle stream of the episode of the scenario has no language tag:
    its track is labelled [Unknown] / [und] / [Subtitle 1]. *)
Lemma X2_witness :
  exists info t,
    result (buildPlaybackInfo Scenario.world Scenario.pilot_path
                              "Pilot" ContentKind.episode)
    = Returned (Some info)
    /\ PlaybackInfo.subtitles info = [t]
    /\ SubtitleTrack.displayTitle t = "Subtitle 1"
    /\ subtitle_labelled t.
Proof.
  eexists. eexists. split; [reflexivity|]. split; [reflexivity|].
  split; [reflexivity|].
  apply (proj2 (X2_tracks_are_labelled
                  Scenario.world Scenario.pilot_path "Pilot"
                  ContentKind.episode _ eq_refl)).
  left. reflexivity.
Defined.

(** ** The strategy, read off the playback info alone *)

Lemma audio_tracks_head_codec (s : MediaStream.t) (r : list MediaStream.t) :
  exists t rest,
    fst (JS.map_st audioTrackOf 0 (s :: r)) = t :: rest
    /\ AudioTrack.codec t = MediaStream.codec_name s
    /\ AudioTrack.selected t = true.
Proof.
  unfold JS.map_st. simpl.
  destruct (JS.map_from audioTrackOf 1 1 r) as [ys st].
  simpl. eexists _, ys. repeat split.
Qed.

(** X3. The strategy can be read off the playback info alone: it is direct
    exactly when the list of audio tracks starts with a track, the selected
    one, whose codec is in the allow-list up to the case of its letters.
    The audio codec of the summary is never empty: it is the codec of that
    first track when this is not empty, and [unknown] when there is no audio
    track. *)
Theorem X3_strategy_follows_selected_track
        (env : Env) (filePath title : string) (type : ContentKind.t)
        (info : PlaybackInfo.t) :
  result (buildPlaybackInfo env filePath title type) = Returned (Some info) ->
  (PlaybackInfo.needsTranscode info = false
   <-> exists t rest c,
         PlaybackInfo.audioTracks info = t :: rest
         /\ AudioTrack.selected t = true
         /\ In c BROWSER_COMPATIBLE_AUDIO
         /\ eq_nocase (AudioTrack.codec t) c)
  /\ MediaSummary.audioCodec (PlaybackInfo.mediaInfo info) <> ""
  /\ (forall t rest,
         PlaybackInfo.audioTracks info = t :: rest ->
         AudioTrack.codec t <> "" ->
         MediaSummary.audioCodec (PlaybackInfo.mediaInfo info)
         = AudioTrack.codec t)
  /\ (PlaybackInfo.audioTracks info = [] ->
      MediaSummary.audioCodec (PlaybackInfo.mediaInfo info) = "unknown").
Proof.
  intros H.
  destruct (buildPlaybackInfo_Some_inv _ _ _ _ _ H) as [mi [_ H']].
  clear H. rename H' into H. open_playback H.
  cbn [PlaybackInfo.needsTranscode PlaybackInfo.audioTracks
       PlaybackInfo.mediaInfo MediaSummary.audioCodec].
  rewrite negb_false_iff, compatible_test, find_filter.
  destruct (JS.filter (is_type CodecType.audio) (MediaInfo.streams mi))
    as [|s r] eqn:F.
  - cbn [hd_error option_map JS.str_or]. repeat split.
    + intros [s [c [E _]]]. discriminate E.
    + intros [t [rest [c [E _]]]]. discriminate E.
    + discriminate.
    + intros t rest E. discriminate E.
  - destruct (audio_tracks_head_codec s r) as [t [rest [Ht [Hc Hs]]]].
    rewrite Ht. cbn [hd_error option_map]. repeat split.
    + intros [s' [c [E [Hin He]]]]. injection E as <-.
      exists t, rest, c. rewrite Hc. auto.
    + intros [t' [rest' [c [E [_ [Hin He]]]]]]. injection E as <- <-.
      exists s, c. rewrite <- Hc. auto.
    + apply str_or_nonempty. discriminate.
    + intros t' rest' E Hne. injection E as <- <-. rewrite Hc in *.
      unfold JS.str_or. destruct (String.eqb_spec (MediaStream.codec_name s) "");
        [contradiction | reflexivity].
    + discriminate.
Qed.

(** The episode of the scenario: its first track has the codec [AAC]. *)
Lemma X3_witness :
  exists info,
    result (buildPlaybackInfo Scenario.world Scenario.pilot_path
                              "Pilot" ContentKind.episode)
    = Returned (Some info)
    /\ MediaSummary.audioCodec (PlaybackInfo.mediaInfo info) <> "".
Proof.
  eexists. split; [reflexivity|].
  exact (proj1 (proj2 (X3_strategy_follows_selected_track
                         Scenario.world Scenario.pilot_path "Pilot"
                         ContentKind.episode _ eq_refl))).
Defined.

(** ** The calls the service makes *)

Lemma in_calls_bind {A B : Type} (m : M A) (f : A -> M B) (c : Call) :
  In c (calls (bind m f)) ->
  In c (calls m) \/ exists a, result m = Returned a /\ In c (calls (f a)).
Proof.
  rewrite calls_bind. destruct (result m) as [a|] eqn:E; [|auto].
  intros H. apply in_app_or in H. destruct H; eauto.
Qed.

Lemma calls_call {A : Type} (c : Call) (r : outcome A) : calls (call c r) = [c].
Proof. reflexivity. Qed.

Lemma calls_probeFile (env : Env) (filePath : string) :
  calls (probeFile env filePath)
  = if fs_existsSync env filePath then [Spawn_ffprobe filePath] else [].
Proof.
  unfold probeFile. destruct (fs_existsSync env filePath); [|reflexivity].
  cbn [negb]. rewrite calls_bind, result_call, calls_call.
  destruct (ffprobe env filePath) as [| | |[[| |]|] stdout]; try reflexivity.
  destruct (JSON_parse env stdout); reflexivity.
Qed.

Lemma calls_buildPlaybackInfo (env : Env) (filePath title : string)
      (type : ContentKind.t) :
  calls (buildPlaybackInfo env filePath title type)
  = if fs_existsSync env filePath then [Spawn_ffprobe filePath] else [].
Proof.
  unfold buildPlaybackInfo. rewrite calls_bind, calls_probeFile.
  destruct (result (probeFile env filePath)) as [[mi|]|];
    [| apply app_nil_r | reflexivity].
  destruct mi as [[streams|] [format|]];
    cbn [ProbeOutput.streams ProbeOutput.format];
    try destruct (JS.find (is_type CodecType.video) streams);
    apply app_nil_r.
Qed.

Lemma getMoviePlayback_calls (env : Env) (tmdbId : Z) :
  calls (getMoviePlayback env tmdbId)
  = Radarr_getMovieByTmdbId tmdbId
      :: match radarr_getMovieByTmdbId env tmdbId with
         | Returned (Some m) =>
             match RadarrMovie.hasFile m, RadarrMovie.movieFile_path m with
             | true, Some filePath =>
                 if JS.truthy_str filePath
                 then calls (buildPlaybackInfo env filePath (RadarrMovie.title m)
                                               ContentKind.movie)
                 else []
             | _, _ => []
             end
         | _ => []
         end.
Proof.
  unfold getMoviePlayback. rewrite calls_bind, result_call, calls_call.
  destruct (radarr_getMovieByTmdbId env tmdbId) as [[m|]|]; try reflexivity.
  destruct (RadarrMovie.hasFile m), (RadarrMovie.movieFile_path m) as [p|];
    try reflexivity.
  destruct (JS.truthy_str p); reflexivity.
Qed.

Lemma findSeries_calls_in (env : Env) (tmdbId : Z)
      (allSeries : list SonarrSeries.t) (c : Call) :
  In c (calls (findSeries env tmdbId allSeries)) ->
  c = Sonarr_lookupSeriesByTmdbId tmdbId
  \/ exists tvdbId, c = Sonarr_getSeriesByTvdbId tvdbId.
Proof.
  unfold findSeries. generalize 0%nat.
  induction allSeries as [|s rest IH]; intros round; [intros []|].
  cbn [findSeries_from]. intros H. apply in_calls_bind in H.
  destruct H as [H | [lookup [_ H]]].
  - destruct H as [<- | []]. auto.
  - destruct lookup as [lookup|]; [|exact (IH _ H)].
    destruct (JS.truthy_num (SeriesLookup.tvdbId lookup)); [|exact (IH _ H)].
    destruct H as [<- | []]. eauto.
Qed.

(** The loop finds a series in the first round whose lookup names one,
    after one lookup for every round up to it. *)
Lemma findSeries_Some (env : Env) (tmdbId : Z)
      (allSeries : list SonarrSeries.t) (series : SonarrSeries.t) :
  result (findSeries env tmdbId allSeries) = Returned (Some series) ->
  exists round lookup,
    (round < List.length allSeries)%nat
    /\ misses_before env tmdbId round
    /\ sonarr_lookupSeriesByTmdbId env round tmdbId = Returned (Some lookup)
    /\ SeriesLookup.tvdbId lookup <> 0
    /\ sonarr_getSeriesByTvdbId env (SeriesLookup.tvdbId lookup)
       = Returned (Some series)
    /\ calls (findSeries env tmdbId allSeries)
       = (repeat (Sonarr_lookupSeriesByTmdbId tmdbId) (S round)
            ++ [Sonarr_getSeriesByTvdbId (SeriesLookup.tvdbId lookup)])%list.
Proof.
  intros H.
  destruct (rounds_cases env tmdbId (List.length allSeries))
    as [M | [round [Hr [Hm [[lookup [L T]] | L]]]]].
  - rewrite (findSeries_miss _ _ _ M) in H. discriminate H.
  - pose proof (findSeries_hit _ _ _ _ _ Hr Hm L T) as E.
    rewrite E in H. rewrite E. exists round, lookup.
    repeat split; try assumption.
  - rewrite (findSeries_throw _ _ _ _ Hr Hm L) in H. discriminate H.
Qed.

(** X4. The probe tool is spawned only for a file the request resolves to and
    that exists, and at most once per request: every [ffprobe] call of
    [getMoviePlayback] or [getEpisodePlayback] is for a path the library
    manager gave for the title, which [fs.existsSync] accepts. *)
Theorem X4_probe_only_resolved_existing_file
        (env : Env) (req : Request) :
  (forall filePath,
      In (Spawn_ffprobe filePath) (calls (playback env req)) ->
      fs_existsSync env filePath = true
      /\ exists title, resolves env req filePath title)
  /\ (List.length (List.filter is_spawn (calls (playback env req))) <= 1)%nat.
Proof.
  assert (B : forall p t k c,
             In c (calls (buildPlaybackInfo env p t k)) ->
             c = Spawn_ffprobe p /\ fs_existsSync env p = true).
  { intros p t k c. rewrite calls_buildPlaybackInfo.
    destruct (fs_existsSync env p); [|intros []].
    intros [<- | []]. auto. }
  assert (B1 : forall p t k,
             (List.length (List.filter is_spawn
                             (calls (buildPlaybackInfo env p t k))) <= 1)%nat).
  { intros p t k. rewrite calls_buildPlaybackInfo.
    destruct (fs_existsSync env p); simpl; lia. }
  destruct req as [tmdbId | tmdbId season episode]; cbn [playback].
  - rewrite getMoviePlayback_calls.
    destruct (radarr_getMovieByTmdbId env tmdbId) as [[m|]|] eqn:R;
      try (split; [intros p [H | []]; discriminate H | simpl; lia]).
    destruct (RadarrMovie.hasFile m) eqn:Hh;
      try (split; [intros p [H | []]; discriminate H | simpl; lia]).
    destruct (RadarrMovie.movieFile_path m) as [path|] eqn:Hp;
      try (split; [intros p [H | []]; discriminate H | simpl; lia]).
    destruct (JS.truthy_str path) eqn:T;
      try (split; [intros p [H | []]; discriminate H | simpl; lia]).
    split.
    + intros p [H | H]; [discriminate H|].
      destruct (B _ _ _ _ H) as [E Hex]. injection E as ->.
      split; [exact Hex|]. exists (RadarrMovie.title m).
      unfold RadarrMovie.movieFile_path in Hp.
      destruct (RadarrMovie.movieFile m) as [f|] eqn:Hf; [|discriminate].
      injection Hp as <-.
      apply (ResolvesMovie env tmdbId m f R Hh Hf).
      intros E. rewrite E in T. discriminate T.
    + cbn [List.filter is_spawn]. apply B1.
  - unfold getEpisodePlayback.
    rewrite calls_bind, result_call, calls_call.
    destruct (sonarr_getSeries env) as [l|] eqn:Hs;
      [|split; [intros p [H | []]; discriminate H | simpl; lia]].
    cbn [app]. rewrite calls_bind.
    assert (NS : List.filter is_spawn (calls (findSeries env tmdbId l)) = []).
    { apply filter_all_false. intros c Hc.
      destruct (findSeries_calls_in _ _ _ _ Hc) as [-> | [tv ->]]; reflexivity. }
    assert (NI : forall p, ~ In (Spawn_ffprobe p)
                              (calls (findSeries env tmdbId l))).
    { intros p Hc.
      destruct (findSeries_calls_in _ _ _ _ Hc) as [E | [tv E]]; discriminate E. }
    destruct (result (findSeries env tmdbId l)) as [[series|]|] eqn:Hf.
    2:{ cbn [calls ret snd]. rewrite app_nil_r. split.
        - intros p [H | H]; [discriminate H | exact (False_ind _ (NI p H))].
        - cbn [List.filter is_spawn]. rewrite NS. simpl. lia. }
    2:{ split.
        - intros p [H | H]; [discriminate H | exact (False_ind _ (NI p H))].
        - cbn [List.filter is_spawn]. rewrite NS. simpl. lia. }
    destruct (findSeries_Some _ _ _ _ Hf)
      as [round [lookup [Hr [Hm [Hl [Ht [Hg _]]]]]]].
    assert (SF : series_found env tmdbId series)
      by exact (SeriesFound env tmdbId series l round lookup
                            Hs Hr Hm Hl Ht Hg).
    rewrite calls_bind, result_call, calls_call.
    destruct (sonarr_getEpisodes env (SonarrSeries.id series)) as [eps|] eqn:He.
    2:{ split.
        - intros p [H | H]; [discriminate H|].
          apply in_app_or in H. destruct H as [H | [H | []]];
            [exact (False_ind _ (NI p H)) | discriminate H].
        - cbn [List.filter is_spawn]. rewrite filter_app, NS. simpl. lia. }
    cbv zeta.
    destruct (JS.find _ eps) as [ep|] eqn:Hfind.
    2:{ cbn [calls ret snd app]. split.
        - intros p [H | H]; [discriminate H|].
          apply in_app_or in H. destruct H as [H | [H | []]];
            [exact (False_ind _ (NI p H)) | discriminate H].
        - cbn [List.filter is_spawn]. rewrite filter_app, NS. simpl. lia. }
    assert (EF : episode_found env tmdbId season episode series ep)
      by exact (EpisodeFound env tmdbId season episode series ep eps SF He Hfind).
    destruct (SonarrEpisode.hasFile ep) eqn:Hh.
    2:{ cbn [negb orb calls ret snd app]. split.
        - intros p [H | H]; [discriminate H|].
          apply in_app_or in H. destruct H as [H | [H | []]];
            [exact (False_ind _ (NI p H)) | discriminate H].
        - cbn [List.filter is_spawn]. rewrite filter_app, NS. simpl. lia. }
    destruct (JS.truthy_num (SonarrEpisode.episodeFileId ep)) eqn:Hi.
    2:{ cbn [negb orb calls ret snd app]. split.
        - intros p [H | H]; [discriminate H|].
          apply in_app_or in H. destruct H as [H | [H | []]];
            [exact (False_ind _ (NI p H)) | discriminate H].
        - cbn [List.filter is_spawn]. rewrite filter_app, NS. simpl. lia. }
    cbn [negb orb]. rewrite calls_bind, getEpisodeFilePath_result.
    assert (CF : calls (getEpisodeFilePath env (SonarrSeries.id series)
                                           (SonarrEpisode.episodeFileId ep))
                 = [Fetch_episodefile (SonarrEpisode.episodeFileId ep)]).
    { unfold getEpisodeFilePath. rewrite calls_bind, result_call, calls_call.
      destruct (fetch_episodefile env (SonarrEpisode.episodeFileId ep))
        as [|[|] [path|]]; reflexivity. }
    rewrite CF.
    assert (F0 : (forall p, In (Spawn_ffprobe p)
                     (Sonarr_getSeries
                        :: calls (findSeries env tmdbId l)
                        ++ [Sonarr_getEpisodes (SonarrSeries.id series)]
                        ++ [Fetch_episodefile (SonarrEpisode.episodeFileId ep)]
                        ++ []) -> False)
                 /\ (List.length
                       (List.filter is_spawn
                          (Sonarr_getSeries
                             :: calls (findSeries env tmdbId l)
                             ++ [Sonarr_getEpisodes (SonarrSeries.id series)]
                             ++ [Fetch_episodefile (SonarrEpisode.episodeFileId ep)]
                             ++ [])) <= 1)%nat).
    { split.
      - intros p [H | H]; [discriminate H|].
        apply in_app_or in H. destruct H as [H | [H | [H | []]]];
          [exact (NI p H) | discriminate H | discriminate H].
      - cbn [List.filter is_spawn]. rewrite filter_app, NS. simpl. lia. }
    destruct F0 as [F1 F2].
    destruct (fetch_episodefile env (SonarrEpisode.episodeFileId ep))
      as [|[|] [path|]] eqn:Hfetch;
      try (cbn [calls ret snd]; split;
           [intros p H; exact (False_ind _ (F1 p H)) | exact F2]).
    destruct (JS.truthy_str path) eqn:T; cbn [negb].
    2:{ cbn [calls ret snd]; split;
          [intros p H; exact (False_ind _ (F1 p H)) | exact F2]. }
    split.
    + intros p [H | H]; [discriminate H|].
      apply in_app_or in H. destruct H as [H | H];
        [exact (False_ind _ (NI p H))|].
      destruct H as [H | [H | H]]; [discriminate H | discriminate H |].
      destruct (B _ _ _ _ H) as [E Hex]. injection E as ->.
      split; [exact Hex|].
      exists (episodeTitle series season episode ep).
      apply (ResolvesEpisode env tmdbId season episode series ep path EF Hh);
        [ | exact Hfetch | ].
      * intros Z0. unfold JS.truthy_num in Hi. rewrite Z0 in Hi. discriminate Hi.
      * intros E. rewrite E in T. discriminate T.
    + cbn [List.filter is_spawn]. rewrite filter_app, NS.
      cbn [app List.filter is_spawn]. apply B1.
Qed.

(** The probe of the movie of the scenario. *)
Lemma X4_witness :
  In (Spawn_ffprobe Scenario.fight_club_path)
     (calls (getMoviePlayback Scenario.world 550))
  /\ fs_existsSync Scenario.world Scenario.fight_club_path = true
  /\ (List.length (List.filter is_spawn
                     (calls (getMoviePlayback Scenario.world 550))) <= 1)%nat.
Proof.
  assert (I : In (Spawn_ffprobe Scenario.fight_club_path)
                 (calls (getMoviePlayback Scenario.world 550)))
    by (right; left; reflexivity).
  pose proof (X4_probe_only_resolved_existing_file
                Scenario.world (MovieRequest 550)) as [P L].
  split; [exact I|]. split; [exact (proj1 (P _ I)) | exact L].
Defined.

(** What a successful episode request went through. *)
Lemma getEpisodePlayback_Some (env : Env) (tmdbId season episode : Z)
      (info : PlaybackInfo.t) :
  result (getEpisodePlayback env tmdbId season episode) = Returned (Some info) ->
  exists allSeries round series ep lookup path,
    sonarr_getSeries env = Returned allSeries
    /\ (round < List.length allSeries)%nat
    /\ misses_before env tmdbId round
    /\ episode_found env tmdbId season episode series ep
    /\ sonarr_lookupSeriesByTmdbId env round tmdbId = Returned (Some lookup)
    /\ SeriesLookup.tvdbId lookup <> 0
    /\ SonarrEpisode.hasFile ep = true
    /\ SonarrEpisode.episodeFileId ep <> 0
    /\ fetch_episodefile env (SonarrEpisode.episodeFileId ep)
       = Response true (Some path)
    /\ path <> ""
    /\ result (buildPlaybackInfo env path
                                 (episodeTitle series season episode ep)
                                 ContentKind.episode)
       = Returned (Some info)
    /\ calls (getEpisodePlayback env tmdbId season episode)
       = (Sonarr_getSeries
            :: repeat (Sonarr_lookupSeriesByTmdbId tmdbId) (S round)
            ++ [Sonarr_getSeriesByTvdbId (SeriesLookup.tvdbId lookup);
                Sonarr_getEpisodes (SonarrSeries.id series);
                Fetch_episodefile (SonarrEpisode.episodeFileId ep)]
            ++ calls (buildPlaybackInfo env path
                                        (episodeTitle series season episode ep)
                                        ContentKind.episode))%list.
Proof.
  unfold getEpisodePlayback.
  rewrite result_bind, calls_bind, result_call, calls_call.
  destruct (sonarr_getSeries env) as [l|] eqn:Hs; try discriminate.
  cbv beta iota. rewrite result_bind, calls_bind.
  destruct (result (findSeries env tmdbId l)) as [[series|]|] eqn:Hf;
    try discriminate.
  destruct (findSeries_Some _ _ _ _ Hf)
    as [round [lookup [Hr [Hm [Hl [Ht [Hg Hc]]]]]]].
  rewrite Hc, result_bind, calls_bind, result_call, calls_call.
  destruct (sonarr_getEpisodes env (SonarrSeries.id series)) as [eps|] eqn:He;
    try discriminate.
  cbv beta iota zeta.
  destruct (JS.find _ eps) as [ep|] eqn:Hfind; try discriminate.
  destruct (SonarrEpisode.hasFile ep) eqn:Hh; try discriminate.
  destruct (JS.truthy_num (SonarrEpisode.episodeFileId ep)) eqn:Hi;
    try discriminate.
  cbn [negb orb]. rewrite result_bind, calls_bind, getEpisodeFilePath_result.
  assert (CF : calls (getEpisodeFilePath env (SonarrSeries.id series)
                                         (SonarrEpisode.episodeFileId ep))
               = [Fetch_episodefile (SonarrEpisode.episodeFileId ep)]).
  { unfold getEpisodeFilePath. rewrite calls_bind, result_call, calls_call.
    destruct (fetch_episodefile env (SonarrEpisode.episodeFileId ep))
      as [|[|] [path|]]; reflexivity. }
  rewrite CF.
  destruct (fetch_episodefile env (SonarrEpisode.episodeFileId ep))
    as [|[|] [path|]] eqn:Hfetch; try discriminate.
  cbv beta iota.
  destruct (JS.truthy_str path) eqn:T; try discriminate.
  cbn [negb]. intros H.
  exists l, round, series, ep, lookup, path.
  assert (EF : episode_found env tmdbId season episode series ep).
  { apply (EpisodeFound _ _ _ _ _ _ eps); [|exact He|exact Hfind].
    exact (SeriesFound env tmdbId series l round lookup Hs Hr Hm Hl Ht Hg). }
  repeat split; try assumption; try reflexivity.
  - intros Z0. unfold JS.truthy_num in Hi. rewrite Z0 in Hi. discriminate Hi.
  - intros E. rewrite E in T. discriminate T.
  - cbn [app]. rewrite <- !app_assoc. reflexivity.
Qed.

(** A playback info is built only for a file that exists. *)
Lemma buildPlaybackInfo_Some_calls (env : Env) (filePath title : string)
      (type : ContentKind.t) (info : PlaybackInfo.t) :
  result (buildPlaybackInfo env filePath title type) = Returned (Some info) ->
  calls (buildPlaybackInfo env filePath title type) = [Spawn_ffprobe filePath]
  /\ exists mediaInfo,
       probed env filePath mediaInfo
       /\ has_stream CodecType.video mediaInfo.
Proof.
  intros H. rewrite calls_buildPlaybackInfo.
  destruct (buildPlaybackInfo_Some_inv _ _ _ _ _ H) as [mi [P Hp]].
  pose proof P as [Hex _]. rewrite Hex. split; [reflexivity|].
  exists mi. split; [exact P|].
  unfold playbackOf in Hp.
  destruct (JS.find (is_type CodecType.video) (MediaInfo.streams mi))
    as [v|] eqn:Hv; [|discriminate].
  destruct (find_Some _ _ _ Hv) as [Hin Hk].
  exists v. split; [exact Hin | apply is_type_true; exact Hk].
Qed.

(** X5. A successful episode request makes the call for the series list,
    then the cross-reference lookup once in every round of the loop up to
    the first round whose lookup names a series (the rounds before it name
    none, and there are at most as many rounds as the library has series),
    and then exactly one call each for the series, its episodes, the
    episode file and the probe of the file of the playback info: five
    calls and the lookups. *)
Theorem X5_episode_success_costs_five_calls_and_the_lookups
        (env : Env) (tmdbId season episode : Z) (info : PlaybackInfo.t) :
  result (getEpisodePlayback env tmdbId season episode) = Returned (Some info) ->
  exists allSeries round lookup seriesId episodeFileId,
    sonarr_getSeries env = Returned allSeries
    /\ (round < List.length allSeries)%nat
    /\ misses_before env tmdbId round
    /\ sonarr_lookupSeriesByTmdbId env round tmdbId = Returned (Some lookup)
    /\ SeriesLookup.tvdbId lookup <> 0
    /\ calls (getEpisodePlayback env tmdbId season episode)
       = (Sonarr_getSeries
            :: repeat (Sonarr_lookupSeriesByTmdbId tmdbId) (S round)
            ++ [Sonarr_getSeriesByTvdbId (SeriesLookup.tvdbId lookup);
                Sonarr_getEpisodes seriesId;
                Fetch_episodefile episodeFileId;
                Spawn_ffprobe (PlaybackInfo.filePath info)])%list.
Proof.
  intros H.
  destruct (getEpisodePlayback_Some _ _ _ _ _ H)
    as [l [round [series [ep [lookup [path
          [Hs [Hr [Hm [_ [Hl [Ht [_ [_ [_ [_ [Hb Hc]]]]]]]]]]]]]]]]].
  exists l, round, lookup, (SonarrSeries.id series),
         (SonarrEpisode.episodeFileId ep).
  repeat (split; [assumption|]).
  rewrite Hc, (proj1 (buildPlaybackInfo_Some_calls _ _ _ _ _ Hb)).
  rewrite (buildPlaybackInfo_filePath _ _ _ _ _ Hb). reflexivity.
Qed.

(** The first episode of the show in a library of two series, with a
    lookup that names the series when it is asked the second time: seven
    calls, two of them lookups. *)
Lemma X5_witness :
  let env := with_series Scenario.world_late_lookup
               [Scenario.chernobyl; Scenario.thrones] in
  exists info,
    result (getEpisodePlayback env 1399 1 1) = Returned (Some info)
    /\ calls (getEpisodePlayback env 1399 1 1)
       = [Sonarr_getSeries;
          Sonarr_lookupSeriesByTmdbId 1399;
          Sonarr_lookupSeriesByTmdbId 1399;
          Sonarr_getSeriesByTvdbId 121361;
          Sonarr_getEpisodes 7;
          Fetch_episodefile 91;
          Spawn_ffprobe Scenario.pilot_path].
Proof.
  intros env. eexists. split; [reflexivity|].
  destruct (X5_episode_success_costs_five_calls_and_the_lookups
              env 1399 1 1 _ eq_refl)
    as [l [round [lookup [sid [fid [_ [_ [_ [_ [_ _]]]]]]]]]].
  reflexivity.
Defined.

(** X6. When the cross-reference lookup names no series in any round,
    [getEpisodePlayback] returns [null] after repeating the same lookup once
    for every series of the library: the calls are the series list followed
    by as many lookups of the show id as the list has series, and nothing
    else. *)
Theorem X6_lookup_miss_costs_one_lookup_per_series
        (env : Env) (tmdbId season episode : Z)
        (allSeries : list SonarrSeries.t) :
  sonarr_getSeries env = Returned allSeries ->
  (forall round, (round < List.length allSeries)%nat ->
                 lookup_misses (sonarr_lookupSeriesByTmdbId env round tmdbId)) ->
  getEpisodePlayback env tmdbId season episode
  = (Returned None,
     Sonarr_getSeries
       :: repeat (Sonarr_lookupSeriesByTmdbId tmdbId) (List.length allSeries)).
Proof.
  intros Hs Hm. unfold getEpisodePlayback, bind, call at 1. rewrite Hs.
  rewrite (findSeries_miss _ _ _ Hm). cbn [ret]. rewrite app_nil_r.
  reflexivity.
Qed.

(** The world of the scenario with three series and a lookup that finds
    nothing: three lookups of the show 1399. *)
Lemma X6_witness :
  let env := with_series Scenario.world_no_lookup
               [Scenario.thrones; SonarrSeries.mk 8 "Chernobyl";
                SonarrSeries.mk 9 "Dark"] in
  (forall round, lookup_misses (sonarr_lookupSeriesByTmdbId env round 1399))
  /\ calls (getEpisodePlayback env 1399 1 1)
     = [Sonarr_getSeries; Sonarr_lookupSeriesByTmdbId 1399;
        Sonarr_lookupSeriesByTmdbId 1399; Sonarr_lookupSeriesByTmdbId 1399].
Proof.
  intros env.
  assert (Hm : forall round,
             lookup_misses (sonarr_lookupSeriesByTmdbId env round 1399))
    by (intros round; left; reflexivity).
  split; [exact Hm|].
  rewrite (X6_lookup_miss_costs_one_lookup_per_series
             env 1399 1 1 _ eq_refl (fun round _ => Hm round)).
  reflexivity.
Defined.

(** ** Exceptions *)

Lemma truthy_num_spec (n : Z) : JS.truthy_num n = true <-> n <> 0.
Proof.
  unfold JS.truthy_num. destruct (Z.eqb_spec n 0); simpl;
    split; congruence.
Qed.

Lemma playback_resolved_kind (env : Env) (req : Request)
      (filePath title : string) :
  resolves env req filePath title ->
  result (playback env req)
  = result (buildPlaybackInfo env filePath title (kind_of req)).
Proof.
  intros [tmdbId m f Hm Hh Hf Hp | tmdbId season episode series ep path F Hh Hi Hf Hp].
  - simpl. rewrite (getMoviePlayback_result _ _ _ Hm).
    unfold RadarrMovie.movieFile_path. rewrite Hh, Hf.
    rewrite (truthy_str_true _ Hp). reflexivity.
  - simpl.
    rewrite (getEpisodePlayback_found _ _ _ _ _ _ F), Hh, Hf.
    rewrite (truthy_num_true _ Hi), (truthy_str_true _ Hp). reflexivity.
Qed.

(** A Sonarr call that throws makes the episode entry point throw. *)
Lemma sonarr_throws_Thrown (env : Env) (tmdbId season episode : Z) :
  sonarr_throws env tmdbId ->
  result (getEpisodePlayback env tmdbId season episode) = Thrown.
Proof.
  intros [Hs | l round Hs Hr Hm L | l round lookup Hs Hr Hm L T G
          | series SF He].
  - unfold getEpisodePlayback. rewrite result_bind, result_call, Hs.
    reflexivity.
  - unfold getEpisodePlayback. rewrite result_bind, result_call, Hs.
    cbv beta iota.
    rewrite result_bind, (findSeries_throw _ _ _ _ Hr Hm L). reflexivity.
  - unfold getEpisodePlayback. rewrite result_bind, result_call, Hs.
    cbv beta iota.
    rewrite result_bind, (findSeries_hit _ _ _ _ _ Hr Hm L T).
    cbn [result fst]. rewrite G. reflexivity.
  - assert (Hs : exists l, sonarr_getSeries env = Returned l)
      by (destruct SF as [l ? ? Hs]; exists l; exact Hs).
    destruct Hs as [l Hs].
    unfold getEpisodePlayback. rewrite result_bind, result_call, Hs.
    cbv beta iota.
    rewrite result_bind, (findSeries_found _ _ _ _ SF Hs). cbv beta iota.
    rewrite result_bind, result_call, He. reflexivity.
Qed.

(** The loop throws where the lookup of its deciding round throws, or the
    series call for the series it names. *)
Lemma findSeries_Thrown (env : Env) (tmdbId : Z)
      (allSeries : list SonarrSeries.t) :
  sonarr_getSeries env = Returned allSeries ->
  result (findSeries env tmdbId allSeries) = Thrown ->
  sonarr_throws env tmdbId.
Proof.
  intros Hs H.
  destruct (rounds_cases env tmdbId (List.length allSeries))
    as [M | [round [Hr [Hm [[lookup [L T]] | L]]]]].
  - rewrite (findSeries_miss _ _ _ M) in H. discriminate H.
  - rewrite (findSeries_hit _ _ _ _ _ Hr Hm L T) in H. cbn [result fst] in H.
    exact (ThrowsGetSeriesByTvdbId env tmdbId allSeries round lookup
                                   Hs Hr Hm L T H).
  - exact (ThrowsLookup env tmdbId allSeries round Hs Hr Hm L).
Qed.

(** X7. The service throws what the library manager throws, and what the
    probe of the file of the request throws, and nothing else.  The
    builder throws exactly where the spawning of the probe tool throws
    ([spawn] throws, or gives a child without [stdout]) or the probe tool
    ends well with an output that has no streams, or has a video stream and
    no format; the ['error'] event, an exit code other than zero and an
    output that cannot be parsed do not make it throw.
    [getMoviePlayback] throws exactly when the Radarr call throws or the
    builder throws on the file the request resolves to.
    [getEpisodePlayback] throws exactly when one of the Sonarr calls it
    reaches throws or the builder throws on the file the request resolves
    to.  [getEpisodeFilePath] never throws.  (The streams and the format
    that a probe output has are of the declared interfaces, and paths are
    well-formed text, on which [encodeURIComponent] does not throw.) *)
Theorem X7_throws_what_the_library_manager_or_the_probe_throws (env : Env) :
  (forall filePath title type,
      result (buildPlaybackInfo env filePath title type) = Thrown
      <-> spawn_throws env filePath \/ ill_shaped env filePath)
  /\ (forall req,
         result (playback env req) = Thrown
         <-> match req with
             | MovieRequest tmdbId =>
                 radarr_getMovieByTmdbId env tmdbId = Thrown
             | EpisodeRequest tmdbId _ _ => sonarr_throws env tmdbId
             end
             \/ exists filePath title,
                  resolves env req filePath title
                  /\ (spawn_throws env filePath \/ ill_shaped env filePath))
  /\ (forall seriesId episodeFileId,
         result (getEpisodeFilePath env seriesId episodeFileId) <> Thrown).
Proof.
  split; [intros p t k; apply buildPlaybackInfo_Thrown|]. split.
  - intros req. split.
    + destruct req as [tmdbId | tmdbId season episode]; cbn [playback].
      * unfold getMoviePlayback. rewrite result_bind, result_call.
        destruct (radarr_getMovieByTmdbId env tmdbId) as [[m|]|] eqn:Hm;
          try discriminate; [|intros _; left; reflexivity].
        cbv beta iota. unfold RadarrMovie.movieFile_path.
        destruct (RadarrMovie.hasFile m) eqn:Hh; try discriminate.
        destruct (RadarrMovie.movieFile m) as [f|] eqn:Hf; try discriminate.
        destruct (JS.truthy_str (MovieFile.path f)) eqn:T; try discriminate.
        intros H. right. exists (MovieFile.path f), (RadarrMovie.title m).
        split; [|apply buildPlaybackInfo_Thrown in H; exact H].
        apply (ResolvesMovie env tmdbId m f Hm Hh Hf).
        intros E. rewrite E in T. discriminate T.
      * unfold getEpisodePlayback. rewrite result_bind, result_call.
        destruct (sonarr_getSeries env) as [l|] eqn:Hs;
          [|intros _; left; apply ThrowsGetSeries; exact Hs].
        cbv beta iota. rewrite result_bind.
        destruct (result (findSeries env tmdbId l)) as [[series|]|] eqn:Hf;
          try discriminate;
          [|intros _; left; exact (findSeries_Thrown _ _ _ Hs Hf)].
        destruct (findSeries_Some _ _ _ _ Hf)
          as [round [lookup [Hr [Hm [Hl [Ht [Hg _]]]]]]].
        assert (SF : series_found env tmdbId series)
          by exact (SeriesFound env tmdbId series l round lookup
                                Hs Hr Hm Hl Ht Hg).
        rewrite result_bind, result_call.
        destruct (sonarr_getEpisodes env (SonarrSeries.id series))
          as [eps|] eqn:He;
          [|intros _; left; exact (ThrowsGetEpisodes env tmdbId series SF He)].
        cbv beta iota zeta.
        destruct (JS.find _ eps) as [ep|] eqn:Hfind; try discriminate.
        destruct (SonarrEpisode.hasFile ep) eqn:Hh; try discriminate.
        destruct (JS.truthy_num (SonarrEpisode.episodeFileId ep)) eqn:Hi;
          try discriminate.
        cbn [negb orb]. rewrite result_bind, getEpisodeFilePath_result.
        destruct (fetch_episodefile env (SonarrEpisode.episodeFileId ep))
          as [|[|] [path|]] eqn:Hfetch; try discriminate.
        cbv beta iota.
        destruct (JS.truthy_str path) eqn:T; try discriminate.
        cbn [negb]. intros H. right.
        exists path, (episodeTitle series season episode ep).
        split; [|apply buildPlaybackInfo_Thrown in H; exact H].
        apply (ResolvesEpisode env tmdbId season episode series ep path);
          try assumption.
        -- exact (EpisodeFound env tmdbId season episode series ep eps
                               SF He Hfind).
        -- apply truthy_num_spec. exact Hi.
        -- intros E. rewrite E in T. discriminate T.
    + intros [H | [p [t [R B]]]].
      * destruct req as [tmdbId | tmdbId season episode]; cbn [playback].
        -- unfold getMoviePlayback. rewrite result_bind, result_call, H.
           reflexivity.
        -- apply sonarr_throws_Thrown. exact H.
      * rewrite (playback_resolved_kind _ _ _ _ R).
        apply buildPlaybackInfo_Thrown. exact B.
  - intros seriesId episodeFileId. rewrite getEpisodeFilePath_result.
    destruct (fetch_episodefile env episodeFileId) as [|[|] [path|]];
      discriminate.
Qed.

(** The world of the scenario with a library manager whose series list
    throws, and the episode of the scenario in the world where [spawn]
    gives a child without [stdout]. *)
Lemma X7_witness :
  let env := Scenario.world_with Thrown Scenario.lookup
               (fun p => Closed (Some 0) p) Scenario.parse in
  sonarr_throws env 1399
  /\ result (getEpisodePlayback env 1399 1 1) = Thrown
  /\ result (getMoviePlayback env 550) <> Thrown
  /\ result (getEpisodePlayback Scenario.world_no_stdout 1399 1 1) = Thrown.
Proof.
  intros env.
  pose proof (X7_throws_what_the_library_manager_or_the_probe_throws env)
    as [_ [He _]].
  assert (T : sonarr_throws env 1399) by (apply ThrowsGetSeries; reflexivity).
  split; [exact T|]. split; [|split].
  - exact (proj2 (He (EpisodeRequest 1399 1 1)) (or_introl T)).
  - discriminate.
  - reflexivity.
Defined.

(** ** When a playback info is returned *)

Lemma getMoviePlayback_Some (env : Env) (tmdbId : Z) (info : PlaybackInfo.t) :
  result (getMoviePlayback env tmdbId) = Returned (Some info) ->
  exists m f,
    radarr_getMovieByTmdbId env tmdbId = Returned (Some m)
    /\ RadarrMovie.hasFile m = true
    /\ RadarrMovie.movieFile m = Some f
    /\ MovieFile.path f <> ""
    /\ result (buildPlaybackInfo env (MovieFile.path f) (RadarrMovie.title m)
                                 ContentKind.movie)
       = Returned (Some info).
Proof.
  unfold getMoviePlayback. rewrite result_bind, result_call.
  destruct (radarr_getMovieByTmdbId env tmdbId) as [[m|]|]; try discriminate.
  cbv beta iota. unfold RadarrMovie.movieFile_path.
  destruct (RadarrMovie.hasFile m) eqn:Hh; try discriminate.
  destruct (RadarrMovie.movieFile m) as [f|] eqn:Hf; try discriminate.
  destruct (JS.truthy_str (MovieFile.path f)) eqn:T; try discriminate.
  intros H. exists m, f. repeat split; try assumption.
  intros E. rewrite E in T. discriminate T.
Qed.

(** X8. An entry point returns a playback info exactly when the request
    resolves to a file path and a title, probing the path succeeds, and the
    builder finds a video stream: the playback info is then the one the
    builder makes of the path, the title, the kind of the request and the
    probed media info.  In every other case without an exception the result
    is [null]. *)
Theorem X8_playback_info_exactly_when_resolved_and_probed
        (env : Env) (req : Request) (info : PlaybackInfo.t) :
  result (playback env req) = Returned (Some info)
  <-> exists filePath title mediaInfo,
        resolves env req filePath title
        /\ probed env filePath mediaInfo
        /\ has_stream CodecType.video mediaInfo
        /\ playbackOf env filePath title (kind_of req) mediaInfo = Some info.
Proof.
  split.
  - intros H.
    assert (R : exists p t, resolves env req p t
                            /\ result (buildPlaybackInfo env p t (kind_of req))
                               = Returned (Some info)).
    { destruct req as [tmdbId | tmdbId season episode]; cbn [playback] in H.
      - destruct (getMoviePlayback_Some _ _ _ H)
          as [m [f [Hm [Hh [Hf [Hp Hb]]]]]].
        exists (MovieFile.path f), (RadarrMovie.title m).
        split; [exact (ResolvesMovie env tmdbId m f Hm Hh Hf Hp) | exact Hb].
      - destruct (getEpisodePlayback_Some _ _ _ _ _ H)
          as [l [round [series [ep [lookup [path
                [_ [_ [_ [EF [_ [_ [Hh [Hi [Hf [Hp [Hb _]]]]]]]]]]]]]]]]].
        exists path, (episodeTitle series season episode ep).
        split; [|exact Hb].
        exact (ResolvesEpisode env tmdbId season episode series ep path
                               EF Hh Hi Hf Hp). }
    destruct R as [p [t [R Hb]]].
    destruct (buildPlaybackInfo_Some_calls _ _ _ _ _ Hb) as [_ [mi [P V]]].
    exists p, t, mi. repeat split; try assumption; try apply P.
    rewrite (buildPlaybackInfo_probed _ _ _ _ _ P) in Hb.
    apply Returned_inj in Hb. exact Hb.
  - intros [p [t [mi [R [P [_ Hb]]]]]].
    rewrite (playback_resolved_kind _ _ _ _ R).
    rewrite (buildPlaybackInfo_probed _ _ _ _ _ P), Hb. reflexivity.
Qed.

(** The movie of the scenario. *)
Lemma X8_witness :
  exists info,
    playbackOf Scenario.world Scenario.fight_club_path "Fight Club"
               ContentKind.movie Scenario.fight_club_info = Some info
    /\ result (getMoviePlayback Scenario.world 550) = Returned (Some info).
Proof.
  eexists. split; [reflexivity|].
  apply (proj2 (X8_playback_info_exactly_when_resolved_and_probed
                  Scenario.world (MovieRequest 550) _)).
  exists Scenario.fight_club_path, "Fight Club", Scenario.fight_club_info.
  split.
  - apply (ResolvesMovie Scenario.world 550 Scenario.fight_club
                         (MovieFile.mk Scenario.fight_club_path));
      [reflexivity | reflexivity | reflexivity | discriminate].
  - split.
    + split; [reflexivity|]. exists Scenario.fight_club_path.
      split; reflexivity.
    + split; [|reflexivity].
      eexists. split; [left; reflexivity | reflexivity].
Defined.

(** ** The client: one URL per subtitle track *)

Lemma String_of_inj (a b : Z) : JS.String_of a = JS.String_of b -> a = b.
Proof.
  unfold JS.String_of. intros H.
  apply (f_equal NilEmpty.int_of_string) in H.
  rewrite !NilEmpty.isi in H. injection H as H.
  apply (f_equal Z.of_int) in H. rewrite !DecimalZ.of_to in H. exact H.
Qed.

Lemma append_inv_tail (a b c : string) : a ++ c = b ++ c -> a = b.
Proof.
  revert b. induction a as [|x a IH]; intros [|y b] H.
  - reflexivity.
  - exfalso. apply (f_equal String.length) in H.
    simpl in H. rewrite length_append in H. lia.
  - exfalso. apply (f_equal String.length) in H.
    simpl in H. rewrite length_append in H. lia.
  - simpl in H. injection H as -> H. f_equal. apply IH. exact H.
Qed.

Lemma zseq_lower (a : Z) (n : nat) (x : Z) : In x (zseq a n) -> a <= x.
Proof.
  revert a. induction n as [|n IH]; intros a; simpl; [intros []|].
  intros [<- | H]; [lia|]. apply IH in H. lia.
Qed.

Lemma NoDup_zseq (a : Z) (n : nat) : NoDup (zseq a n).
Proof.
  revert a. induction n as [|n IH]; intros a; simpl; constructor.
  - intros H. apply zseq_lower in H. lia.
  - apply IH.
Qed.

Lemma NoDup_map_injective {A B : Type} (f : A -> B) (l : list A) :
  (forall x y, f x = f y -> x = y) -> NoDup l -> NoDup (map f l).
Proof.
  intros Hinj. induction 1 as [|x l Hx Hl IH]; simpl; constructor.
  - intros H. apply in_map_iff in H. destruct H as [y [E Hy]].
    apply Hinj in E. subst y. contradiction.
  - exact IH.
Qed.

(** The URL the client gives the subtitle track with a stream index. *)
Lemma clientSubtitle_url (API_BASE : string) (token : option string)
      (filePath : string) (sub : SubtitleTrack.t) :
  ClientSubtitleTrack.url (clientSubtitle API_BASE token filePath sub)
  = Some (API_BASE
            ++ ("/api/media/subtitle/"
                  ++ JS.encodeURIComponent
                       (JS.String_of (SubtitleTrack.streamIndex sub)
                          ++ ":" ++ filePath))
            ++ authParam token).
Proof. reflexivity. Qed.

Lemma subtitle_url_inj (API_BASE : string) (token : option string)
      (filePath : string) (a b : Z) :
  Some (API_BASE
          ++ ("/api/media/subtitle/"
                ++ JS.encodeURIComponent (JS.String_of a ++ ":" ++ filePath))
          ++ authParam token)
  = Some (API_BASE
            ++ ("/api/media/subtitle/"
                  ++ JS.encodeURIComponent (JS.String_of b ++ ":" ++ filePath))
            ++ authParam token) ->
  a = b.
Proof.
  intros H. apply Some_inj, append_inv_head, append_inv_tail in H.
  apply append_inv_head, encodeURIComponent_inj, append_inv_tail in H.
  apply String_of_inj. exact H.
Qed.

Lemma buildPlaybackInfo_subtitle_indices (env : Env) (filePath title : string)
      (type : ContentKind.t) (info : PlaybackInfo.t) :
  result (buildPlaybackInfo env filePath title type) = Returned (Some info) ->
  map SubtitleTrack.streamIndex (PlaybackInfo.subtitles info)
  = zseq 0 (List.length (PlaybackInfo.subtitles info)).
Proof.
  intros H.
  destruct (buildPlaybackInfo_Some_inv _ _ _ _ _ H) as [mi [_ H']].
  clear H. rename H' into H. open_playback H.
  cbn [PlaybackInfo.subtitles]. unfold JS.map_st.
  pose proof (subtitles_from
                (JS.filter (is_type CodecType.subtitle) (MediaInfo.streams mi))
                0 0) as [S1 _].
  cbv zeta in S1. rewrite <- (length_map SubtitleTrack.streamIndex), S1.
  rewrite length_zseq. reflexivity.
Qed.

(** X9. The client never drops a playback info the server built, and gives
    every subtitle track a URL of its own: for every playback info of the
    builder, [clientPlayback] returns a playback info with the same audio
    tracks and strategy, whose subtitle tracks are the server's, in order,
    each with a URL, and no two of these URLs are the same. *)
Theorem X9_every_subtitle_track_has_its_own_url
        (env : Env) (filePath title : string) (type : ContentKind.t)
        (info : PlaybackInfo.t) (API_BASE : string) (token : option string) :
  result (buildPlaybackInfo env filePath title type) = Returned (Some info) ->
  exists cinfo,
    clientPlayback API_BASE token info = Some cinfo
    /\ ClientPlaybackInfo.audioTracks cinfo = PlaybackInfo.audioTracks info
    /\ ClientPlaybackInfo.needsTranscode cinfo = PlaybackInfo.needsTranscode info
    /\ map ClientSubtitleTrack.streamIndex (ClientPlaybackInfo.subtitles cinfo)
       = map SubtitleTrack.streamIndex (PlaybackInfo.subtitles info)
    /\ map ClientSubtitleTrack.id (ClientPlaybackInfo.subtitles cinfo)
       = map SubtitleTrack.id (PlaybackInfo.subtitles info)
    /\ (forall sub, In sub (ClientPlaybackInfo.subtitles cinfo) ->
                    ClientSubtitleTrack.url sub <> None)
    /\ NoDup (map ClientSubtitleTrack.url (ClientPlaybackInfo.subtitles cinfo)).
Proof.
  intros H.
  destruct (buildPlaybackInfo_streamUrl _ _ _ _ _ H) as [Hfound _].
  pose proof (buildPlaybackInfo_subtitle_indices _ _ _ _ _ H) as Hidx.
  unfold clientPlayback. rewrite Hfound. cbn [negb].
  eexists. split; [reflexivity|].
  cbn [ClientPlaybackInfo.audioTracks ClientPlaybackInfo.needsTranscode
       ClientPlaybackInfo.subtitles].
  split; [reflexivity|]. split; [reflexivity|].
  rewrite !map_map. cbn [clientSubtitle ClientSubtitleTrack.streamIndex
                         ClientSubtitleTrack.id].
  split; [reflexivity|]. split; [reflexivity|]. split.
  - intros sub Hs. apply in_map_iff in Hs. destruct Hs as [x [<- _]].
    discriminate.
  - set (url_of := fun idx =>
                     Some (API_BASE
                             ++ ("/api/media/subtitle/"
                                   ++ JS.encodeURIComponent
                                        (JS.String_of idx ++ ":"
                                           ++ PlaybackInfo.filePath info))
                             ++ authParam token)).
    assert (E : map (fun x => ClientSubtitleTrack.url
                                (clientSubtitle API_BASE token
                                                (PlaybackInfo.filePath info) x))
                    (PlaybackInfo.subtitles info)
                = map url_of (map SubtitleTrack.streamIndex
                                  (PlaybackInfo.subtitles info))).
    { rewrite map_map. apply map_ext. intros sub. apply clientSubtitle_url. }
    rewrite E, Hidx.
    apply NoDup_map_injective; [|apply NoDup_zseq].
    intros a b Eab. exact (subtitle_url_inj _ _ _ _ _ Eab).
Qed.

(** The movie of the scenario and its two subtitle tracks. *)
Lemma X9_witness :
  exists info cinfo,
    result (buildPlaybackInfo Scenario.world Scenario.fight_club_path
                              "Fight Club" ContentKind.movie)
    = Returned (Some info)
    /\ clientPlayback "http://localhost:3001" None info = Some cinfo
    /\ NoDup (map ClientSubtitleTrack.url (ClientPlaybackInfo.subtitles cinfo)).
Proof.
  destruct (X9_every_subtitle_track_has_its_own_url
              Scenario.world Scenario.fight_club_path "Fight Club"
              ContentKind.movie _ "http://localhost:3001" None eq_refl)
    as [cinfo [Hc [_ [_ [_ [_ [_ Hn]]]]]]].
  eexists. exists cinfo. split; [reflexivity|]. split; [exact Hc | exact Hn].
Defined.

(** ** The newer client on the answers of this server *)

Lemma nativeSubtitle_of_server (API_BASE : string) (token : option string)
      (filePath : string) (sub : SubtitleTrack.t) :
  nativeSubtitle API_BASE token (Some filePath)
    (ClientSubtitleTrack.mk
       (SubtitleTrack.id sub) (SubtitleTrack.streamIndex sub)
       (SubtitleTrack.language sub) (SubtitleTrack.languageCode sub)
       (SubtitleTrack.displayTitle sub) (SubtitleTrack.format sub) None)
  = clientSubtitle API_BASE token filePath sub.
Proof. reflexivity. Qed.

(** X10. The newer, Jellyfin-aware client treats an answer of this server
    (which names no backend) exactly as the older client does: the same
    [null] for an answer that is not found, and otherwise the same stream
    URL, subtitle URLs and other members.  An answer of the Jellyfin backend
    that is found is returned as it is: nothing is prefixed and no token is
    appended to its URLs. *)
Theorem X10_newer_client_agrees_with_older_on_native_answers
        (API_BASE : string) (token : option string) :
  (forall info : PlaybackInfo.t,
      clientPlaybackData API_BASE token (data_of_server info)
      = option_map data_of_client (clientPlayback API_BASE token info))
  /\ (forall data : PlaybackData.t,
         PlaybackData.found data = true ->
         PlaybackData.streamingBackend data = Some StreamingBackend.jellyfin ->
         clientPlaybackData API_BASE token data = Some data).
Proof.
  split.
  - intros info. unfold clientPlaybackData, clientPlayback.
    cbn [data_of_server PlaybackData.found PlaybackData.streamingBackend].
    destruct (PlaybackInfo.found info); [|reflexivity].
    cbn [negb option_map]. f_equal. unfold data_of_client.
    cbn [PlaybackData.title PlaybackData.type PlaybackData.filePath
         PlaybackData.fileSize PlaybackData.duration PlaybackData.mediaInfo
         PlaybackData.needsTranscode PlaybackData.playbackStrategy
         PlaybackData.streamUrl PlaybackData.directStreamUrl
         PlaybackData.hlsSupported PlaybackData.subtitles
         PlaybackData.audioTracks PlaybackData.jellyfinItemId
         PlaybackData.jellyfinMediaSourceId PlaybackData.jellyfinPlaySessionId
         PlaybackData.found PlaybackData.streamingBackend
         ClientPlaybackInfo.title ClientPlaybackInfo.type
         ClientPlaybackInfo.filePath ClientPlaybackInfo.fileSize
         ClientPlaybackInfo.duration ClientPlaybackInfo.mediaInfo
         ClientPlaybackInfo.needsTranscode ClientPlaybackInfo.streamUrl
         ClientPlaybackInfo.subtitles ClientPlaybackInfo.audioTracks
         ClientPlaybackInfo.found option_map prefixed data_of_server].
    rewrite map_map.
    rewrite (map_ext _ (clientSubtitle API_BASE token (PlaybackInfo.filePath info))
                     (nativeSubtitle_of_server API_BASE token
                                               (PlaybackInfo.filePath info))).
    destruct (JS.truthy_str (PlaybackInfo.streamUrl info)
              && JS.startsWithSlash (PlaybackInfo.streamUrl info));
      reflexivity.
  - intros data Hf Hb. unfold clientPlaybackData. rewrite Hf, Hb. reflexivity.
Qed.

(** An answer of the Jellyfin backend, with absolute URLs. *)
Lemma X10_witness :
  let data :=
    PlaybackData.mk true (Some "Fight Club") (Some ContentKind.movie)
      (Some Scenario.fight_club_path) None (Some 8340000) None None
      (Some PlaybackStrategy.transcode)
      (Some "http://jellyfin:8096/Videos/ab12/master.m3u8?api_key=k")
      (Some "/Videos/ab12/stream") (Some true) (Some []) (Some [])
      (Some "ab12") (Some "ab12") (Some "s1")
      (Some StreamingBackend.jellyfin) in
  clientPlaybackData "http://localhost:3001" (Some "t/k") data = Some data.
Proof.
  intros data.
  exact (proj2 (X10_newer_client_agrees_with_older_on_native_answers
                  "http://localhost:3001" (Some "t/k"))
               data eq_refl eq_refl).
Defined.

(** ** The container is a clean extension *)

Lemma plain_spec (x : ascii) :
  plain x = true <-> Ascii.eqb x "." = false /\ Ascii.eqb x "/" = false.
Proof.
  unfold plain. rewrite andb_true_iff, !negb_true_iff. tauto.
Qed.

Lemma plain_range_extend (path : string) (i e : nat) (x : ascii) :
  String.get i path = Some x -> plain x = true ->
  plain_range path (S i) e -> plain_range path i e.
Proof.
  intros G P R j Hj. destruct (Nat.eq_dec j i) as [-> | N]; [eauto|].
  apply R. lia.
Qed.

(** One round of the scan on a character that is not a slash. *)
Lemma ext_scan_step (path : string) (i : nat) (st : JS.ExtScan) (code : ascii) :
  String.get i path = Some code ->
  Ascii.eqb code "/" = false ->
  exists st2,
    JS.ext_scan path (S i) st = JS.ext_scan path i st2
    /\ JS.end_ st2 = (if JS.end_ st =? -1 then Z.of_nat i + 1 else JS.end_ st)
    /\ JS.matchedSlash st2
       = (if JS.end_ st =? -1 then false else JS.matchedSlash st)
    /\ JS.startDot st2
       = (if Ascii.eqb code "." && (JS.startDot st =? -1)
          then Z.of_nat i else JS.startDot st).
Proof.
  intros G Sl. cbn [JS.ext_scan]. rewrite G, Sl.
  destruct (JS.end_ st =? -1) eqn:E1;
    cbn [JS.startDot JS.end_ JS.startPart JS.matchedSlash JS.preDotState];
    destruct (JS.startDot st =? -1) eqn:E2;
    destruct (Ascii.eqb code "."); cbn [negb andb];
    try destruct (negb (JS.preDotState st =? 1));
    eexists; (split; [reflexivity|]);
    cbn [JS.startDot JS.end_ JS.matchedSlash]; auto.
Qed.

Lemma ext_scan_inv (path : string) (n : nat) (st : JS.ExtScan) :
  (n <= String.length path)%nat ->
  ext_inv path n st ->
  exists m, ext_inv path m (JS.ext_scan path n st).
Proof.
  revert st. induction n as [|i IH]; intros st Hn H; [exists 0%nat; exact H|].
  destruct (get_lt path i) as [code G]; [lia|].
  destruct (Ascii.eqb code "/") eqn:Sl.
  - cbn [JS.ext_scan]. rewrite G, Sl.
    destruct (JS.matchedSlash st) eqn:Ms; cbn [negb].
    + apply IH; [lia|].
      destruct H as [H | [[e [_ [_ [M _]]]] | [d [e [_ [_ [M _]]]]]]];
        [left; exact H | congruence | congruence].
    + exists (S i). unfold ext_inv in *.
      cbn [JS.end_ JS.startDot JS.matchedSlash]. rewrite Ms in H. exact H.
  - destruct (ext_scan_step path i st code G Sl) as [st2 [-> [He2 [Ms2 Hd2]]]].
    apply IH; [lia|].
    destruct H as [[He Hd] | [[e [He [Hd [Ms [Hr Hp]]]]]
                             | [d [e [He [Hd [Ms [Hnd [Hde [Gd Hp]]]]]]]]]].
    + rewrite He in He2, Ms2. rewrite Hd in Hd2. cbn [Z.eqb Pos.eqb] in *.
      destruct (Ascii.eqb code ".") eqn:Dot; cbn [andb] in Hd2.
      * right. right. exists i, (S i).
        apply Ascii.eqb_eq in Dot. subst code.
        repeat split; try lia; try assumption.
        intros j Hj. lia.
      * right. left. exists (S i).
        repeat split; try lia; try assumption.
        intros j Hj. assert (j = i) by lia. subst j.
        exists code. split; [exact G|]. apply plain_spec. auto.
    + assert (E1 : (JS.end_ st =? -1) = false) by (apply Z.eqb_neq; lia).
      rewrite E1 in He2, Ms2. rewrite Hd in Hd2. cbn [Z.eqb Pos.eqb] in Hd2.
      destruct (Ascii.eqb code ".") eqn:Dot; cbn [andb] in Hd2.
      * right. right. exists i, e.
        apply Ascii.eqb_eq in Dot. subst code.
        repeat split; try lia; try congruence; try assumption.
      * right. left. exists e.
        repeat split; try lia; try congruence.
        apply (plain_range_extend path i e code G); [|exact Hp].
        apply plain_spec. auto.
    + assert (E1 : (JS.end_ st =? -1) = false) by (apply Z.eqb_neq; lia).
      assert (E2 : (JS.startDot st =? -1) = false) by (apply Z.eqb_neq; lia).
      rewrite E1 in He2, Ms2. rewrite E2, andb_false_r in Hd2.
      right. right. exists d, e.
      repeat split; try lia; try congruence; try assumption.
Qed.

Lemma substring_head (s : string) (d k : nat) (c : ascii) :
  String.get d s = Some c ->
  String.substring d (S k) s = String c (String.substring (S d) k s).
Proof.
  revert d. induction s as [|x s IH]; intros d G; [discriminate|].
  destruct d as [|d].
  - simpl in G. injection G as ->. simpl. destruct s; reflexivity.
  - simpl in G. cbn [String.substring]. apply IH. exact G.
Qed.

Lemma all_chars_of_get (p : ascii -> bool) (s : string) :
  (forall j x, String.get j s = Some x -> p x = true) -> all_chars p s = true.
Proof.
  induction s as [|c s IH]; intros H; [reflexivity|].
  simpl. rewrite (H 0%nat c eq_refl). apply IH.
  intros j x G. exact (H (S j) x G).
Qed.

(** What [path.extname] returns is empty, or a dot followed by plain
    characters. *)
Lemma extname_shape (path : string) :
  JS.extname path = ""
  \/ exists ext, JS.extname path = String "." ext /\ all_chars plain ext = true.
Proof.
  unfold JS.extname.
  destruct (ext_scan_inv path (String.length path) JS.ext_init) as [m Inv];
    [lia | left; split; reflexivity |].
  set (st := JS.ext_scan path (String.length path) JS.ext_init) in *.
  destruct (JS.startDot st =? -1) eqn:E1; [left; reflexivity|].
  destruct (JS.end_ st =? -1) eqn:E2; [left; reflexivity|].
  cbn [orb].
  destruct ((JS.preDotState st =? 0)
            || (JS.preDotState st =? 1) && (JS.startDot st =? JS.end_ st - 1)
               && (JS.startDot st =? JS.startPart st + 1));
    [left; reflexivity|].
  right. apply Z.eqb_neq in E1. apply Z.eqb_neq in E2.
  destruct Inv as [[He _] | [[e [_ [Hd _]]] | [d [e [He [Hd [_ [_ [Hde [Gd Hp]]]]]]]]]];
    [contradiction | contradiction |].
  rewrite He, Hd, Nat2Z.id.
  replace (Z.to_nat (Z.of_nat e - Z.of_nat d)) with (S (e - d - 1)) by lia.
  rewrite (substring_head path d _ "."%char Gd).
  eexists. split; [reflexivity|].
  apply all_chars_of_get. intros j x G.
  destruct (Nat.lt_ge_cases j (e - d - 1)) as [Hlt | Hge].
  - rewrite String.substring_correct1 in G by exact Hlt.
    destruct (Hp (j + S d)%nat) as [y [Gy Py]]; [lia|]. congruence.
  - rewrite String.substring_correct2 in G by exact Hge. discriminate G.
Qed.

(** X11. The container of a playback info is a clean extension: it is never
    empty and contains neither a dot nor a slash, whatever the file path
    is. *)
Theorem X11_container_is_a_clean_extension
        (env : Env) (filePath title : string) (type : ContentKind.t)
        (info : PlaybackInfo.t) :
  result (buildPlaybackInfo env filePath title type) = Returned (Some info) ->
  MediaSummary.container (PlaybackInfo.mediaInfo info) <> ""
  /\ all_chars plain (MediaSummary.container (PlaybackInfo.mediaInfo info))
     = true.
Proof.
  intros H.
  destruct (buildPlaybackInfo_Some_inv _ _ _ _ _ H) as [mi [_ H']].
  clear H. rename H' into H. open_playback H.
  cbn [PlaybackInfo.mediaInfo MediaSummary.container]. cbv zeta.
  unfold JS.truthy_str.
  destruct (extname_shape filePath) as [-> | [ext [-> Hp]]]; cbn [JS.slice1].
  - split; [discriminate | reflexivity].
  - destruct (String.eqb_spec ext ""); cbn [negb].
    + split; [discriminate | reflexivity].
    + split; assumption.
Qed.

(** A file in a directory whose name has a dot and that has no extension of
    its own: the container is the default one. *)
Lemma X11_witness :
  let env := Scenario.world_with (Returned []) Scenario.lookup
               (fun _ => Closed (Some 0) Scenario.fight_club_path)
               Scenario.parse in
  exists info,
    result (buildPlaybackInfo env "/data/show.s01/episode" "Episode"
                              ContentKind.episode)
    = Returned (Some info)
    /\ MediaSummary.container (PlaybackInfo.mediaInfo info) = "mkv"
    /\ all_chars plain (MediaSummary.container (PlaybackInfo.mediaInfo info))
       = true.
Proof.
  intros env. eexists. split; [reflexivity|]. split; [reflexivity|].
  exact (proj2 (X11_container_is_a_clean_extension
                  env "/data/show.s01/episode" "Episode"
                  ContentKind.episode _ eq_refl)).
Defined.

(** ** The season and episode tags of an episode title *)

Lemma string_of_uint_length (d : Decimal.uint) :
  d <> Decimal.Nil -> (1 <= String.length (NilEmpty.string_of_uint d))%nat.
Proof. destruct d; simpl; intros H; try lia. contradiction. Qed.

Lemma padStart_long (s : string) (n : nat) (c : ascii) :
  (n <= String.length s)%nat -> JS.padStart s n c = s.
Proof.
  intros H. unfold JS.padStart.
  replace (n - String.length s)%nat with 0%nat by lia. reflexivity.
Qed.

(** The tag [String(n).padStart(2, '0')] has at least two characters, ends
    with the decimal text of the number, and reads back as the number. *)
Lemma tag_reads_back (n : Z) :
  (2 <= String.length (JS.padStart (JS.String_of n) 2 "0"))%nat
  /\ (exists pad, JS.padStart (JS.String_of n) 2 "0" = pad ++ JS.String_of n)
  /\ option_map Z.of_int
       (NilEmpty.int_of_string (JS.padStart (JS.String_of n) 2 "0"))
     = Some n.
Proof.
  assert (Long : (2 <= String.length (JS.String_of n))%nat ->
                 (2 <= String.length (JS.padStart (JS.String_of n) 2 "0"))%nat
                 /\ (exists pad, JS.padStart (JS.String_of n) 2 "0"
                                 = pad ++ JS.String_of n)
                 /\ option_map Z.of_int
                      (NilEmpty.int_of_string
                         (JS.padStart (JS.String_of n) 2 "0"))
                    = Some n).
  { intros H. rewrite (padStart_long _ _ _ H).
    split; [exact H|]. split; [exists ""; reflexivity|].
    unfold JS.String_of. rewrite NilEmpty.isi. cbn [option_map].
    rewrite DecimalZ.of_to. reflexivity. }
  destruct n as [|p|p].
  - split; [cbn; lia|]. split; [exists "0"|]; reflexivity.
  - pose proof (string_of_uint_length _ (DecimalPos.Unsigned.to_uint_nonnil p))
      as L1.
    destruct (Nat.le_gt_cases 2 (String.length (JS.String_of (Z.pos p))))
      as [H | H]; [exact (Long H)|].
    unfold JS.String_of in *. cbn [Z.to_int NilEmpty.string_of_int] in *.
    set (d := Pos.to_uint p) in *.
    assert (E : String.length (NilEmpty.string_of_uint d) = 1%nat) by lia.
    unfold JS.padStart. rewrite E. cbn [Nat.sub JS.repeat_char append].
    split; [simpl; lia|]. split; [exists "0"; reflexivity|].
    cbn [NilEmpty.int_of_string Ascii.eqb Bool.eqb NilEmpty.uint_of_string].
    rewrite NilEmpty.usu.
    change (Some (Z.of_int (Z.to_int (Z.pos p))) = Some (Z.pos p)).
    rewrite DecimalZ.of_to. reflexivity.
  - apply Long. unfold JS.String_of. cbn [Z.to_int NilEmpty.string_of_int].
    pose proof (string_of_uint_length _ (DecimalPos.Unsigned.to_uint_nonnil p)).
    simpl. lia.
Qed.

(** The tag of a number from 0 to 99 has two characters. *)
Lemma tag_two_characters (n : Z) :
  0 <= n < 100 ->
  String.length (JS.padStart (JS.String_of n) 2 "0") = 2%nat.
Proof.
  intros H.
  assert (K : forall k : nat,
             (k < 100)%nat ->
             String.length (JS.padStart (JS.String_of (Z.of_nat k)) 2 "0")
             = 2%nat).
  { intros k Hk.
    do 100 (destruct k as [|k]; [vm_compute; reflexivity|]). lia. }
  rewrite <- (Z2Nat.id n) by lia. apply K. lia.
Qed.

Lemma append_inv_length (a b x y : string) :
  String.length a = String.length b -> a ++ x = b ++ y -> a = b /\ x = y.
Proof.
  revert b. induction a as [|c a IH]; intros [|d b] L H;
    try discriminate L.
  - split; [reflexivity | exact H].
  - simpl in H. injection H as -> H. injection L as L.
    destruct (IH b L H) as [-> ->]. split; reflexivity.
Qed.

(** X12. The title of an episode carries the season and the episode of the
    request as two tags, [S07E12]: for a season and an episode from 0 to
    99 each tag has exactly two characters, and the title of an episode of
    a series tells its season and its episode apart from every other
    season and episode of that range. *)
Theorem X12_episode_title_tells_season_and_episode
        (series : SonarrSeries.t) (ep : SonarrEpisode.t)
        (season episode season' episode' : Z) :
  0 <= season < 100 -> 0 <= episode < 100 ->
  0 <= season' < 100 -> 0 <= episode' < 100 ->
  (exists tagS tagE,
      String.length tagS = 2%nat /\ String.length tagE = 2%nat
      /\ episodeTitle series season episode ep
         = SonarrSeries.title series ++ " - S" ++ tagS ++ "E" ++ tagE
             ++ " - " ++ SonarrEpisode.title ep)
  /\ (episodeTitle series season episode ep
      = episodeTitle series season' episode' ep ->
      season = season' /\ episode = episode').
Proof.
  intros Hs He Hs' He'. split.
  - exists (JS.padStart (JS.String_of season) 2 "0"),
           (JS.padStart (JS.String_of episode) 2 "0").
    split; [exact (tag_two_characters _ Hs)|].
    split; [exact (tag_two_characters _ He) | reflexivity].
  - unfold episodeTitle. intros H.
    apply append_inv_head in H. apply (append_inv_head " - S") in H.
    apply append_inv_length in H;
      [|rewrite !tag_two_characters by assumption; reflexivity].
    destruct H as [HS H].
    apply (append_inv_head "E") in H.
    apply append_inv_length in H;
      [|rewrite !tag_two_characters by assumption; reflexivity].
    destruct H as [HE _].
    pose proof (proj2 (proj2 (tag_reads_back season))) as RS.
    pose proof (proj2 (proj2 (tag_reads_back episode))) as RE.
    rewrite HS, (proj2 (proj2 (tag_reads_back season'))) in RS.
    rewrite HE, (proj2 (proj2 (tag_reads_back episode'))) in RE.
    split; congruence.
Qed.

(** Season 7, episode 12 of the show of the scenario, and season 12,
    episode 7. *)
Lemma X12_witness :
  0 <= 7 < 100 /\ 0 <= 12 < 100
  /\ episodeTitle Scenario.thrones 7 12
                  (SonarrEpisode.mk 7 12 "Stormborn" true 1)
     = "Game of Thrones - S07E12 - Stormborn"
  /\ episodeTitle Scenario.thrones 7 12
                  (SonarrEpisode.mk 7 12 "Stormborn" true 1)
     <> episodeTitle Scenario.thrones 12 7
                     (SonarrEpisode.mk 7 12 "Stormborn" true 1).
Proof.
  assert (B7 : 0 <= 7 < 100) by (split; [discriminate | reflexivity]).
  assert (B12 : 0 <= 12 < 100) by (split; [discriminate | reflexivity]).
  split; [exact B7|]. split; [exact B12|]. split; [reflexivity|].
  intros H.
  destruct (proj2 (X12_episode_title_tells_season_and_episode
                     Scenario.thrones
                     (SonarrEpisode.mk 7 12 "Stormborn" true 1)
                     7 12 12 7 B7 B12 B12 B7) H) as [E _].
  discriminate E.
Defined.

(** ** Each entry point keeps to its own library manager *)

Lemma getEpisodeFilePath_calls (env : Env) (seriesId episodeFileId : Z) :
  calls (getEpisodeFilePath env seriesId episodeFileId)
  = [Fetch_episodefile episodeFileId].
Proof.
  unfold getEpisodeFilePath. rewrite calls_bind, result_call, calls_call.
  destruct (fetch_episodefile env episodeFileId) as [|[|] [path|]]; reflexivity.
Qed.

(** X13. Each entry point keeps to its own library manager:
    [getMoviePlayback] makes one Radarr call, first, and apart from it only
    probes; [getEpisodePlayback] starts with the series list and never calls
    Radarr. *)
Theorem X13_entry_points_keep_to_their_library_manager
        (env : Env) (tmdbId season episode : Z) :
  (exists rest,
      calls (getMoviePlayback env tmdbId) = Radarr_getMovieByTmdbId tmdbId :: rest
      /\ forall c, In c rest -> exists filePath, c = Spawn_ffprobe filePath)
  /\ (exists rest,
         calls (getEpisodePlayback env tmdbId season episode)
         = Sonarr_getSeries :: rest
         /\ forall c, In c rest ->
                      forall id, c <> Radarr_getMovieByTmdbId id).
Proof.
  assert (B : forall p t k c,
             In c (calls (buildPlaybackInfo env p t k)) -> c = Spawn_ffprobe p).
  { intros p t k c. rewrite calls_buildPlaybackInfo.
    destruct (fs_existsSync env p); [|intros []].
    intros [<- | []]. reflexivity. }
  split.
  - rewrite getMoviePlayback_calls. eexists. split; [reflexivity|].
    intros c.
    destruct (radarr_getMovieByTmdbId env tmdbId) as [[m|]|]; try intros [].
    destruct (RadarrMovie.hasFile m), (RadarrMovie.movieFile_path m) as [p|];
      try intros [].
    destruct (JS.truthy_str p); [|intros []].
    intros H. exists p. exact (B _ _ _ _ H).
  - unfold getEpisodePlayback at 1.
    rewrite calls_bind, result_call, calls_call.
    destruct (sonarr_getSeries env) as [l|];
      [|exists []; split; [reflexivity | intros c []]].
    cbn [app]. eexists. split; [reflexivity|].
    intros c Hc id E. subst c.
    apply in_calls_bind in Hc. destruct Hc as [Hc | [series [_ Hc]]].
    { destruct (findSeries_calls_in _ _ _ _ Hc) as [E | [tv E]]; discriminate E. }
    destruct series as [series|]; [|destruct Hc].
    apply in_calls_bind in Hc. destruct Hc as [Hc | [eps [_ Hc]]].
    { destruct Hc as [E | []]. discriminate E. }
    cbv zeta in Hc.
    destruct (JS.find _ eps) as [ep|]; [|destruct Hc].
    destruct (negb (SonarrEpisode.hasFile ep)
              || negb (JS.truthy_num (SonarrEpisode.episodeFileId ep)));
      [destruct Hc|].
    apply in_calls_bind in Hc. destruct Hc as [Hc | [file [_ Hc]]].
    { rewrite getEpisodeFilePath_calls in Hc. destruct Hc as [E | []].
      discriminate E. }
    destruct file as [path|]; [|destruct Hc].
    destruct (negb (JS.truthy_str path)); [destruct Hc|].
    apply B in Hc. discriminate Hc.
Qed.

(** ** Each track is built from one stream *)

Lemma audio_track_at (l : list MediaStream.t) (i a : Z) (k : nat)
      (t : AudioTrack.t) :
  nth_error (fst (JS.map_from audioTrackOf i a l)) k = Some t ->
  exists s,
    nth_error l k = Some s
    /\ t = fst (audioTrackOf s (i + Z.of_nat k) (a + Z.of_nat k)).
Proof.
  revert i a k. induction l as [|s r IH]; intros i a k.
  - destruct k; discriminate.
  - specialize (IH (i + 1) (a + 1)). cbn [JS.map_from audioTrackOf].
    destruct (JS.map_from audioTrackOf (i + 1) (a + 1) r) as [ys st].
    cbn [fst] in *. destruct k as [|k]; cbn [nth_error].
    + intros [= <-]. exists s. split; [reflexivity|].
      change (Z.of_nat 0) with 0. rewrite !Z.add_0_r. reflexivity.
    + intros H. destruct (IH k H) as [s' [Hs ->]]. exists s'.
      split; [exact Hs|].
      replace (i + Z.of_nat (S k)) with (i + 1 + Z.of_nat k) by lia.
      replace (a + Z.of_nat (S k)) with (a + 1 + Z.of_nat k) by lia.
      reflexivity.
Qed.

Lemma subtitle_at (l : list MediaStream.t) (i a : Z) (k : nat)
      (t : SubtitleTrack.t) :
  nth_error (fst (JS.map_from subtitleOf i a l)) k = Some t ->
  exists s,
    nth_error l k = Some s
    /\ t = fst (subtitleOf s (i + Z.of_nat k) (a + Z.of_nat k)).
Proof.
  revert i a k. induction l as [|s r IH]; intros i a k.
  - destruct k; discriminate.
  - specialize (IH (i + 1) (a + 1)). cbn [JS.map_from subtitleOf].
    destruct (JS.map_from subtitleOf (i + 1) (a + 1) r) as [ys st].
    cbn [fst] in *. destruct k as [|k]; cbn [nth_error].
    + intros [= <-]. exists s. split; [reflexivity|].
      change (Z.of_nat 0) with 0. rewrite !Z.add_0_r. reflexivity.
    + intros H. destruct (IH k H) as [s' [Hs ->]]. exists s'.
      split; [exact Hs|].
      replace (i + Z.of_nat (S k)) with (i + 1 + Z.of_nat k) by lia.
      replace (a + Z.of_nat (S k)) with (a + 1 + Z.of_nat k) by lia.
      reflexivity.
Qed.

(** X14. The track at a position of a playback info is built from the stream
    at the same position among the audio streams, or the subtitle streams, of
    the file, and from that stream alone: its [id], its codec or format and
    its channels are the stream's, its [streamIndex] is the position, and a
    stream without tags gets the language [Unknown] and the title [Audio k]
    or [Subtitle k], numbered from 1. *)
Theorem X14_track_at_position_is_built_from_stream_at_position
        (env : Env) (filePath title : string) (type : ContentKind.t)
        (mediaInfo : MediaInfo.t) (info : PlaybackInfo.t) (k : nat) :
  probed env filePath mediaInfo ->
  result (buildPlaybackInfo env filePath title type) = Returned (Some info) ->
  (forall t,
      nth_error (PlaybackInfo.audioTracks info) k = Some t ->
      exists s,
        nth_error (JS.filter (is_type CodecType.audio)
                             (MediaInfo.streams mediaInfo)) k = Some s
        /\ AudioTrack.id t = MediaStream.index s
        /\ AudioTrack.streamIndex t = Z.of_nat k
        /\ AudioTrack.codec t = MediaStream.codec_name s
        /\ AudioTrack.channels t = JS.num_or (MediaStream.channels s) 2
        /\ AudioTrack.selected t = (Z.of_nat k =? 0)
        /\ (MediaStream.tags s = None ->
            AudioTrack.language t = "Unknown"
            /\ AudioTrack.displayTitle t
               = "Audio " ++ JS.String_of (Z.of_nat k + 1)))
  /\ (forall t,
         nth_error (PlaybackInfo.subtitles info) k = Some t ->
         exists s,
           nth_error (JS.filter (is_type CodecType.subtitle)
                                (MediaInfo.streams mediaInfo)) k = Some s
           /\ SubtitleTrack.id t = MediaStream.index s
           /\ SubtitleTrack.streamIndex t = Z.of_nat k
           /\ SubtitleTrack.format t = MediaStream.codec_name s
           /\ (MediaStream.tags s = None ->
               SubtitleTrack.language t = "Unknown"
               /\ SubtitleTrack.displayTitle t
                  = "Subtitle " ++ JS.String_of (Z.of_nat k + 1))).
Proof.
  intros P H. rewrite (buildPlaybackInfo_probed _ _ _ _ _ P) in H.
  apply Returned_inj in H. open_playback H.
  cbn [PlaybackInfo.audioTracks PlaybackInfo.subtitles]. unfold JS.map_st.
  split; intros t Ht.
  - destruct (audio_track_at _ _ _ _ _ Ht) as [s [Hs ->]].
    exists s. split; [exact Hs|].
    cbn [audioTrackOf fst AudioTrack.id AudioTrack.streamIndex AudioTrack.codec
         AudioTrack.channels AudioTrack.selected AudioTrack.language
         AudioTrack.displayTitle].
    repeat split.
    all: unfold MediaStream.tags_language, MediaStream.tags_title;
      rewrite H; reflexivity.
  - destruct (subtitle_at _ _ _ _ _ Ht) as [s [Hs ->]].
    exists s. split; [exact Hs|].
    cbn [subtitleOf fst SubtitleTrack.id SubtitleTrack.streamIndex
         SubtitleTrack.format SubtitleTrack.language
         SubtitleTrack.displayTitle].
    repeat split.
    all: unfold MediaStream.tags_language, MediaStream.tags_title;
      rewrite H; reflexivity.
Qed.

(** The second audio track of the episode of the scenario is built from the
    second audio stream, whose container index is 3. *)
Lemma X14_witness :
  probed Scenario.world Scenario.pilot_path Scenario.pilot_info
  /\ exists info t,
       result (buildPlaybackInfo Scenario.world Scenario.pilot_path
                                 "Pilot" ContentKind.episode)
       = Returned (Some info)
       /\ nth_error (PlaybackInfo.audioTracks info) 1 = Some t
       /\ AudioTrack.id t = 3
       /\ AudioTrack.codec t = "ac3".
Proof.
  assert (P : probed Scenario.world Scenario.pilot_path Scenario.pilot_info).
  { split; [reflexivity|]. exists Scenario.pilot_path. split; reflexivity. }
  split; [exact P|].
  eexists. eexists. split; [reflexivity|]. split; [reflexivity|].
  destruct (proj1 (X14_track_at_position_is_built_from_stream_at_position
                     Scenario.world Scenario.pilot_path "Pilot"
                     ContentKind.episode Scenario.pilot_info _ 1%nat P eq_refl)
                  _ eq_refl)
    as [s [Hs [Hid [_ [Hc _]]]]].
  injection Hs as <-. split; [exact Hid | exact Hc].
Defined.

(** The movie and the first episode of the scenario. *)
Lemma X13_witness :
  (exists rest,
      calls (getMoviePlayback Scenario.world 550)
      = Radarr_getMovieByTmdbId 550 :: rest
      /\ forall c, In c rest -> exists filePath, c = Spawn_ffprobe filePath)
  /\ ~ In (Radarr_getMovieByTmdbId 1399)
          (calls (getEpisodePlayback Scenario.world 1399 1 1)).
Proof.
  pose proof (X13_entry_points_keep_to_their_library_manager
                Scenario.world 550 1 1) as [M _].
  pose proof (X13_entry_points_keep_to_their_library_manager
                Scenario.world 1399 1 1) as [_ [rest [E H]]].
  split; [exact M|].
  rewrite E. intros [D | I]; [discriminate D|].
  exact (H _ I 1399 eq_refl).
Defined.
